(** * idc-golang: the Drupal JSON API test client, embedded in Rocq

    A shallow embedding of package [jsonapi] (drupal/jsonapi/jsonapi.go) and
    of the part of package [env] it calls (drupal/env/env.go), together with
    the pieces of the Go standard library the code relies on ([strings],
    [unicode/utf8], [net/url], [net/http], [encoding/json],
    [encoding/base64]), modelled as executable functions.

    Go strings are byte sequences: they are represented by [string], whose
    characters are the bytes.  The first part of the file holds the
    definitions, the second part the lemmas and theorems. *)

From Stdlib Require Import ZArith NArith List Ascii String Bool Lia.
From Stdlib Require Import Floats.SpecFloat.
From stdpp Require Import base option gmap strings list fin_maps.

Set Warnings "-register-all".
Set Default Proof Using "Type".
Local Open Scope string_scope.

(* ===================================================================== *)
(** * Part I: definitions                                                 *)
(* ===================================================================== *)

(** ** Bytes *)

Module Byte.

Definition code (c : ascii) : N := N_of_ascii c.
Definition of_code (n : N) : ascii := ascii_of_N (n mod 256).

(** [lo <= c <= hi] on byte values. *)
Definition between (lo hi : N) (c : ascii) : bool :=
  (lo <=? code c)%N && (code c <=? hi)%N.

Definition is_lower (c : ascii) : bool := between 97 122 c.
Definition is_upper (c : ascii) : bool := between 65 90 c.
Definition is_alpha (c : ascii) : bool := is_lower c || is_upper c.
Definition is_digit (c : ascii) : bool := between 48 57 c.
Definition is_hex (c : ascii) : bool :=
  is_digit c || between 97 102 c || between 65 70 c.

(** Value of a hexadecimal digit ([unhex] in net/url). *)
Definition unhex (c : ascii) : N :=
  if is_digit c then code c - 48
  else if between 97 102 c then code c - 97 + 10
  else if between 65 70 c then code c - 65 + 10
  else 0.

Definition to_lower (c : ascii) : ascii :=
  if is_upper c then of_code (code c + 32) else c.

Definition eqb (a b : ascii) : bool := Ascii.eqb a b.

(** The double quote, byte 34. *)
Definition dquote : ascii := "034"%char.

(** Membership of a byte in a set given as a string. *)
Fixpoint mem (c : ascii) (set : string) : bool :=
  match set with
  | EmptyString => false
  | String d set' => Ascii.eqb c d || mem c set'
  end.

End Byte.

(** ** Package unicode/utf8 *)

Module Utf8.

(** The replacement character U+FFFD. *)
Definition RuneError : N := 65533.

Definition is_cont (c : ascii) : bool := Byte.between 128 191 c.

(** [RuneStart]: the byte is not a continuation byte. *)
Definition RuneStart (c : ascii) : bool := negb (is_cont c).

Definition low6 (c : ascii) : N := N.land (Byte.code c) 63.

(** [DecodeRuneInString]: the first rune of [s] and its width in bytes.
    An empty string gives [(RuneError, 0)], an invalid or truncated
    encoding gives [(RuneError, 1)]. *)
Definition DecodeRuneInString (s : string) : N * nat :=
  match s with
  | EmptyString => (RuneError, 0)
  | String c0 s1 =>
    let b0 := Byte.code c0 in
    if (b0 <? 128)%N then (b0, 1)
    else if Byte.between 194 223 c0 then
      match s1 with
      | String c1 _ =>
        if is_cont c1
        then (N.lor (N.shiftl (N.land b0 31) 6) (low6 c1), 2)
        else (RuneError, 1)
      | _ => (RuneError, 1)
      end
    else if Byte.between 224 239 c0 then
      match s1 with
      | String c1 (String c2 _) =>
        let lo := if (b0 =? 224)%N then 160%N else 128%N in
        let hi := if (b0 =? 237)%N then 159%N else 191%N in
        if Byte.between lo hi c1 && is_cont c2
        then (N.lor (N.shiftl (N.land b0 15) 12)
                (N.lor (N.shiftl (low6 c1) 6) (low6 c2)), 3)
        else (RuneError, 1)
      | _ => (RuneError, 1)
      end
    else if Byte.between 240 244 c0 then
      match s1 with
      | String c1 (String c2 (String c3 _)) =>
        let lo := if (b0 =? 240)%N then 144%N else 128%N in
        let hi := if (b0 =? 244)%N then 143%N else 191%N in
        if Byte.between lo hi c1 && is_cont c2 && is_cont c3
        then (N.lor (N.shiftl (N.land b0 7) 18)
                (N.lor (N.shiftl (low6 c1) 12)
                   (N.lor (N.shiftl (low6 c2) 6) (low6 c3))), 4)
        else (RuneError, 1)
      | _ => (RuneError, 1)
      end
    else (RuneError, 1)
  end.

(** [EncodeRune] / [AppendRune]: surrogates and values above U+10FFFF
    are encoded as U+FFFD. *)
Definition EncodeRune (r : N) : string :=
  let r := if ((55296 <=? r) && (r <=? 57343) || (1114111 <? r))%N
           then RuneError else r in
  let cont (x : N) := Byte.of_code (N.lor 128 (N.land x 63)) in
  if (r <? 128)%N then String (Byte.of_code r) EmptyString
  else if (r <? 2048)%N then
    String (Byte.of_code (N.lor 192 (N.shiftr r 6)))
      (String (cont r) EmptyString)
  else if (r <? 65536)%N then
    String (Byte.of_code (N.lor 224 (N.shiftr r 12)))
      (String (cont (N.shiftr r 6)) (String (cont r) EmptyString))
  else
    String (Byte.of_code (N.lor 240 (N.shiftr r 18)))
      (String (cont (N.shiftr r 12))
         (String (cont (N.shiftr r 6)) (String (cont r) EmptyString))).

End Utf8.

(** ** Package strings *)

Module Strings.

Definition len (s : string) : nat := String.length s.

(** [s[:n]] and [s[n:]]. *)
Fixpoint take (n : nat) (s : string) : string :=
  match n, s with
  | S n', String c s' => String c (take n' s')
  | _, _ => EmptyString
  end.

Fixpoint drop (n : nat) (s : string) : string :=
  match n, s with
  | S n', String _ s' => drop n' s'
  | _, _ => s
  end.

Definition HasPrefix (s pre : string) : bool := String.prefix pre s.

Definition HasSuffix (s suf : string) : bool :=
  (len suf <=? len s)%nat && String.eqb (drop (len s - len suf) s) suf.

(** [Index]: position of the first occurrence of [sep] in [s]. *)
Fixpoint Index (s sep : string) : option nat :=
  if HasPrefix s sep then Some 0%nat
  else match s with
       | EmptyString => None
       | String _ s' => S <$> Index s' sep
       end.

Definition Contains (s sub : string) : bool :=
  match Index s sub with Some _ => true | None => false end.

Fixpoint IndexByte (s : string) (c : ascii) : option nat :=
  match s with
  | EmptyString => None
  | String d s' => if Ascii.eqb d c then Some 0%nat else S <$> IndexByte s' c
  end.

Fixpoint LastIndexByte_from (i : nat) (s : string) (c : ascii) (last : option nat)
  : option nat :=
  match s with
  | EmptyString => last
  | String d s' =>
    LastIndexByte_from (S i) s' c (if Ascii.eqb d c then Some i else last)
  end.

Definition LastIndexByte (s : string) (c : ascii) : option nat :=
  LastIndexByte_from 0 s c None.

Definition ContainsByte (s : string) (c : ascii) : bool :=
  match IndexByte s c with Some _ => true | None => false end.

Fixpoint CountByte (s : string) (c : ascii) : nat :=
  match s with
  | EmptyString => 0
  | String d s' => (if Ascii.eqb d c then 1 else 0) + CountByte s' c
  end.

(** [Join(elems, sep)]. *)
Fixpoint Join (elems : list string) (sep : string) : string :=
  match elems with
  | [] => EmptyString
  | [x] => x
  | x :: rest => x +:+ sep +:+ Join rest sep
  end.

(** [explode]: the string cut into its UTF-8 sequences (invalid bytes
    stand alone); what [Split] does for an empty separator. *)
Fixpoint explode (fuel : nat) (s : string) : list string :=
  match fuel, s with
  | S fuel', String _ _ =>
    let size := snd (Utf8.DecodeRuneInString s) in
    take size s :: explode fuel' (drop size s)
  | _, _ => []
  end.

(** The loop of [genSplit(s, sep, 0, -1)] for a non-empty separator: cut at
    each occurrence found by [Index], left to right.  Every round consumes
    at least one byte, so [len s] rounds are enough. *)
Fixpoint genSplit (fuel : nat) (s sep : string) : list string :=
  match Index s sep, fuel with
  | Some m, S fuel' => take m s :: genSplit fuel' (drop (m + len sep) s) sep
  | _, _ => [s]
  end.

Definition Split (s sep : string) : list string :=
  match sep with
  | EmptyString => explode (len s) s
  | _ => genSplit (len s) s sep
  end.

Fixpoint ToLower_ascii (s : string) : string :=
  match s with
  | EmptyString => EmptyString
  | String c s' => String (Byte.to_lower c) (ToLower_ascii s')
  end.

(** [unicode.IsSpace]. *)
Definition IsSpace (r : N) : bool :=
  ((9 <=? r) && (r <=? 13) || (r =? 32) || (r =? 133) || (r =? 160)
   || (r =? 5760) || (8192 <=? r) && (r <=? 8202) || (r =? 8232)
   || (r =? 8233) || (r =? 8239) || (r =? 8287) || (r =? 12288))%N.

(** [TrimLeftFunc(s, unicode.IsSpace)]. *)
Fixpoint TrimLeftSpace (fuel : nat) (s : string) : string :=
  match fuel, s with
  | S fuel', String _ _ =>
    let '(r, size) := Utf8.DecodeRuneInString s in
    if IsSpace r then TrimLeftSpace fuel' (drop size s) else s
  | _, _ => s
  end.

(** [utf8.DecodeLastRuneInString]. *)
Fixpoint rune_start_back (steps : nat) (start lim : nat) (s : string) : nat :=
  match steps with
  | O => start
  | S steps' =>
    if (start <? lim)%nat then start
    else match String.get start s with
         | Some c =>
           if Utf8.RuneStart c then start
           else match start with
                | O => O
                | S p => if (p <? lim)%nat then p
                         else rune_start_back steps' p lim s
                end
         | None => start
         end
  end.

Definition DecodeLastRuneInString (s : string) : N * nat :=
  let e := len s in
  match e with
  | O => (Utf8.RuneError, 0)
  | S last =>
    match String.get last s with
    | Some c =>
      if (Byte.code c <? 128)%N then (Byte.code c, 1)
      else
        let lim := e - 4 in
        let start :=
          match last with
          | O => O
          | S p => if (p <? lim)%nat then p else rune_start_back 4 p lim s
          end in
        let '(r, size) := Utf8.DecodeRuneInString (drop start s) in
        if (start + size =? e)%nat then (r, size) else (Utf8.RuneError, 1)
    | None => (Utf8.RuneError, 0)
    end
  end.

(** [TrimRightFunc(s, unicode.IsSpace)]. *)
Fixpoint TrimRightSpace (fuel : nat) (s : string) : string :=
  match fuel, s with
  | S fuel', String _ _ =>
    let '(r, size) := DecodeLastRuneInString s in
    if IsSpace r then TrimRightSpace fuel' (take (len s - size) s) else s
  | _, _ => s
  end.

(** [TrimSpace]: leading and trailing Unicode white space removed. *)
Definition TrimSpace (s : string) : string :=
  let l := TrimLeftSpace (len s) s in
  TrimRightSpace (len l) l.

End Strings.

(** ** Go run-time failures *)

Module Go.

(** The run-time panics the modelled code can raise. *)
Inductive panic :=
| IndexOutOfRange (index length : nat)
| NilDereference
| InterfaceConversion
| EnvMissing (name : string).

(** A pure computation that returns or panics. *)
Inductive result (A : Type) :=
| Ok (a : A)
| Panic (p : panic).
Arguments Ok {A} a.
Arguments Panic {A} p.

(** [l[i]] on a slice. *)
Definition index_at {A} (l : list A) (i : nat) : result A :=
  match l !! i with
  | Some x => Ok x
  | None => Panic (IndexOutOfRange i (length l))
  end.

End Go.

(** ** Package net/url: [Parse] and [URL.String] *)

Module Url.
Import Strings.

Inductive encoding :=
| encodePath | encodePathSegment | encodeHost | encodeZone
| encodeUserPassword | encodeQueryComponent | encodeFragment.

Definition is_host_mode (m : encoding) : bool :=
  match m with encodeHost | encodeZone => true | _ => false end.

Definition shouldEscape (c : ascii) (mode : encoding) : bool :=
  if Byte.is_alpha c || Byte.is_digit c then false
  else if is_host_mode mode
          && (Byte.mem c "!$&'()*+,;=:[]<>" || Byte.eqb c Byte.dquote) then false
  else if Byte.mem c "-_.~" then false
  else if Byte.mem c "$&+,/:;=?@" then
    match mode with
    | encodePath => Byte.eqb c "?"
    | encodePathSegment => Byte.mem c "/;,?"
    | encodeUserPassword => Byte.mem c "@/?:"
    | encodeQueryComponent => true
    | encodeFragment => false
    | _ => true
    end
  else if match mode with encodeFragment => Byte.mem c "!()*" | _ => false end
  then false
  else true.

Definition byte_of_hex (h1 h2 : ascii) : ascii :=
  Byte.of_code (N.lor (N.shiftl (Byte.unhex h1) 4) (Byte.unhex h2)).

(** [unescape]: [None] stands for the [EscapeError] / [InvalidHostError]. *)
Fixpoint unescape (s : string) (mode : encoding) : option string :=
  match s with
  | EmptyString => Some EmptyString
  | String c rest =>
    if Byte.eqb c "%" then
      match rest with
      | String h1 (String h2 rest') =>
        if negb (Byte.is_hex h1 && Byte.is_hex h2) then None
        else if match mode with encodeHost => true | _ => false end
                && (Byte.unhex h1 <? 8)%N
                && negb (Byte.eqb h1 "2" && Byte.eqb h2 "5") then None
        else if match mode with encodeZone => true | _ => false end
                && negb (Byte.eqb h1 "2" && Byte.eqb h2 "5")
                && negb (Byte.eqb (byte_of_hex h1 h2) " ")
                && shouldEscape (byte_of_hex h1 h2) encodeHost then None
        else String (byte_of_hex h1 h2) <$> unescape rest' mode
      | _ => None
      end
    else if is_host_mode mode && (Byte.code c <? 128)%N
            && shouldEscape c encodeHost then None
    else
      let d := if Byte.eqb c "+"
                  && match mode with encodeQueryComponent => true | _ => false end
               then " "%char else c in
      String d <$> unescape rest mode
  end.

Definition upperhex (n : N) : ascii :=
  if (n <? 10)%N then Byte.of_code (48 + n) else Byte.of_code (55 + n).

Fixpoint escape (s : string) (mode : encoding) : string :=
  match s with
  | EmptyString => EmptyString
  | String c rest =>
    if shouldEscape c mode then
      if Byte.eqb c " " && match mode with encodeQueryComponent => true | _ => false end
      then String "+" (escape rest mode)
      else String "%" (String (upperhex (N.shiftr (Byte.code c) 4))
             (String (upperhex (N.land (Byte.code c) 15)) (escape rest mode)))
    else String c (escape rest mode)
  end.

Fixpoint validEncoded (s : string) (mode : encoding) : bool :=
  match s with
  | EmptyString => true
  | String c rest =>
    (Byte.mem c "!$&'()*+,;=:@[]%" || negb (shouldEscape c mode))
    && validEncoded rest mode
  end.

Record Userinfo := {
  username : string;
  password : string;
  passwordSet : bool
}.

(** A parsed URL ([url.URL], Go 1.15 and later: with [RawFragment]). *)
Record URL := {
  Scheme : string;
  Opaque : string;
  User : option Userinfo;
  Host : string;
  Path : string;
  RawPath : string;
  ForceQuery : bool;
  RawQuery : string;
  Fragment : string;
  RawFragment : string
}.

Definition empty : URL :=
  {| Scheme := ""; Opaque := ""; User := None; Host := ""; Path := "";
     RawPath := ""; ForceQuery := false; RawQuery := ""; Fragment := "";
     RawFragment := "" |}.

Inductive error :=
| ControlCharacter
| MissingScheme
| ColonInFirstSegment
| InvalidPort
| MissingBracket
| InvalidUserinfo
| BadEscape.

Fixpoint stringContainsCTLByte (s : string) : bool :=
  match s with
  | EmptyString => false
  | String c rest =>
    (Byte.code c <? 32)%N || (Byte.code c =? 127)%N || stringContainsCTLByte rest
  end.

(** [split(s, sep, cutc)]. *)
Definition split (s : string) (sep : ascii) (cutc : bool) : string * string :=
  match IndexByte s sep with
  | None => (s, "")
  | Some i => (take i s, drop (if cutc then S i else i) s)
  end.

(** [getscheme]: [i] is the index of the first byte of [s] in [rawurl]. *)
Fixpoint getscheme_from (i : nat) (s rawurl : string) : error + string * string :=
  match s with
  | EmptyString => inr ("", rawurl)
  | String c rest =>
    if Byte.is_alpha c then getscheme_from (S i) rest rawurl
    else if Byte.is_digit c || Byte.mem c "+-." then
      match i with
      | O => inr ("", rawurl)
      | _ => getscheme_from (S i) rest rawurl
      end
    else if Byte.eqb c ":" then
      match i with
      | O => inl MissingScheme
      | _ => inr (take i rawurl, rest)
      end
    else inr ("", rawurl)
  end.

Definition getscheme (rawurl : string) : error + string * string :=
  getscheme_from 0 rawurl rawurl.

Fixpoint all_digits (s : string) : bool :=
  match s with
  | EmptyString => true
  | String c rest => Byte.is_digit c && all_digits rest
  end.

Definition validOptionalPort (port : string) : bool :=
  match port with
  | EmptyString => true
  | String c rest => Byte.eqb c ":" && all_digits rest
  end.

Fixpoint validUserinfo (s : string) : bool :=
  match s with
  | EmptyString => true
  | String c rest =>
    (Byte.is_alpha c || Byte.is_digit c || Byte.mem c "-._:~!$&'()*+,;=%@")
    && validUserinfo rest
  end.

Definition or_error {A} (e : error) (o : option A) : error + A :=
  match o with Some a => inr a | None => inl e end.

Definition parseHost (host : string) : error + string :=
  let plain := or_error BadEscape (unescape host encodeHost) in
  if HasPrefix host "[" then
    match LastIndexByte host "]" with
    | None => inl MissingBracket
    | Some i =>
      if negb (validOptionalPort (drop (S i) host)) then inl InvalidPort
      else
        match Index (take i host) "%25" with
        | Some zone =>
          match unescape (take zone host) encodeHost,
                unescape (drop zone (take i host)) encodeZone,
                unescape (drop i host) encodeHost with
          | Some h1, Some h2, Some h3 => inr (h1 +:+ h2 +:+ h3)
          | _, _, _ => inl BadEscape
          end
        | None => plain
        end
    end
  else
    match LastIndexByte host ":" with
    | Some i =>
      if negb (validOptionalPort (drop i host)) then inl InvalidPort else plain
    | None => plain
    end.

Definition parseAuthority (authority : string) : error + option Userinfo * string :=
  match LastIndexByte authority "@" with
  | None =>
    match parseHost authority with
    | inl e => inl e
    | inr host => inr (None, host)
    end
  | Some i =>
    match parseHost (drop (S i) authority) with
    | inl e => inl e
    | inr host =>
      let userinfo := take i authority in
      if negb (validUserinfo userinfo) then inl InvalidUserinfo
      else if negb (ContainsByte userinfo ":") then
        match unescape userinfo encodeUserPassword with
        | None => inl BadEscape
        | Some u =>
          inr (Some {| username := u; password := ""; passwordSet := false |}, host)
        end
      else
        let '(name, pass) := split userinfo ":" true in
        match unescape name encodeUserPassword, unescape pass encodeUserPassword with
        | Some u, Some p =>
          inr (Some {| username := u; password := p; passwordSet := true |}, host)
        | _, _ => inl BadEscape
        end
    end
  end.

(** [setPath] and [setFragment]: the raw form is kept only when it differs
    from the default encoding of the decoded form. *)
Definition raw_hint (decoded raw : string) (mode : encoding) : string :=
  if String.eqb raw (escape decoded mode) then "" else raw.

(** The query part of [parse]: the text up to the query, the [ForceQuery]
    flag and [RawQuery]. *)
Definition split_query (rest : string) : string * bool * string :=
  if HasSuffix rest "?" && (CountByte rest "?" =? 1)%nat
  then (take (len rest - 1) rest, true, "")
  else let '(r, q) := split rest "?" true in (r, false, q).

(** [parse] after the scheme and the query have been split off: the
    authority and the path ([viaRequest] is false). *)
Definition parse_hier (scheme rest : string) : error + URL :=
  let finish (user : option Userinfo) (host rest : string) : error + URL :=
    match unescape rest encodePath with
    | None => inl BadEscape
    | Some path =>
      inr {| Scheme := scheme; Opaque := ""; User := user; Host := host;
             Path := path; RawPath := raw_hint path rest encodePath;
             ForceQuery := false; RawQuery := ""; Fragment := "";
             RawFragment := "" |}
    end in
  if negb (HasPrefix rest "/") && negb (String.eqb scheme "") then
    inr {| Scheme := scheme; Opaque := rest; User := None; Host := "";
           Path := ""; RawPath := ""; ForceQuery := false; RawQuery := "";
           Fragment := ""; RawFragment := "" |}
  else if negb (HasPrefix rest "/")
          && match IndexByte rest ":", IndexByte rest "/" with
             | Some colon, Some slash => (colon <? slash)%nat
             | Some _, None => true
             | None, _ => false
             end
  then inl ColonInFirstSegment
  else if (negb (String.eqb scheme "") || negb (HasPrefix rest "///"))
          && HasPrefix rest "//" then
    let '(authority, rest') := split (drop 2 rest) "/" false in
    match parseAuthority authority with
    | inl e => inl e
    | inr (user, host) => finish user host rest'
    end
  else finish None "" rest.

Definition set_query (force : bool) (query : string) (u : URL) : URL :=
  {| Scheme := Scheme u; Opaque := Opaque u; User := User u; Host := Host u;
     Path := Path u; RawPath := RawPath u; ForceQuery := force;
     RawQuery := query; Fragment := Fragment u; RawFragment := RawFragment u |}.

Definition set_fragment (fragment raw : string) (u : URL) : URL :=
  {| Scheme := Scheme u; Opaque := Opaque u; User := User u; Host := Host u;
     Path := Path u; RawPath := RawPath u; ForceQuery := ForceQuery u;
     RawQuery := RawQuery u; Fragment := fragment; RawFragment := raw |}.

(** [parse] from the scheme on. *)
Definition parse_main (rawurl : string) : error + URL :=
  match getscheme rawurl with
  | inl e => inl e
  | inr (scheme, rest) =>
    let '(rest, force, query) := split_query rest in
    match parse_hier (ToLower_ascii scheme) rest with
    | inl e => inl e
    | inr u => inr (set_query force query u)
    end
  end.

(** [parse(rawurl, viaRequest = false)]. *)
Definition parse (rawurl : string) : error + URL :=
  if stringContainsCTLByte rawurl then inl ControlCharacter
  else if String.eqb rawurl "*" then
    inr {| Scheme := ""; Opaque := ""; User := None; Host := ""; Path := "*";
           RawPath := ""; ForceQuery := false; RawQuery := ""; Fragment := "";
           RawFragment := "" |}
  else parse_main rawurl.

(** [url.Parse]. *)
Definition Parse (rawurl : string) : error + URL :=
  let '(u, frag) := split rawurl "#" true in
  match parse u with
  | inl e => inl e
  | inr url =>
    if String.eqb frag "" then inr url
    else
      match unescape frag encodeFragment with
      | None => inl BadEscape
      | Some f => inr (set_fragment f (raw_hint f frag encodeFragment) url)
      end
  end.

(** [EscapedPath] and [EscapedFragment]. *)
Definition escaped (decoded raw : string) (mode : encoding) : string :=
  if negb (String.eqb raw "") && validEncoded raw mode
     && match unescape raw mode with
        | Some p => String.eqb p decoded
        | None => false
        end
  then raw
  else if match mode with encodePath => String.eqb decoded "*" | _ => false end
  then "*"
  else escape decoded mode.

Definition EscapedPath (u : URL) : string := escaped (Path u) (RawPath u) encodePath.
Definition EscapedFragment (u : URL) : string :=
  escaped (Fragment u) (RawFragment u) encodeFragment.

Definition Userinfo_String (ui : Userinfo) : string :=
  escape (username ui) encodeUserPassword
  +:+ (if passwordSet ui then ":" +:+ escape (password ui) encodeUserPassword else "").

Definition is_some {A} (o : option A) : bool :=
  match o with Some _ => true | None => false end.

(** The text [String] writes before the query: scheme, authority, path. *)
Definition String_hier (u : URL) : string :=
  let scheme := if String.eqb (Scheme u) "" then "" else Scheme u +:+ ":" in
  if negb (String.eqb (Opaque u) "") then scheme +:+ Opaque u
  else
    let auth :=
      if negb (String.eqb (Scheme u) "") || negb (String.eqb (Host u) "")
         || is_some (User u)
      then
        (if negb (String.eqb (Host u) "") || negb (String.eqb (Path u) "")
            || is_some (User u) then "//" else "")
        +:+ match User u with
            | Some ui => Userinfo_String ui +:+ "@"
            | None => ""
            end
        +:+ escape (Host u) encodeHost
      else "" in
    let path := EscapedPath u in
    let slash :=
      match path with
      | String c _ =>
        if negb (Byte.eqb c "/") && negb (String.eqb (Host u) "") then "/" else ""
      | EmptyString => ""
      end in
    let buf := scheme +:+ auth +:+ slash in
    let dot :=
      if String.eqb buf "" then
        match IndexByte path ":" with
        | Some i => if ContainsByte (take i path) "/" then "" else "./"
        | None => ""
        end
      else "" in
    buf +:+ dot +:+ path.

(** [URL.String]. *)
Definition String (u : URL) : string :=
  String_hier u
  +:+ (if ForceQuery u || negb (String.eqb (RawQuery u) "")
       then "?" +:+ RawQuery u else "")
  +:+ (if String.eqb (Fragment u) "" then "" else "#" +:+ EscapedFragment u).

End Url.

(** ** Package encoding/base64 *)

Module Base64.

Definition alphabet : string :=
  "ABCDEFGHIJKLMNOPQRSTUVWXYZabcdefghijklmnopqrstuvwxyz0123456789+/".

Definition digit (n : N) : ascii :=
  match String.get (N.to_nat (N.land n 63)) alphabet with
  | Some c => c
  | None => "="%char
  end.

(** [StdEncoding.EncodeToString]. *)
Fixpoint EncodeToString (s : string) : string :=
  match s with
  | EmptyString => EmptyString
  | String a EmptyString =>
    let v := N.shiftl (Byte.code a) 16 in
    String (digit (N.shiftr v 18)) (String (digit (N.shiftr v 12)) "==")
  | String a (String b EmptyString) =>
    let v := N.lor (N.shiftl (Byte.code a) 16) (N.shiftl (Byte.code b) 8) in
    String (digit (N.shiftr v 18))
      (String (digit (N.shiftr v 12)) (String (digit (N.shiftr v 6)) "="))
  | String a (String b (String c rest)) =>
    let v := N.lor (N.shiftl (Byte.code a) 16)
               (N.lor (N.shiftl (Byte.code b) 8) (Byte.code c)) in
    String (digit (N.shiftr v 18))
      (String (digit (N.shiftr v 12))
         (String (digit (N.shiftr v 6))
            (String (digit v) (EncodeToString rest))))
  end.

End Base64.

(** ** Package encoding/json *)

Module Json.
Import Strings.

(** *** JSON documents

    A number is kept as its token.  [Lit] is the text found in the input;
    [OfFloat f] stands for the text that [Marshal] writes for the float64
    [f], the shortest decimal that [strconv.ParseFloat] reads back as [f]. *)
Inductive number :=
| Lit (text : string)
| OfFloat (f : spec_float).

Inductive doc :=
| JNull
| JBool (b : bool)
| JNumber (n : number)
| JString (s : string)
| JArray (elems : list doc)
| JObject (members : list (string * doc)).

(** *** The scanner and the syntax tree *)

Definition is_ws (c : ascii) : bool :=
  let n := Byte.code c in ((n =? 32) || (n =? 9) || (n =? 10) || (n =? 13))%N.

Fixpoint skip_ws (s : string) : string :=
  match s with
  | String c r => if is_ws c then skip_ws r else s
  | EmptyString => s
  end.

Fixpoint digits_prefix (s : string) : string * string :=
  match s with
  | String c r =>
    if Byte.is_digit c then let '(d, r') := digits_prefix r in (String c d, r')
    else (EmptyString, s)
  | EmptyString => (EmptyString, EmptyString)
  end.

(** The parts of a number token:
    [-? int (. frac)? ([eE] [+-]? exp)?]. *)
Record numparts := {
  negative : bool;
  int_digits : string;
  frac_digits : string;
  has_frac : bool;
  exp_negative : bool;
  exp_digits : string;
  has_exp : bool
}.

Definition scan_number (s : string) : option (numparts * string) :=
  let '(neg, s0) := match s with
                    | String "-" r => (true, r)
                    | _ => (false, s)
                    end in
  let int_part :=
    match s0 with
    | String "0" r => Some ("0", r)
    | String c _ => if Byte.is_digit c then Some (digits_prefix s0) else None
    | EmptyString => None
    end in
  match int_part with
  | None => None
  | Some (int, s1) =>
    let frac_part :=
      match s1 with
      | String "." r =>
        match digits_prefix r with
        | (EmptyString, _) => None
        | (d, r') => Some (d, true, r')
        end
      | _ => Some ("", false, s1)
      end in
    match frac_part with
    | None => None
    | Some (frac, hf, s2) =>
      let exp_of (r : string) :=
        let '(eneg, r0) := match r with
                           | String "-" r' => (true, r')
                           | String "+" r' => (false, r')
                           | _ => (false, r)
                           end in
        match digits_prefix r0 with
        | (EmptyString, _) => None
        | (d, r') => Some (eneg, d, true, r')
        end in
      let exp_part :=
        match s2 with
        | String "e" r => exp_of r
        | String "E" r => exp_of r
        | _ => Some (false, "", false, s2)
        end in
      match exp_part with
      | None => None
      | Some (eneg, e, he, s3) =>
        Some ({| negative := neg; int_digits := int; frac_digits := frac;
                 has_frac := hf; exp_negative := eneg; exp_digits := e;
                 has_exp := he |}, s3)
      end
    end
  end.

Fixpoint hex_value (n : nat) (s : string) (acc : N) : option (N * string) :=
  match n with
  | O => Some (acc, s)
  | S n' =>
    match s with
    | String c r =>
      if Byte.is_hex c then hex_value n' r (acc * 16 + Byte.unhex c)%N else None
    | EmptyString => None
    end
  end.

(** [utf16.DecodeRune]. *)
Definition utf16_decode (r1 r2 : N) : N :=
  if ((55296 <=? r1) && (r1 <? 56320) && (56320 <=? r2) && (r2 <? 57344))%N
  then (N.lor (N.shiftl (r1 - 55296) 10) (r2 - 56320) + 65536)%N
  else Utf8.RuneError.

Definition simple_escape (e : ascii) : option ascii :=
  if Byte.eqb e Byte.dquote || Byte.mem e "\/" then Some e
  else if Byte.eqb e "b" then Some (Byte.of_code 8)
  else if Byte.eqb e "f" then Some (Byte.of_code 12)
  else if Byte.eqb e "n" then Some (Byte.of_code 10)
  else if Byte.eqb e "r" then Some (Byte.of_code 13)
  else if Byte.eqb e "t" then Some (Byte.of_code 9)
  else None.

(** A string token after its opening quote: the decoded content
    ([unquote]: escapes resolved, invalid UTF-8 replaced by U+FFFD) and the
    input after the closing quote. *)
Fixpoint string_body (fuel : nat) (s : string) : option (string * string) :=
  match fuel with
  | O => None
  | S fuel' =>
    let emit (pre : string) (rest : string) :=
      match string_body fuel' rest with
      | Some (body, r) => Some (pre +:+ body, r)
      | None => None
      end in
    match s with
    | EmptyString => None
    | String c r =>
      if Byte.eqb c Byte.dquote then Some (EmptyString, r)
      else if Byte.eqb c "\" then
        match r with
        | String e r1 =>
          if Byte.eqb e "u" then
            match hex_value 4 r1 0 with
            | None => None
            | Some (rr, r2) =>
              if ((55296 <=? rr) && (rr <? 57344))%N then
                let pair :=
                  match r2 with
                  | String "\" (String "u" r3) =>
                    match hex_value 4 r3 0 with
                    | Some (rr1, r4) =>
                      if (utf16_decode rr rr1 =? Utf8.RuneError)%N then None
                      else Some (utf16_decode rr rr1, r4)
                    | None => None
                    end
                  | _ => None
                  end in
                match pair with
                | Some (dec, r4) => emit (Utf8.EncodeRune dec) r4
                | None => emit (Utf8.EncodeRune Utf8.RuneError) r2
                end
              else emit (Utf8.EncodeRune rr) r2
            end
          else
            match simple_escape e with
            | Some d => emit (String d EmptyString) r1
            | None => None
            end
        | EmptyString => None
        end
      else if (Byte.code c <? 32)%N then None
      else if (Byte.code c <? 128)%N then emit (String c EmptyString) r
      else
        let '(rr, size) := Utf8.DecodeRuneInString s in
        emit (Utf8.EncodeRune rr) (drop size s)
    end
  end.

(** Recursive descent over the input.  Each call reads at least one byte
    before it descends two levels, so [2 * len s + 2] levels suffice. *)
Fixpoint scan_value (fuel : nat) (s : string) : option (doc * string) :=
  match fuel with
  | O => None
  | S fuel' =>
    match skip_ws s with
    | EmptyString => None
    | String c r as s0 =>
      if Byte.eqb c "{" then
        match skip_ws r with
        | String "}" r' => Some (JObject [], r')
        | r0 => scan_members fuel' r0 []
        end
      else if Byte.eqb c "[" then
        match skip_ws r with
        | String "]" r' => Some (JArray [], r')
        | r0 => scan_elements fuel' r0 []
        end
      else if Byte.eqb c Byte.dquote then
        match string_body (S (len r)) r with
        | Some (str, r') => Some (JString str, r')
        | None => None
        end
      else if Byte.eqb c "-" || Byte.is_digit c then
        match scan_number s0 with
        | Some (_, r') => Some (JNumber (Lit (take (len s0 - len r') s0)), r')
        | None => None
        end
      else if HasPrefix s0 "true" then Some (JBool true, drop 4 s0)
      else if HasPrefix s0 "false" then Some (JBool false, drop 5 s0)
      else if HasPrefix s0 "null" then Some (JNull, drop 4 s0)
      else None
    end
  end
with scan_elements (fuel : nat) (s : string) (acc : list doc) : option (doc * string) :=
  match fuel with
  | O => None
  | S fuel' =>
    match scan_value fuel' s with
    | None => None
    | Some (v, r) =>
      match skip_ws r with
      | String "," r' => scan_elements fuel' r' (v :: acc)
      | String "]" r' => Some (JArray (rev (v :: acc)), r')
      | _ => None
      end
    end
  end
with scan_members (fuel : nat) (s : string) (acc : list (string * doc))
  : option (doc * string) :=
  match fuel with
  | O => None
  | S fuel' =>
    match skip_ws s with
    | String c r =>
      if negb (Byte.eqb c Byte.dquote) then None else
      match string_body (S (len r)) r with
      | None => None
      | Some (key, r1) =>
        match skip_ws r1 with
        | String ":" r2 =>
          match scan_value fuel' r2 with
          | None => None
          | Some (v, r3) =>
            match skip_ws r3 with
            | String "," r' => scan_members fuel' r' ((key, v) :: acc)
            | String "}" r' => Some (JObject (rev ((key, v) :: acc)), r')
            | _ => None
            end
          end
        | _ => None
        end
      end
    | EmptyString => None
    end
  end.

(** The document held by a whole input ([checkValid]): one value, with
    white space around it and nothing else. *)
Definition parse (data : string) : option doc :=
  match scan_value (2 * len data + 2) data with
  | Some (j, rest) =>
    match skip_ws rest with
    | EmptyString => Some j
    | _ => None
    end
  | None => None
  end.

(** *** Numbers: [strconv.ParseFloat(s, 64)] on a number token *)

Fixpoint digits_value (s : string) (acc : Z) : Z :=
  match s with
  | EmptyString => acc
  | String c r => digits_value r (acc * 10 + Z.of_N (Byte.code c - 48))%Z
  end.

(** The binary64 nearest to [d * 10^k], ties to even; an infinity when the
    value is out of range. *)
Definition decimal_to_binary64 (neg : bool) (d k : Z) : spec_float :=
  match d with
  | Zpos p =>
    if (0 <=? k)%Z then binary_round 53 1024 neg (p * Z.to_pos (10 ^ k))%positive 0
    else
      let den := (10 ^ (- k))%Z in
      let s := Z.max 0 (Z.log2 den - Z.log2 d + 64)%Z in
      let num := (d * 2 ^ s)%Z in
      let q := (num / den)%Z in
      let r := (num mod den)%Z in
      let loc := if (r =? 0)%Z then loc_Exact
                 else loc_Inexact (Z.compare (2 * r) den) in
      binary_round_aux 53 1024 neg q (- s) loc
  | _ => S754_zero neg
  end.

Definition float_of_parts (p : numparts) : spec_float :=
  let d := digits_value (int_digits p +:+ frac_digits p) 0 in
  let e := digits_value (exp_digits p) 0 in
  let k := ((if exp_negative p then - e else e) - Z.of_nat (len (frac_digits p)))%Z in
  decimal_to_binary64 (negative p) d k.

Definition is_finite (f : spec_float) : bool :=
  match f with
  | S754_zero _ | S754_finite _ _ _ => true
  | _ => false
  end.

(** The float64 of a number token; [None] when [ParseFloat] reports that
    the value is out of range. *)
Definition float_of (n : number) : option spec_float :=
  match n with
  | OfFloat f => if is_finite f then Some f else None
  | Lit text =>
    match scan_number text with
    | Some (p, EmptyString) =>
      let f := float_of_parts p in if is_finite f then Some f else None
    | _ => None
    end
  end.

(** *** Go values

    One type holds the values the decoder stores: [Nil] is the nil
    interface, slice or map; a struct lists its fields under their JSON
    names. *)
Inductive value :=
| Nil
| Bool (b : bool)
| Float64 (f : spec_float)
| Str (s : string)
| Slice (elems : list value)
| Map (m : gmap string value)
| Struct (fields : list (string * value)).

(** The types of the targets: bool, string, float64, interface{}, []T,
    map[string]T and structs, a struct being given by the JSON names and
    types of its fields in order. *)
Inductive gotype :=
| TBool
| TString
| TFloat64
| TInterface
| TSlice (elem : gotype)
| TMap (elem : gotype)
| TStruct (fields : list (string * gotype)).

Fixpoint zero (ty : gotype) : value :=
  match ty with
  | TBool => Bool false
  | TString => Str ""
  | TFloat64 => Float64 (S754_zero false)
  | TInterface | TSlice _ | TMap _ => Nil
  | TStruct fs => Struct (map (fun f => (f.1, zero f.2)) fs)
  end.

Inductive jkind := KBool | KNumber (n : number) | KString | KArray | KObject.

Inductive error :=
| SyntaxError
| InvalidUnmarshalError
| UnmarshalTypeError (what : jkind) (into : gotype)
| UnsupportedValueError
| MissingDataKey
| UnknownDataType.

(** *** Decoding into interface{} ([valueInterface]) *)

(** The members of an object gathered in a map, each value decoded by
    [dec]: the last of several members of one name wins. *)
Definition collect (dec : doc -> value) (ms : list (string * doc))
  : gmap string value :=
  list_to_map (reverse (map (fun kv => (kv.1, dec kv.2)) ms)).

Fixpoint to_any (j : doc) : value :=
  match j with
  | JNull => Nil
  | JBool b => Bool b
  | JNumber n => match float_of n with Some f => Float64 f | None => Nil end
  | JString s => Str s
  | JArray l => Slice (map to_any l)
  | JObject ms => Map (collect to_any ms)
  end.

(** The field map of an object, as [map[string]interface{}]. *)
Definition fields_of (ms : list (string * doc)) : gmap string value :=
  collect to_any ms.

(** The value of the member [key] of an object: the last one of that name. *)
Fixpoint member (key : string) (ms : list (string * doc)) : option doc :=
  match ms with
  | [] => None
  | kv :: ms' =>
    match member key ms' with
    | Some v => Some v
    | None => if String.eqb kv.1 key then Some kv.2 else None
    end
  end.

(** The errors saved on the way, in document order. *)
Fixpoint any_errors (j : doc) : list error :=
  match j with
  | JNumber n =>
    match float_of n with Some _ => [] | None => [UnmarshalTypeError (KNumber n) TFloat64] end
  | JArray l => concat (map any_errors l)
  | JObject ms => concat (map (fun kv => any_errors kv.2) ms)
  | _ => []
  end.

(** *** Decoding into a typed target ([d.value]) *)

Definition equalFold (a b : string) : bool :=
  String.eqb (ToLower_ascii a) (ToLower_ascii b).

Fixpoint index_where {A} (p : A -> bool) (l : list A) : option nat :=
  match l with
  | [] => None
  | x :: l' => if p x then Some 0%nat else S <$> index_where p l'
  end.

(** The field a member name selects: an exact match first, else the first
    field that matches when letter case is ignored. *)
Definition find_field {A} (fs : list (string * A)) (key : string) : option nat :=
  match index_where (fun f => String.eqb f.1 key) fs with
  | Some i => Some i
  | None => index_where (fun f => equalFold f.1 key) fs
  end.

Definition slice_elems (v : value) : list value :=
  match v with Slice l => l | _ => [] end.

Definition map_of (v : value) : gmap string value :=
  match v with Map m => m | _ => ∅ end.

Definition struct_fields (fs : list (string * gotype)) (v : value)
  : list (string * value) :=
  match v with
  | Struct vs => if (length vs =? length fs)%nat then vs else map (fun f => (f.1, zero f.2)) fs
  | _ => map (fun f => (f.1, zero f.2)) fs
  end.

(** The loop of [d.array] on a slice: element [i] of the array is decoded
    into element [i] of the slice when the slice has one (its capacity is
    taken to be its length), into a zero value otherwise. *)
Fixpoint decode_elems (dec : doc -> value -> value) (z : value)
    (l : list doc) (olds : list value) : list value :=
  match l with
  | [] => []
  | x :: l' =>
    dec x (match olds with o :: _ => o | [] => z end) :: decode_elems dec z l' (tl olds)
  end.

(** One member of an object decoded into a map: the element is decoded
    into a fresh zero value and stored under the name. *)
Definition map_step (dec : doc -> value) (m : gmap string value)
    (kv : string * doc) : gmap string value :=
  <[kv.1 := dec kv.2]> m.

(** One member of an object decoded into a struct: into the field that the
    name selects, on top of what the field holds; a name that selects no
    field is skipped. *)
Definition struct_step (fs : list (string * gotype))
    (dec : gotype -> doc -> value -> value)
    (vs : list (string * value)) (kv : string * doc) : list (string * value) :=
  match find_field fs kv.1 with
  | Some i =>
    match fs !! i, vs !! i with
    | Some f, Some old => <[i := (f.1, dec f.2 kv.2 old.2)]> vs
    | _, _ => vs
    end
  | None => vs
  end.

Fixpoint decode (ty : gotype) (j : doc) (cur : value) {struct j} : value :=
  match j with
  | JNull =>
    match ty with
    | TInterface | TSlice _ | TMap _ => Nil
    | _ => cur
    end
  | JBool b =>
    match ty with
    | TBool | TInterface => Bool b
    | _ => cur
    end
  | JString s =>
    match ty with
    | TString | TInterface => Str s
    | _ => cur
    end
  | JNumber n =>
    match ty with
    | TFloat64 | TInterface =>
      match float_of n with Some f => Float64 f | None => cur end
    | _ => cur
    end
  | JArray l =>
    match ty with
    | TInterface => Slice (map to_any l)
    | TSlice e =>
      Slice (decode_elems (decode e) (zero e) l (slice_elems cur))
    | _ => cur
    end
  | JObject ms =>
    match ty with
    | TInterface => Map (fields_of ms)
    | TMap e =>
      Map (fold_left (map_step (fun x => decode e x (zero e))) ms (map_of cur))
    | TStruct fs =>
      Struct (fold_left (struct_step fs (fun t x old => decode t x old)) ms
                (struct_fields fs cur))
    | _ => cur
    end
  end.

(** The [UnmarshalTypeError]s saved on the way, in document order; they
    depend on the type and the document only. *)
Fixpoint decode_errors (ty : gotype) (j : doc) {struct j} : list error :=
  match j with
  | JNull => []
  | JBool _ =>
    match ty with
    | TBool | TInterface => []
    | _ => [UnmarshalTypeError KBool ty]
    end
  | JString _ =>
    match ty with
    | TString | TInterface => []
    | _ => [UnmarshalTypeError KString ty]
    end
  | JNumber n =>
    match ty with
    | TFloat64 | TInterface =>
      match float_of n with
      | Some _ => []
      | None => [UnmarshalTypeError (KNumber n) TFloat64]
      end
    | _ => [UnmarshalTypeError (KNumber n) ty]
    end
  | JArray l =>
    match ty with
    | TInterface => concat (map any_errors l)
    | TSlice e => concat (map (decode_errors e) l)
    | _ => [UnmarshalTypeError KArray ty]
    end
  | JObject ms =>
    match ty with
    | TInterface => concat (map (fun kv => any_errors kv.2) ms)
    | TMap e => concat (map (fun kv => decode_errors e kv.2) ms)
    | TStruct fs =>
      concat (map (fun kv =>
                     match find_field fs kv.1 with
                     | Some i =>
                       match fs !! i with
                       | Some f => decode_errors f.2 kv.2
                       | None => []
                       end
                     | None => []
                     end) ms)
    | _ => [UnmarshalTypeError KObject ty]
    end
  end.

(** [json.Unmarshal(data, &v)] for [v] of type [ty] holding [cur]: the
    value stored and the error returned (the first one saved).  Invalid
    input leaves the target untouched. *)
Definition Unmarshal (data : string) (ty : gotype) (cur : value)
  : value * option error :=
  match parse data with
  | None => (cur, Some SyntaxError)
  | Some j => (decode ty j cur, head (decode_errors ty j))
  end.

(** *** Encoding ([json.Marshal]), as the document that the output holds *)

(** Invalid UTF-8 is written as U+FFFD. *)
Fixpoint sanitize (fuel : nat) (s : string) : string :=
  match fuel, s with
  | S fuel', String _ _ =>
    let '(r, size) := Utf8.DecodeRuneInString s in
    (if (r =? Utf8.RuneError)%N && (size =? 1)%nat
     then Utf8.EncodeRune Utf8.RuneError else take size s)
    +:+ sanitize fuel' (drop size s)
  | _, _ => EmptyString
  end.

Definition valid_utf8 (s : string) : string := sanitize (len s) s.

(** Members are written in the byte order of their names. *)
Fixpoint insert_sorted (kv : string * doc) (l : list (string * doc))
  : list (string * doc) :=
  match l with
  | [] => [kv]
  | kv' :: l' =>
    if String.leb kv.1 kv'.1 then kv :: l else kv' :: insert_sorted kv l'
  end.

(** [None] is the [UnsupportedValueError] for a NaN or an infinity. *)
Fixpoint marshal (v : value) : option doc :=
  match v with
  | Nil => Some JNull
  | Bool b => Some (JBool b)
  | Float64 f => if is_finite f then Some (JNumber (OfFloat f)) else None
  | Str s => Some (JString (valid_utf8 s))
  | Slice l => JArray <$> mapM marshal l
  | Map m =>
    JObject <$>
      map_fold (fun k x acc =>
                  match acc, marshal x with
                  | Some l, Some d => Some (insert_sorted (valid_utf8 k, d) l)
                  | _, _ => None
                  end) (Some []) m
  | Struct fs =>
    JObject <$> mapM (fun kv => match marshal kv.2 with
                                | Some d => Some (kv.1, d)
                                | None => None
                                end) fs
  end.

(** The document that [Marshal] writes for what [j] decodes to in an
    interface{}. *)
Definition normal (j : doc) : doc :=
  match marshal (to_any j) with
  | Some d => d
  | None => JNull
  end.

(** Documents that decoding into interface{} and writing back only
    reorders: the strings are valid UTF-8, and the member names of one
    object differ by more than the case of their letters. *)
Fixpoint canonical (j : doc) : bool :=
  match j with
  | JString s => bool_decide (valid_utf8 s = s)
  | JArray l => forallb canonical l
  | JObject ms =>
    bool_decide (NoDup (map (fun kv => ToLower_ascii kv.1) ms))
    && forallb (fun kv => bool_decide (valid_utf8 kv.1 = kv.1) && canonical kv.2) ms
  | _ => true
  end.

End Json.

(** ** Package strconv: ParseBool and Atoi, as package env calls them

    The sizes are those of a 64-bit platform: [int] is [int64]. *)

Module Strconv.
Import Strings.
Local Open Scope Z_scope.

Inductive Err := ErrSyntax | ErrRange.

(** A [*NumError]: the function, the text it was given and the cause. *)
Record NumError := { Func : string; Num : string; Cause : Err }.

Definition syntaxError (fn str : string) : NumError :=
  {| Func := fn; Num := str; Cause := ErrSyntax |}.

Definition rangeError (fn str : string) : NumError :=
  {| Func := fn; Num := str; Cause := ErrRange |}.

(** [ParseBool]. *)
Definition ParseBool (str : string) : bool * option NumError :=
  if existsb (String.eqb str) ["1"; "t"; "T"; "true"; "TRUE"; "True"]
  then (true, None)
  else if existsb (String.eqb str) ["0"; "f"; "F"; "false"; "FALSE"; "False"]
  then (false, None)
  else (false, Some (syntaxError "ParseBool" str)).

Definition maxUint64 : Z := 2 ^ 64 - 1.

(** Conversion to [uint64] and to [int64]: the value modulo 2^64. *)
Definition uint64 (z : Z) : Z := z mod 2 ^ 64.
Definition int64 (z : Z) : Z := (z + 2 ^ 63) mod 2 ^ 64 - 2 ^ 63.

(** [lower(c)]: [c | ('x' - 'X')]. *)
Definition lower (c : Z) : Z := Z.lor c 32.

(** The digit a byte stands for in [ParseUint]: a decimal digit, or a letter
    for the digits from ten on (the underscore counts for base 0 only). *)
Definition digit_of (c : ascii) : option Z :=
  let b := Z.of_N (Byte.code c) in
  if (48 <=? b) && (b <=? 57) then Some (b - 48)
  else if (97 <=? lower b) && (lower b <=? 122) then Some (lower b - 97 + 10)
  else None.

(** The loop of [ParseUint(s, 10, 64)], [n] being the value so far: the
    value, and the cause of the error if there is one. *)
Fixpoint ParseUint_loop (s : string) (n : Z) : Z * option Err :=
  match s with
  | EmptyString => (n, None)
  | String c s' =>
    match digit_of c with
    | None => (0, Some ErrSyntax)
    | Some d =>
      if 10 <=? d then (0, Some ErrSyntax)
      else if maxUint64 / 10 + 1 <=? n then (maxUint64, Some ErrRange)
      else
        let n := uint64 (n * 10) in
        let n1 := uint64 (n + d) in
        if (n1 <? n) || (maxUint64 <? n1) then (maxUint64, Some ErrRange)
        else ParseUint_loop s' n1
    end
  end.

(** [ParseUint(s, 10, 0)]. *)
Definition ParseUint (s : string) : Z * option NumError :=
  match s with
  | EmptyString => (0, Some (syntaxError "ParseUint" s))
  | _ =>
    match ParseUint_loop s 0 with
    | (n, None) => (n, None)
    | (n, Some ErrSyntax) => (n, Some (syntaxError "ParseUint" s))
    | (n, Some ErrRange) => (n, Some (rangeError "ParseUint" s))
    end
  end.

(** [ParseInt(s, 10, 0)]. *)
Definition ParseInt (s : string) : Z * option NumError :=
  match s with
  | EmptyString => (0, Some (syntaxError "ParseInt" s))
  | String c0 rest =>
    let neg := Ascii.eqb c0 "-" in
    let body := if Ascii.eqb c0 "+" || Ascii.eqb c0 "-" then rest else s in
    let (un, err) := ParseUint body in
    match err with
    | Some {| Cause := ErrSyntax |} => (0, Some (syntaxError "ParseInt" s))
    | _ =>
      let cutoff := 2 ^ 63 in
      if negb neg && (cutoff <=? un) then (cutoff - 1, Some (rangeError "ParseInt" s))
      else if neg && (cutoff <? un) then (- cutoff, Some (rangeError "ParseInt" s))
      else
        let n := int64 un in
        (if neg then int64 (- n) else n, None)
    end
  end.

(** The loop of the fast path of [Atoi]: [None] for a byte that is no
    digit. *)
Fixpoint Atoi_loop (s : string) (n : Z) : option Z :=
  match s with
  | EmptyString => Some n
  | String c s' =>
    let ch := (Z.of_N (Byte.code c) - 48) mod 256 in
    if 9 <? ch then None else Atoi_loop s' (int64 (n * 10 + ch))
  end.

(** [Atoi]: the fast path for texts of fewer than 19 bytes, [ParseInt]
    for the others. *)
Definition Atoi (s : string) : Z * option NumError :=
  if ((0 <? len s) && (len s <? 19))%nat then
    match s with
    | EmptyString => (0, Some (syntaxError "Atoi" s))
    | String c0 rest =>
      let signed := Ascii.eqb c0 "-" || Ascii.eqb c0 "+" in
      let body := if signed then rest else s in
      if signed && (len body <? 1)%nat then (0, Some (syntaxError "Atoi" s))
      else
        match Atoi_loop body 0 with
        | None => (0, Some (syntaxError "Atoi" s))
        | Some n => (if Ascii.eqb c0 "-" then int64 (- n) else n, None)
        end
    end
  else
    match ParseInt s with
    | (i64, Some nerr) =>
      (i64, Some {| Func := "Atoi"; Num := Num nerr; Cause := Cause nerr |})
    | (i64, None) => (i64, None)
    end.

(** For the statements: a text of decimal digits and the number it
    denotes on top of [acc]. *)
Fixpoint all_digits (s : string) : bool :=
  match s with
  | EmptyString => true
  | String c s' => Byte.is_digit c && all_digits s'
  end.

Fixpoint decimal_from (acc : Z) (s : string) : Z :=
  match s with
  | EmptyString => acc
  | String c s' => decimal_from (acc * 10 + (Z.of_N (Byte.code c) - 48)) s'
  end.

Definition decimal (s : string) : Z := decimal_from 0 s.

End Strconv.

(** ** Package env (drupal/env/env.go) *)

Module Env.

Definition drupalBaseUrl : string := "DRUPAL_BASE_URL".

(** [getEnv]: the value of the variable and whether it is set
    ([os.LookupEnv]); panics when a required variable is missing. *)
Definition getEnv (environ : gmap string string) (envVar : string) (require : bool)
  : Go.result (string * bool) :=
  match environ !! envVar with
  | Some val => Go.Ok (val, true)
  | None =>
    if require then Go.Panic (Go.EnvMissing envVar) else Go.Ok ("", false)
  end.

Definition GetEnvOr (environ : gmap string string) (envVar defValue : string)
  : Go.result string :=
  match getEnv environ envVar false with
  | Go.Ok (val, true) => Go.Ok val
  | Go.Ok (_, false) => Go.Ok defValue
  | Go.Panic p => Go.Panic p
  end.

Definition BaseUrlOr (environ : gmap string string) (defaultValue : string)
  : Go.result string :=
  GetEnvOr environ drupalBaseUrl defaultValue.

Definition testBasedir : string := "DRUPAL_TEST_BASEDIR".
Definition assetsBaseUrl : string := "BASE_ASSETS_URL".

(** [requireEnv]: the value of the variable, or the panic of [getEnv]. *)
Definition requireEnv (environ : gmap string string) (envVar : string)
  : Go.result string :=
  match getEnv environ envVar true with
  | Go.Ok (val, _) => Go.Ok val
  | Go.Panic p => Go.Panic p
  end.

Definition BaseUrl (environ : gmap string string) : Go.result string :=
  requireEnv environ drupalBaseUrl.

Definition TestBasedir (environ : gmap string string) : Go.result string :=
  requireEnv environ testBasedir.

Definition TestBasedirOr (environ : gmap string string) (defaultValue : string)
  : Go.result string :=
  GetEnvOr environ testBasedir defaultValue.

Definition AssetsBaseUrl (environ : gmap string string) : Go.result string :=
  requireEnv environ assetsBaseUrl.

Definition AssetsBaseUrlOr (environ : gmap string string) (defaultValue : string)
  : Go.result string :=
  GetEnvOr environ assetsBaseUrl defaultValue.

(** How [GetEnvOrInt] and [GetEnvOrBool] end: with a value, with the panic
    of [getEnv], or with the panic that wraps the error of the
    conversion. *)
Inductive converted (A : Type) :=
| Converted (a : A)
| Panicked (p : Go.panic)
| Malformed (envVar : string) (err : Strconv.NumError).
Arguments Converted {A} a.
Arguments Panicked {A} p.
Arguments Malformed {A} envVar err.

Definition GetEnvOrInt (environ : gmap string string) (envVar : string)
    (defValue : Z) : converted Z :=
  match getEnv environ envVar false with
  | Go.Ok (val, true) =>
    match Strconv.Atoi val with
    | (_, Some err) => Malformed envVar err
    | (intval, None) => Converted intval
    end
  | Go.Ok (_, false) => Converted defValue
  | Go.Panic p => Panicked p
  end.

Definition GetEnvOrBool (environ : gmap string string) (envVar : string)
    (defValue : bool) : converted bool :=
  match getEnv environ envVar false with
  | Go.Ok (val, true) =>
    match Strconv.ParseBool val with
    | (_, Some err) => Malformed envVar err
    | (boolval, None) => Converted boolval
    end
  | Go.Ok (_, false) => Converted defValue
  | Go.Panic p => Panicked p
  end.

End Env.

(** ** Package fs (fs.go): the pure part *)

Module Fs.
Import Strings.

Definition PathSeparator : string := "/".

(** [pathContains]: some element of the path is one of the candidates. *)
Definition pathContains (path : string) (candidates : list string) : bool :=
  existsb (fun pathelement =>
             existsb (fun candidate => String.eqb pathelement candidate) candidates)
    (Split path PathSeparator).

End Fs.

(** ** Package net/http: requests and responses *)

Module Http.
Import Strings.

Record Request := {
  Method : string;
  URL : Url.URL;
  Host : string;
  Header : gmap string (list string)
}.

(** A response as the client code reads it: the status, the bytes that
    [ioutil.ReadAll] delivers and whether reading ended in an error. *)
Record Response := {
  StatusCode : Z;
  Body : string;
  BodyError : bool
}.

Definition position (o : option nat) : Z :=
  match o with Some i => Z.of_nat i | None => (-1)%Z end.

Definition hasPort (s : string) : bool :=
  (position (LastIndexByte s "]") <? position (LastIndexByte s ":"))%Z.

Definition removeEmptyPort (host : string) : string :=
  if hasPort host && HasSuffix host ":" then take (len host - 1) host else host.

(** [http.NewRequest(method, url, nil)] for a valid method. *)
Definition NewRequest (method url : string) : Url.error + Request :=
  match Url.Parse url with
  | inl e => inl e
  | inr u =>
    let host := removeEmptyPort (Url.Host u) in
    inr {| Method := method;
           URL := {| Url.Scheme := Url.Scheme u; Url.Opaque := Url.Opaque u;
                     Url.User := Url.User u; Url.Host := host;
                     Url.Path := Url.Path u; Url.RawPath := Url.RawPath u;
                     Url.ForceQuery := Url.ForceQuery u;
                     Url.RawQuery := Url.RawQuery u;
                     Url.Fragment := Url.Fragment u;
                     Url.RawFragment := Url.RawFragment u |};
           Host := host;
           Header := ∅ |}
  end.

Definition basicAuth (username password : string) : string :=
  Base64.EncodeToString (username +:+ ":" +:+ password).

(** [Request.SetBasicAuth]: [Header.Set] replaces the values of the key. *)
Definition SetBasicAuth (r : Request) (username password : string) : Request :=
  {| Method := Method r; URL := URL r; Host := Host r;
     Header := <["Authorization" := ["Basic " +:+ basicAuth username password]]>
                 (Header r) |}.

End Http.

(** ** The test state and the effects of a call *)

(** The [error] values the client code handles. *)
Inductive error :=
| UrlError (e : Url.error)
| TransportError (msg : string)
| ReadError
| JsonError (e : Json.error).

(** A failed assertion, as testify reports it through [t.Errorf]: the test
    is marked as failed and the call goes on. *)
Inductive Failure :=
| BaseUrlEmpty
| DrupalEntityEmpty
| DrupalBundleEmpty
| UrlGenerationError (e : Url.error)
| RequestError (url : string) (msg : string)
| UnexpectedStatus (status : Z) (url : string)
| BodyReadError (url : string)
| UnmarshalFailure (e : Json.error)
| DataCount (found : nat).

(** Lines of the standard logger. *)
Inductive LogLine :=
| Retrieving (url : string)
| RetrievingWithAuth (url : string)
| UnableToMarshal.

Record World := {
  (** the process environment *)
  environ : gmap string string;
  (** what [httpClient.Do] answers to a request *)
  server : Http.Request -> Http.Response + string;
  (** the [*testing.T] of the test: failed or not, and the failures reported *)
  failed : bool;
  failures : list Failure;
  (** the output of the standard logger *)
  logged : list LogLine;
  (** the requests handed to [httpClient.Do], oldest first *)
  requests : list Http.Request
}.

(** How a call ends: it returns, it panics, or the process exits
    ([log.Fatalf]). *)
Inductive outcome (A : Type) :=
| Returns (a : A) (w : World)
| Panics (p : Go.panic) (w : World)
| Exits (status : Z) (w : World).
Arguments Returns {A} a w.
Arguments Panics {A} p w.
Arguments Exits {A} status w.

Definition M (A : Type) : Type := World -> outcome A.

#[global] Instance M_ret : MRet M := fun A a w => Returns a w.

#[global] Instance M_bind : MBind M := fun A B f m w =>
  match m w with
  | Returns a w' => f a w'
  | Panics p w' => Panics p w'
  | Exits s w' => Exits s w'
  end.

Module Run.

Definition lift {A} (r : Go.result A) : M A := fun w =>
  match r with
  | Go.Ok a => Returns a w
  | Go.Panic p => Panics p w
  end.

Definition panic {A} (p : Go.panic) : M A := fun w => Panics p w.

Definition getenv : M (gmap string string) := fun w => Returns (environ w) w.

(** [t.Errorf]: record the failure and mark the test as failed. *)
Definition fail (f : Failure) : M unit := fun w =>
  Returns tt {| environ := environ w; server := server w; failed := true;
                failures := failures w ++ [f]; logged := logged w;
                requests := requests w |}.

Definition printf (l : LogLine) : M unit := fun w =>
  Returns tt {| environ := environ w; server := server w; failed := failed w;
                failures := failures w; logged := logged w ++ [l];
                requests := requests w |}.

(** [log.Fatalf]: print, then [os.Exit(1)]. *)
Definition fatalf {A} (l : LogLine) : M A := fun w =>
  Exits 1 {| environ := environ w; server := server w; failed := failed w;
             failures := failures w; logged := logged w ++ [l];
             requests := requests w |}.

(** [httpClient.Do(req)]. *)
Definition do (req : Http.Request) : M (Http.Response + string) := fun w =>
  Returns (server w req)
    {| environ := environ w; server := server w; failed := failed w;
       failures := failures w; logged := logged w;
       requests := requests w ++ [req] |}.

(** The testify assertions the code uses; each returns whether it held. *)
Definition assert_that (holds : bool) (f : Failure) : M bool :=
  if holds then mret true else (fail f ;; mret false).


Definition assert_Nil {E} (err : option E) (f : E -> Failure) : M bool :=
  match err with
  | None => mret true
  | Some e => fail (f e) ;; mret false
  end.

(** The runtime ends the process when a goroutine outgrows its stack
    (fatal error: stack overflow, exit status 2): nothing is reported to
    the test and nothing is logged through the standard logger. *)
Definition stack_overflow {A} : M A := fun w => Exits 2 w.

(** [fmt.Sprintf] of the message of an assertion, with a [fmt.Stringer]
    among its arguments: the [String()] method of the argument is called,
    and fmt recovers from a panic of the method.  The text is not kept. *)
Definition formatted (stringer : M string) : M unit := fun w =>
  match stringer w with
  | Returns _ w' => Returns tt w'
  | Panics _ w' => Returns tt w'
  | Exits s w' => Exits s w'
  end.

(** [assert.NotEmpty] and [assert.Nil] with a message to format: when the
    assertion fails, testify formats the message first and reports through
    [t.Errorf] then. *)
Definition assert_NotEmpty_with (message : M unit) (s : string) (f : Failure)
  : M bool :=
  if negb (String.eqb s "") then mret true
  else (message ;; fail f ;; mret false).

Definition assert_Nil_with {E} (message : M unit) (err : option E)
    (f : E -> Failure) : M bool :=
  match err with
  | None => mret true
  | Some e => message ;; fail (f e) ;; mret false
  end.

(** What a call returned, if it returned; the world it left. *)
Definition value_of {A} (o : outcome A) : option A :=
  match o with Returns a _ => Some a | _ => None end.

Definition world_of {A} (o : outcome A) : World :=
  match o with Returns _ w | Panics _ w | Exits _ w => w end.

End Run.

(** ** Package jsonapi (drupal/jsonapi/jsonapi.go) *)

Module Jsonapi.
Import Strings Run.

(** *** DrupalType *)

Definition DrupalType : Type := string.

Definition Entity (t : DrupalType) : Go.result string :=
  Go.index_at (Split t "--") 0.

Definition Bundle (t : DrupalType) : Go.result string :=
  Go.index_at (Split t "--") 1.

(** *** JsonApiUrl

    The field [T] is the [*testing.T] of the test; it is the test state of
    the [World]. *)
Record JsonApiUrl := {
  BaseUrl : string;
  DrupalEntity : string;
  DrupalBundle : string;
  Filter : string;
  Value : string;
  RawFilter : string;
  Username : string;
  Password : string
}.

(** *** JsonApiResponse

    [Data] is a slice of maps: [None] is the nil slice of a fresh
    [JsonApiResponse{}]. *)
Record JsonApiResponse := {
  Data : option (list (gmap string Json.value))
}.

Definition len_Data (jar : JsonApiResponse) : nat :=
  match Data jar with Some l => length l | None => 0 end.

(** The loop [jar.Data[i] = v.(map[string]interface{})]: the type assertion
    panics on an element that is no map. *)
Fixpoint assert_maps (l : list Json.value) : Go.result (list (gmap string Json.value)) :=
  match l with
  | [] => Go.Ok []
  | Json.Map m :: l' =>
    match assert_maps l' with
    | Go.Ok ms => Go.Ok (m :: ms)
    | Go.Panic p => Go.Panic p
    end
  | _ :: _ => Go.Panic Go.InterfaceConversion
  end.

(** [UnmarshalJSON] once [json.Unmarshal(b, &fullRes)] has checked the
    syntax of [b]: [j] is the document that [b] holds. *)
Definition UnmarshalJSON_doc (jar : JsonApiResponse) (j : Json.doc)
  : Go.result (JsonApiResponse * option Json.error) :=
  let ty := Json.TMap Json.TInterface in
  let fullRes := Json.decode ty j (Json.Map ∅) in
  match head (Json.decode_errors ty j) with
  | Some err => Go.Ok (jar, Some err)
  | None =>
    match Json.map_of fullRes !! "data" with
    | None => Go.Ok (jar, Some Json.MissingDataKey)
    | Some e =>
      match e with
      | Json.Slice l =>
        match assert_maps l with
        | Go.Ok ms => Go.Ok ({| Data := Some ms |}, None)
        | Go.Panic p => Go.Panic p
        end
      | Json.Map m => Go.Ok ({| Data := Some [m] |}, None)
      | _ => Go.Ok (jar, Some Json.UnknownDataType)
      end
    end
  end.

(** [(jar *JsonApiResponse) UnmarshalJSON(b)]: the response afterwards and
    the error returned. *)
Definition UnmarshalJSON (jar : JsonApiResponse) (b : string)
  : Go.result (JsonApiResponse * option Json.error) :=
  match Json.parse b with
  | None => Go.Ok (jar, Some Json.SyntaxError)
  | Some j => UnmarshalJSON_doc jar j
  end.

(** [json.Unmarshal(body, value)] for [value *JsonApiResponse]: the
    decoder checks the syntax and hands the bytes of the value to
    [UnmarshalJSON] (the white space around them does not matter to it). *)
Definition Unmarshal_response (body : string) (value : JsonApiResponse)
  : Go.result (JsonApiResponse * option Json.error) :=
  match Json.parse body with
  | None => Go.Ok (value, Some Json.SyntaxError)
  | Some _ => UnmarshalJSON value body
  end.

(** [json.Marshal(jar)]: the struct has one field, written under its Go
    name. *)
Definition Marshal (jar : JsonApiResponse) : option Json.doc :=
  match Data jar with
  | None => Some (Json.JObject [("Data", Json.JNull)])
  | Some l =>
    match Json.marshal (Json.Slice (map Json.Map l)) with
    | Some d => Some (Json.JObject [("Data", d)])
    | None => None
    end
  end.

(** The argument [v interface{}] of [To], [Get] and [GetSingle]: a pointer
    to a [JsonApiResponse], a pointer to a value of a type of the decoder,
    or something [json.Unmarshal] refuses (nil, no pointer). *)
Inductive target :=
| NotPointer
| ResponsePtr (r : JsonApiResponse)
| Ptr (ty : Json.gotype) (cur : Json.value).

(** [json.Unmarshal(b, v)] where [b] holds the document [d]. *)
Definition Unmarshal_doc (d : Json.doc) (v : target)
  : Go.result (target * option Json.error) :=
  match v with
  | NotPointer => Go.Ok (NotPointer, Some Json.InvalidUnmarshalError)
  | ResponsePtr r =>
    match UnmarshalJSON_doc r d with
    | Go.Ok (r', err) => Go.Ok (ResponsePtr r', err)
    | Go.Panic p => Go.Panic p
    end
  | Ptr ty cur => Go.Ok (Ptr ty (Json.decode ty d cur), head (Json.decode_errors ty d))
  end.

(** [json.Unmarshal(data, v)] on bytes. *)
Definition Unmarshal (data : string) (v : target)
  : Go.result (target * option Json.error) :=
  match Json.parse data with
  | None => Go.Ok (v, Some Json.SyntaxError)
  | Some d => Unmarshal_doc d v
  end.

(** [(jar *JsonApiResponse) To(v)]: [v] afterwards.  The bytes written by
    [json.Marshal] are read back at once, so the document they hold stands
    for them. *)
Definition To (jar : JsonApiResponse) (v : target) : M target :=
  match Marshal jar with
  | None => fatalf UnableToMarshal
  | Some b =>
    r ← lift (Unmarshal_doc b v);
    mret r.1
  end.

(** *** JsonApiUrl.String *)

(** [u.String()] on a [*url.URL] that may be nil. *)
Definition URL_String (u : Url.error + Url.URL) : M string :=
  match u with
  | inr url => mret (Url.String url)
  | inl _ => panic Go.NilDereference
  end.

Definition err_of {A} (r : Url.error + A) : option Url.error :=
  match r with inl e => Some e | inr _ => None end.

(** The text that [String] hands to the first [url.Parse]: the base URL
    without its trailing slash, joined with the entity and the bundle. *)
Definition path_text (baseUrl : string) (moo : JsonApiUrl) : string :=
  let baseUrl := if HasSuffix baseUrl "/" then take (len baseUrl - 1) baseUrl
                 else baseUrl in
  Join [baseUrl; "jsonapi"; DrupalEntity moo; DrupalBundle moo] "/".

(** [String] with room for [frames] nested calls of itself on the stack.

    Each assertion of [String] has the descriptor among the arguments of
    its message, as a [%v], and [*JsonApiUrl] is a [fmt.Stringer]: when an
    assertion fails, testify formats the message before it reports, and the
    formatting calls [String] on the same descriptor again. *)
Fixpoint String_at (frames : nat) (moo : JsonApiUrl) (w : World) {struct frames}
  : outcome string :=
  match frames with
  | O => stack_overflow w
  | S frames' =>
    let message := formatted (String_at frames' moo) in
    (assert_NotEmpty_with message (BaseUrl moo) BaseUrlEmpty ;;
     assert_NotEmpty_with message (DrupalEntity moo) DrupalEntityEmpty ;;
     assert_NotEmpty_with message (DrupalBundle moo) DrupalBundleEmpty ;;
     env ← getenv;
     baseUrl ← lift (Env.BaseUrlOr env (BaseUrl moo));
     let u := Url.Parse (path_text baseUrl moo) in
     assert_Nil_with message (err_of u) UrlGenerationError ;;
     u ← (if negb (String.eqb (RawFilter moo) "") then
            s ← URL_String u;
            mret (Url.Parse (s +:+ "?" +:+ RawFilter moo))
          else if negb (String.eqb (Filter moo) "") then
            s ← URL_String u;
            mret (Url.Parse (s +:+ "?filter[" +:+ Filter moo +:+ "]=" +:+ Value moo))
          else mret u);
     assert_Nil_with message (err_of u) UrlGenerationError ;;
     URL_String u) w
  end.

(** The number of nested calls the stack has room for; the outcome is the
    same for every number other than 0. *)
Definition stack_frames : nat := 1000.

Definition String (moo : JsonApiUrl) : M string := String_at stack_frames moo.

(** The URL that [String] returns when none of its assertions fails, and
    [None] when one does. *)
Definition url_text (environ : gmap string string) (moo : JsonApiUrl)
  : option string :=
  if String.eqb (BaseUrl moo) "" || String.eqb (DrupalEntity moo) ""
     || String.eqb (DrupalBundle moo) ""
  then None
  else
    match Env.BaseUrlOr environ (BaseUrl moo) with
    | Go.Panic _ => None
    | Go.Ok baseUrl =>
      match Url.Parse (path_text baseUrl moo) with
      | inl _ => None
      | inr u =>
        if negb (String.eqb (RawFilter moo) "") then
          match Url.Parse (Url.String u +:+ "?" +:+ RawFilter moo) with
          | inr u' => Some (Url.String u')
          | inl _ => None
          end
        else if negb (String.eqb (Filter moo) "") then
          match Url.Parse (Url.String u +:+ "?filter[" +:+ Filter moo
                           +:+ "]=" +:+ Value moo) with
          | inr u' => Some (Url.String u')
          | inl _ => None
          end
        else Some (Url.String u)
      end
    end.

(** No number sign and no control character. *)
Definition plain (s : string) : bool :=
  negb (ContainsByte s "#") && negb (Url.stringContainsCTLByte s).

(** *** Fetching and decoding *)

Definition UnmarshalResponse (body : string) (res : Http.Response)
    (value : JsonApiResponse)
    (responseAssertions : option (JsonApiResponse -> M unit))
  : M JsonApiResponse :=
  r ← lift (Unmarshal_response body value);
  assert_Nil r.2 UnmarshalFailure ;;
  match responseAssertions with
  | Some check => check r.1
  | None => mret tt
  end ;;
  mret r.1.

Definition UnmarshalSingleResponse (body : string) (res : Http.Response)
    (value : JsonApiResponse) : M JsonApiResponse :=
  UnmarshalResponse body res value
    (Some (fun value =>
             assert_that (len_Data value =? 1)%nat (DataCount (len_Data value)) ;;
             mret tt)).

Definition GetResourceWithBasicAuth (url username password : string)
  : M (Http.Response * string) :=
  let req := Http.NewRequest "GET" url in
  req ← (if (0 <? len (TrimSpace username))%nat then
           match req with
           | inr r =>
             let r := Http.SetBasicAuth r username password in
             printf (RetrievingWithAuth url) ;;
             mret (inr r)
           | inl _ => panic Go.NilDereference
           end
         else printf (Retrieving url) ;; mret req);
  res ← match req with
        | inr r => do r
        | inl _ => panic Go.NilDereference
        end;
  assert_Nil (match res with inl _ => None | inr msg => Some msg end)
    (RequestError url) ;;
  match res with
  | inr _ => panic Go.NilDereference
  | inl res =>
    assert_that (Http.StatusCode res =? 200)%Z
      (UnexpectedStatus (Http.StatusCode res) url) ;;
    assert_that (negb (Http.BodyError res)) (BodyReadError url) ;;
    mret (res, Http.Body res)
  end.

Definition GetResource (u : string) : M (Http.Response * string) :=
  GetResourceWithBasicAuth u "" "".

Definition GetSingle (jar : JsonApiUrl) (v : target) : M target :=
  rb ← (if (len (TrimSpace (Username jar)) =? 0)%nat then
          u ← String jar; GetResource u
        else
          u ← String jar; GetResourceWithBasicAuth u (Username jar) (Password jar));
  r ← UnmarshalSingleResponse rb.2 rb.1 {| Data := None |};
  To r v.

Definition Get (jar : JsonApiUrl) (v : target) : M target :=
  rb ← (if (len (TrimSpace (Username jar)) =? 0)%nat then
          u ← String jar; GetResource u
        else
          u ← String jar; GetResourceWithBasicAuth u (Username jar) (Password jar));
  r ← UnmarshalResponse rb.2 rb.1 {| Data := None |} None;
  To r v.

End Jsonapi.

(** ** What a call does to the world *)

Module Observe.
Import Strings.

(** The call leaves the component [f] of the world as it found it. *)
Definition keeps {A X} (f : World -> X) (m : M A) : Prop :=
  forall w, f (Run.world_of (m w)) = f w.



(** The world once the test has been marked as failed with [f]. *)
Definition failed_with (f : Failure) (w : World) : World :=
  {| environ := environ w; server := server w; failed := true;
     failures := (failures w ++ [f])%list; logged := logged w;
     requests := requests w |}.

End Observe.

(** ** Example inputs *)

Module Examples.
Import Strings.

(** A JSON text written with apostrophes in place of double quotes. *)
Fixpoint json (s : string) : string :=
  match s with
  | EmptyString => EmptyString
  | String c r => String (if Byte.eqb c "'" then Byte.dquote else c) (json r)
  end.

(** A server that answers every request with the same status and body. *)
Definition always (status : Z) (body : string) (_ : Http.Request)
  : Http.Response + string :=
  inl {| Http.StatusCode := status; Http.Body := body; Http.BodyError := false |}.

(** A fresh test in the given environment, in front of the given server. *)
Definition world (env : gmap string string)
    (srv : Http.Request -> Http.Response + string) : World :=
  {| environ := env; server := srv; failed := false; failures := [];
     logged := []; requests := [] |}.

Definition offline : World := world ∅ (fun _ => inr "connection refused").

(** The descriptor of the spec: base [http://h:1], entity [media], bundle
    [document], and the filter fields as given. *)
Definition media_document (filter value raw user pass : string)
  : Jsonapi.JsonApiUrl :=
  {| Jsonapi.BaseUrl := "http://h:1"; Jsonapi.DrupalEntity := "media";
     Jsonapi.DrupalBundle := "document"; Jsonapi.Filter := filter;
     Jsonapi.Value := value; Jsonapi.RawFilter := raw;
     Jsonapi.Username := user; Jsonapi.Password := pass |}.

(** A typed target: [struct { Data []struct { Id string } }], with the JSON
    names [data] and [id]. *)
Definition id_list : Json.gotype :=
  Json.TStruct [("data", Json.TSlice (Json.TStruct [("id", Json.TString)]))].

(** A typed target with two fields per element, [id] and [type]. *)
Definition id_type_list : Json.gotype :=
  Json.TStruct [("data", Json.TSlice (Json.TStruct [("id", Json.TString);
                                                     ("type", Json.TString)]))].

End Examples.

(* ===================================================================== *)
(** * Part II: lemmas and theorems                                        *)
(* ===================================================================== *)

(** ** Strings *)

#[local] Arguments String.append !_ _ / : simpl nomatch.

Section StringFacts.
Import Strings.

Lemma append_cons (c : ascii) (a b : string) :
  String c a +:+ b = String c (a +:+ b).
Proof. reflexivity. Qed.

Lemma prefix_cons (a b : ascii) (s1 s2 : string) :
  String.prefix (String a s1) (String b s2)
  = if ascii_dec a b then String.prefix s1 s2 else false.
Proof. reflexivity. Qed.

Lemma len_app (a b : string) : len (a +:+ b) = len a + len b.
Proof. induction a as [|c a IH]; simpl; [reflexivity | now rewrite IH]. Qed.

Lemma take_app_len (a b : string) : take (len a) (a +:+ b) = a.
Proof. induction a as [|c a IH]; simpl; [now destruct b | now rewrite IH]. Qed.

Lemma drop_app_len (a b : string) : drop (len a) (a +:+ b) = b.
Proof. induction a as [|c a IH]; simpl; [reflexivity | exact IH]. Qed.

Lemma drop_app_plus (a b : string) (n : nat) :
  drop (len a + n) (a +:+ b) = drop n b.
Proof. induction a as [|c a IH]; simpl; [reflexivity | exact IH]. Qed.

Lemma app_assoc_s (a b c : string) : (a +:+ b) +:+ c = a +:+ (b +:+ c).
Proof. induction a as [|x a IH]; cbn [append]; [reflexivity | now f_equal]. Qed.

Lemma app_empty_r (a : string) : a +:+ "" = a.
Proof. induction a as [|x a IH]; cbn [append]; [reflexivity | now f_equal]. Qed.

Lemma HasPrefix_app (p s : string) : HasPrefix (p +:+ s) p = true.
Proof.
  unfold HasPrefix. induction p as [|c p IH]; simpl.
  - now destruct s.
  - destruct (ascii_dec c c) as [_|Hne]; [exact IH | now destruct Hne].
Qed.

Lemma HasPrefix_split (s p : string) :
  HasPrefix s p = true -> s = p +:+ drop (len p) s.
Proof.
  unfold HasPrefix. revert s. induction p as [|c p IH]; intros s H.
  - reflexivity.
  - destruct s as [|d s]; simpl in H; [discriminate|].
    destruct (ascii_dec c d) as [->|]; [|discriminate].
    simpl. f_equal. now apply IH.
Qed.

Lemma Index_nil (sep : string) :
  Index "" sep = if HasPrefix "" sep then Some 0 else None.
Proof. reflexivity. Qed.

Lemma Index_cons (c : ascii) (s sep : string) :
  Index (String c s) sep
  = if HasPrefix (String c s) sep then Some 0 else S <$> Index s sep.
Proof. reflexivity. Qed.

(** [Index] finds a decomposition of the string around the separator... *)
Lemma Index_Some_split (s sep : string) (m : nat) :
  Index s sep = Some m ->
  s = take m s +:+ sep +:+ drop (m + len sep) s /\ len (take m s) = m.
Proof.
  revert m. induction s as [|c s IH]; intros m.
  - rewrite Index_nil. destruct (HasPrefix "" sep) eqn:Hp; [|intros; discriminate].
    intros [= <-]. split; [|reflexivity].
    now apply HasPrefix_split in Hp.
  - rewrite Index_cons. destruct (HasPrefix (String c s) sep) eqn:Hp.
    + intros [= <-]. split; [|reflexivity].
      now apply HasPrefix_split in Hp.
    + destruct (Index s sep) as [k|] eqn:Hk; [|intros; discriminate].
      intros [= <-]. destruct (IH k eq_refl) as [Hs Hl].
      simpl. split; [now rewrite <- Hs | now rewrite Hl].
Qed.

(** ... and reports [None] only when there is none. *)
Lemma Index_None_no_occurrence (s sep pre post : string) :
  Index s sep = None -> s <> pre +:+ sep +:+ post.
Proof.
  revert pre. induction s as [|c s IH]; intros pre.
  - rewrite Index_nil. destruct (HasPrefix "" sep) eqn:Hp; [intros; discriminate|].
    intros _ Heq. destruct pre; simpl in Heq; [|discriminate].
    rewrite Heq, HasPrefix_app in Hp. discriminate.
  - rewrite Index_cons.
    destruct (HasPrefix (String c s) sep) eqn:Hp; [intros; discriminate|].
    destruct (Index s sep) eqn:Hk; [intros; discriminate|].
    intros _ Heq. destruct pre as [|d pre]; simpl in Heq.
    + rewrite Heq, HasPrefix_app in Hp. discriminate.
    + injection Heq as _ Heq. now apply (IH pre).
Qed.

Lemma Contains_true_iff (s sep : string) :
  Contains s sep = true <-> exists pre post, s = pre +:+ sep +:+ post.
Proof.
  unfold Contains. split.
  - destruct (Index s sep) as [m|] eqn:Hm; [|discriminate].
    intros _. destruct (Index_Some_split _ _ _ Hm) as [Hs _]. eauto.
  - intros (pre & post & Heq).
    destruct (Index s sep) eqn:Hm; [reflexivity|].
    now apply (Index_None_no_occurrence _ _ pre post) in Hm.
Qed.

Lemma genSplit_no_sep (fuel : nat) (s sep : string) :
  Index s sep = None -> genSplit fuel s sep = [s].
Proof. intros H. destruct fuel; simpl; now rewrite H. Qed.

(** The first occurrence of the separator in [X--Y] is the one written,
    when [X] followed by a hyphen holds none. *)
Lemma Index_label (X Y : string) :
  Index (X +:+ "-") "--" = None -> Index (X +:+ "--" +:+ Y) "--" = Some (len X).
Proof.
  induction X as [|c X IH]; intros H.
  { change (Index (String "-" (String "-" Y)) "--" = Some 0).
    rewrite Index_cons.
    change (String "-" (String "-" Y)) with ("--" +:+ Y).
    now rewrite HasPrefix_app. }
  rewrite append_cons, Index_cons in H |- *.
  destruct (HasPrefix (String c (X +:+ "-")) "--") eqn:Hp; [discriminate|].
  destruct (Index (X +:+ "-") "--") eqn:Hi; [discriminate|].
  rewrite (IH eq_refl).
  replace (HasPrefix (String c (X +:+ "--" +:+ Y)) "--") with false; [reflexivity|].
  symmetry. unfold HasPrefix in *. rewrite prefix_cons in Hp |- *.
  destruct (ascii_dec "-" c); [|reflexivity].
  destruct X as [|d X]; [exact Hp|].
  rewrite append_cons, prefix_cons in Hp |- *.
  destruct (ascii_dec "-" d); [|reflexivity].
  now destruct (X +:+ "-").
Qed.

Lemma genSplit_step (fuel : nat) (s sep : string) (m : nat) :
  Index s sep = Some m ->
  genSplit (S fuel) s sep = take m s :: genSplit fuel (drop (m + len sep) s) sep.
Proof. intros H. simpl. now rewrite H. Qed.

Lemma Split_label (X Y : string) :
  Contains (X +:+ "-") "--" = false -> Contains Y "--" = false ->
  Split (X +:+ "--" +:+ Y) "--" = [X; Y].
Proof.
  unfold Contains. intros HX HY.
  destruct (Index (X +:+ "-") "--") eqn:HiX; [discriminate|].
  destruct (Index Y "--") eqn:HiY; [discriminate|].
  change (Split (X +:+ "--" +:+ Y) "--")
    with (genSplit (len (X +:+ "--" +:+ Y)) (X +:+ "--" +:+ Y) "--").
  assert (Hlen : len (X +:+ "--" +:+ Y) = S (len X + 1 + len Y))
    by (rewrite !len_app; simpl; lia).
  rewrite Hlen, (genSplit_step _ _ _ _ (Index_label X Y HiX)).
  rewrite take_app_len, drop_app_plus, (drop_app_len "--" Y).
  now rewrite (genSplit_no_sep _ Y "--" HiY).
Qed.

End StringFacts.

(** ** DrupalType *)

Section DrupalTypeFacts.
Import Strings.

(** C8, as stated, fails: the label [a---b] is [X--Y] for [X = a-] and
    [Y = b], and the entity accessor returns [a]. *)
Lemma C8_counterexample :
  ~ (forall X Y : string,
        Jsonapi.Entity (X +:+ "--" +:+ Y) = Go.Ok X
        /\ Jsonapi.Bundle (X +:+ "--" +:+ Y) = Go.Ok Y).
Proof. intros H. destruct (H "a-" "b") as [HE _]. vm_compute in HE. discriminate. Qed.

(** C8 (amended): for every type label [X--Y] in which the separator occurs
    once, as written (no [--] in [X] followed by a hyphen, none in [Y]),
    [Entity()] returns [X] and [Bundle()] returns [Y]. *)
Theorem C8_entity_bundle_of_label (X Y : string) :
  Contains (X +:+ "-") "--" = false -> Contains Y "--" = false ->
  Jsonapi.Entity (X +:+ "--" +:+ Y) = Go.Ok X
  /\ Jsonapi.Bundle (X +:+ "--" +:+ Y) = Go.Ok Y.
Proof.
  intros HX HY. unfold Jsonapi.Entity, Jsonapi.Bundle.
  rewrite (Split_label X Y HX HY). split; reflexivity.
Qed.

Lemma C8_entity_bundle_of_label_witness :
  Jsonapi.Entity "taxonomy_term--person" = Go.Ok "taxonomy_term"
  /\ Jsonapi.Bundle "taxonomy_term--person" = Go.Ok "person".
Proof.
  apply (C8_entity_bundle_of_label "taxonomy_term" "person"); reflexivity.
Defined.

(** C9: for every DrupalType string that does not contain the separator
    [--], [Bundle()] panics with an index out of range: index 1 on the
    one-element result of the split. *)
Theorem C9_bundle_without_separator_panics (t : Jsonapi.DrupalType) :
  Contains t "--" = false ->
  Split t "--" = [t]
  /\ Jsonapi.Bundle t = Go.Panic (Go.IndexOutOfRange 1 1).
Proof.
  unfold Contains. intros H.
  destruct (Index t "--") eqn:Hi; [discriminate|].
  assert (Hs : Split t "--" = [t]) by (apply genSplit_no_sep; exact Hi).
  split; [exact Hs|]. unfold Jsonapi.Bundle. now rewrite Hs.
Qed.

Lemma C9_bundle_without_separator_panics_witness :
  Split "user" "--" = ["user"]
  /\ Jsonapi.Bundle "user" = Go.Panic (Go.IndexOutOfRange 1 1).
Proof. apply (C9_bundle_without_separator_panics "user"); reflexivity. Defined.

End DrupalTypeFacts.

(** ** net/url: a query added to a URL in normal form *)

Section UrlFacts.
Import Strings.

Lemma IndexByte_cons (d c : ascii) (s : string) :
  IndexByte (String d s) c
  = if Ascii.eqb d c then Some 0 else S <$> IndexByte s c.
Proof. reflexivity. Qed.

Lemma IndexByte_app_None (a b : string) (c : ascii) :
  IndexByte a c = None -> IndexByte b c = None -> IndexByte (a +:+ b) c = None.
Proof.
  intros Ha Hb. induction a as [|d a IH]; [exact Hb|].
  rewrite append_cons, IndexByte_cons in *.
  destruct (Ascii.eqb d c); [discriminate|].
  destruct (IndexByte a c); [discriminate|]. now rewrite IH.
Qed.

Lemma IndexByte_app_first (a b : string) (c : ascii) :
  IndexByte a c = None -> IndexByte (a +:+ String c b) c = Some (len a).
Proof.
  intros Ha. induction a as [|d a IH].
  - simpl. now rewrite Ascii.eqb_refl.
  - rewrite append_cons, IndexByte_cons in *.
    destruct (Ascii.eqb d c); [discriminate|].
    destruct (IndexByte a c); [discriminate|]. now rewrite IH.
Qed.

Lemma IndexByte_None_drop (s : string) (c : ascii) (n : nat) :
  IndexByte s c = None -> IndexByte (drop n s) c = None.
Proof.
  revert n. induction s as [|d s IH]; intros [|n] H; try exact H.
  rewrite IndexByte_cons in H. destruct (Ascii.eqb d c); [discriminate|].
  destruct (IndexByte s c) eqn:E; [discriminate|]. now apply IH.
Qed.

Lemma CountByte_app (a b : string) (c : ascii) :
  CountByte (a +:+ b) c = CountByte a c + CountByte b c.
Proof. induction a as [|d a IH]; simpl; [reflexivity | rewrite IH; lia]. Qed.

Lemma IndexByte_None_count (s : string) (c : ascii) :
  IndexByte s c = None -> CountByte s c = 0.
Proof.
  induction s as [|d s IH]; [reflexivity|].
  rewrite IndexByte_cons. simpl. destruct (Ascii.eqb d c); [discriminate|].
  destruct (IndexByte s c); [discriminate|]. intros _. now rewrite IH.
Qed.

Lemma take_drop (n : nat) (s : string) : take n s +:+ drop n s = s.
Proof.
  revert n. induction s as [|d s IH]; intros [|n]; simpl; try reflexivity.
  now rewrite IH.
Qed.

Lemma drop_app_ge (a b : string) (n : nat) :
  len a <= n -> drop n (a +:+ b) = drop (n - len a) b.
Proof.
  revert n. induction a as [|d a IH]; intros n Hn; simpl in *.
  - now rewrite Nat.sub_0_r.
  - destruct n as [|n]; [lia|]. simpl. apply IH. lia.
Qed.

Lemma len_drop (n : nat) (s : string) : len (drop n s) = len s - n.
Proof.
  revert n. induction s as [|d s IH]; intros [|n]; simpl; try reflexivity.
  apply IH.
Qed.

(** A string that ends with the byte holds it. *)
Lemma HasSuffix_byte_count (s : string) (c : ascii) :
  HasSuffix s (String c "") = true -> 1 <= CountByte s c.
Proof.
  unfold HasSuffix. intros H. apply andb_prop in H as [_ H].
  apply String.eqb_eq in H.
  rewrite <- (take_drop (len s - len (String c "")) s), CountByte_app, H.
  simpl. rewrite Ascii.eqb_refl. lia.
Qed.

Lemma HasSuffix_app_nonempty (a b suf : string) :
  len suf <= len b -> HasSuffix (a +:+ b) suf = HasSuffix b suf.
Proof.
  intros Hb. unfold HasSuffix. rewrite len_app.
  rewrite drop_app_ge by lia.
  replace (len a + len b - len suf - len a) with (len b - len suf) by lia.
  f_equal. apply eq_true_iff_eq. rewrite !Nat.leb_le. lia.
Qed.

Lemma stringContainsCTLByte_app (a b : string) :
  Url.stringContainsCTLByte (a +:+ b)
  = Url.stringContainsCTLByte a || Url.stringContainsCTLByte b.
Proof.
  induction a as [|d a IH]; [reflexivity|].
  rewrite append_cons. simpl. rewrite IH. now rewrite !orb_assoc.
Qed.

Lemma split_absent (s : string) (c : ascii) (cutc : bool) :
  IndexByte s c = None -> Url.split s c cutc = (s, "").
Proof. unfold Url.split. now intros ->. Qed.

(** Without a question mark, the text has no query. *)
Lemma split_query_absent (rest : string) :
  IndexByte rest "?" = None -> Url.split_query rest = (rest, false, "").
Proof.
  intros H. unfold Url.split_query.
  rewrite (IndexByte_None_count _ _ H). rewrite andb_false_r.
  now rewrite (split_absent _ _ _ H).
Qed.

(** A non-empty query after the first question mark is kept as it is. *)
Lemma split_query_present (rest q : string) :
  IndexByte rest "?" = None -> q <> "" ->
  Url.split_query (rest +:+ "?" +:+ q) = (rest, false, q).
Proof.
  intros H Hq. unfold Url.split_query.
  assert (Hc : HasSuffix (rest +:+ "?" +:+ q) "?"
               && Nat.eqb (CountByte (rest +:+ "?" +:+ q) "?") 1 = false).
  { destruct (HasSuffix (rest +:+ "?" +:+ q) "?") eqn:Hs; [|reflexivity].
    rewrite <- app_assoc_s in Hs.
    rewrite HasSuffix_app_nonempty in Hs
      by (destruct q; [congruence | simpl; lia]).
    apply HasSuffix_byte_count in Hs.
    rewrite !CountByte_app, (IndexByte_None_count _ _ H). simpl.
    apply Nat.eqb_neq. lia. }
  rewrite Hc. unfold Url.split.
  change (rest +:+ "?" +:+ q) with (rest +:+ String "?" q).
  rewrite (IndexByte_app_first _ _ _ H).
  rewrite take_app_len.
  replace (S (len rest)) with (len rest + 1) by lia.
  now rewrite drop_app_plus.
Qed.

(** The scheme scan stops at a question mark: text appended after one
    stays in the rest. *)
Lemma getscheme_from_app (s pre q : string) :
  Url.getscheme_from (len pre) (s +:+ "?" +:+ q) (pre +:+ s +:+ "?" +:+ q)
  = match Url.getscheme_from (len pre) s (pre +:+ s) with
    | inl e => inl e
    | inr (scheme, rest) => inr (scheme, rest +:+ "?" +:+ q)
    end.
Proof.
  revert pre. induction s as [|c s IH]; intros pre.
  - simpl. now rewrite app_empty_r.
  - rewrite append_cons. cbn [Url.getscheme_from].
    assert (Hstep : forall t : string,
               pre +:+ String c t = (pre +:+ String c "") +:+ t)
      by (intros t; now rewrite app_assoc_s).
    assert (Hlen : S (len pre) = len (pre +:+ String c ""))
      by (rewrite len_app; simpl; lia).
    destruct (Byte.is_alpha c).
    { rewrite (Hstep (s +:+ "?" +:+ q)), (Hstep s), Hlen. apply IH. }
    destruct (Byte.is_digit c || Byte.mem c "+-.").
    { destruct pre as [|a pre].
      - reflexivity.
      - change (len (String a pre)) with (S (len pre)) in *. cbv iota.
        rewrite (Hstep (s +:+ "?" +:+ q)), (Hstep s), Hlen. apply IH. }
    destruct (Byte.eqb c ":").
    { destruct pre as [|a pre]; [reflexivity|].
      change (len (String a pre)) with (S (len pre)). cbv iota.
      change (S (len pre)) with (len (String a pre)).
      now rewrite !take_app_len. }
    rewrite <- append_cons. now rewrite <- !app_assoc_s.
Qed.

Lemma getscheme_app (p q : string) :
  Url.getscheme (p +:+ "?" +:+ q)
  = match Url.getscheme p with
    | inl e => inl e
    | inr (scheme, rest) => inr (scheme, rest +:+ "?" +:+ q)
    end.
Proof. exact (getscheme_from_app p "" q). Qed.

(** The rest left by the scheme scan is a suffix of the text. *)
Lemma getscheme_from_rest (s raw : string) (i : nat) (scheme rest : string) (c : ascii) :
  Url.getscheme_from i s raw = inr (scheme, rest) ->
  IndexByte raw c = None -> IndexByte s c = None -> IndexByte rest c = None.
Proof.
  revert i. induction s as [|d s IH]; intros i; cbn [Url.getscheme_from].
  - now intros [= _ <-].
  - intros H Hraw Hs. rewrite IndexByte_cons in Hs.
    destruct (Ascii.eqb d c); [discriminate|].
    destruct (IndexByte s c) eqn:Hs'; [discriminate|].
    destruct (Byte.is_alpha d); [now apply (IH (S i))|].
    destruct (Byte.is_digit d || Byte.mem d "+-.").
    { destruct i; [now injection H as _ <-| now apply (IH (S (S i)))]. }
    destruct (Byte.eqb d ":").
    { destruct i; [discriminate | now injection H as _ <-]. }
    now injection H as _ <-.
Qed.

Lemma String_set_query (u : Url.URL) (q : string) :
  Url.ForceQuery u = false -> Url.RawQuery u = "" -> Url.Fragment u = "" ->
  q <> "" ->
  Url.String (Url.set_query false q u) = Url.String u +:+ "?" +:+ q.
Proof.
  intros Hf Hq Hfr Hne. unfold Url.String.
  change (Url.String_hier (Url.set_query false q u)) with (Url.String_hier u).
  cbn [Url.set_query Url.ForceQuery Url.RawQuery Url.Fragment].
  rewrite Hf, Hq, Hfr. cbn [orb negb String.eqb].
  destruct (String.eqb q "") eqn:E; [apply String.eqb_eq in E; contradiction|].
  cbn [negb]. now rewrite !app_empty_r.
Qed.

Lemma parse_hier_no_query (scheme rest : string) (u : Url.URL) :
  Url.parse_hier scheme rest = inr u ->
  Url.ForceQuery u = false /\ Url.RawQuery u = "" /\ Url.Fragment u = "".
Proof.
  unfold Url.parse_hier. intros H.
  repeat match type of H with
         | (if ?b then _ else _) = _ => destruct b
         | (let '(_, _) := ?x in _) = _ => destruct x
         | match ?x with _ => _ end = _ => destruct x
         end;
    try discriminate; injection H as <-; auto.
Qed.

(** The heart of the matter: when a text without question mark or number
    sign is accepted by [parse_main], the text followed by a question mark
    and a query [q] (non-empty, without number sign) is accepted too, and
    it is printed as the first text followed by the same question mark and
    query. *)
Lemma parse_main_query (p q : string) (u : Url.URL) :
  Url.parse_main p = inr u ->
  IndexByte p "?" = None -> q <> "" ->
  Url.parse_main (p +:+ "?" +:+ q) = inr (Url.set_query false q u)
  /\ Url.String (Url.set_query false q u) = Url.String u +:+ "?" +:+ q.
Proof.
  unfold Url.parse_main. intros Hp Hmark Hq.
  rewrite getscheme_app.
  destruct (Url.getscheme p) as [e|[scheme rest]] eqn:Hs; [discriminate|].
  assert (Hrest : IndexByte rest "?" = None)
    by (apply (getscheme_from_rest p p 0 scheme rest); assumption).
  rewrite (split_query_present rest q Hrest Hq).
  rewrite (split_query_absent rest Hrest) in Hp.
  destruct (Url.parse_hier (ToLower_ascii scheme) rest) as [e|u0] eqn:Hh;
    [discriminate|].
  injection Hp as <-.
  destruct (parse_hier_no_query _ _ _ Hh) as (Hf & Hr & Hfr).
  split; [reflexivity|].
  change (Url.set_query false q (Url.set_query false "" u0))
    with (Url.set_query false q u0).
  rewrite (String_set_query u0 q Hf Hr Hfr Hq).
  f_equal. unfold Url.String.
  change (Url.String_hier (Url.set_query false "" u0)) with (Url.String_hier u0).
  cbn [Url.set_query Url.ForceQuery Url.RawQuery Url.Fragment].
  now rewrite Hf, Hr, Hfr.
Qed.

End UrlFacts.

(** ** JsonApiUrl.String *)

Section StringOfUrl.
Import Strings.

Lemma Parse_no_fragment (s : string) :
  IndexByte s "#" = None -> Url.Parse s = Url.parse s.
Proof.
  intros H. unfold Url.Parse. rewrite (split_absent _ _ _ H).
  now destruct (Url.parse s).
Qed.

Lemma Parse_query (p q : string) (u : Url.URL) :
  Url.Parse p = inr u -> Url.String u = p ->
  IndexByte p "?" = None -> IndexByte p "#" = None ->
  q <> "" -> IndexByte q "#" = None -> Url.stringContainsCTLByte q = false ->
  exists u', Url.Parse (p +:+ "?" +:+ q) = inr u'
             /\ Url.String u' = p +:+ "?" +:+ q.
Proof.
  intros Hp Hs Hmark Hsharp Hq Hqsharp Hctl.
  rewrite (Parse_no_fragment p Hsharp) in Hp.
  assert (Hsharp' : IndexByte (p +:+ "?" +:+ q) "#" = None)
    by (apply IndexByte_app_None; [assumption|];
        change ("?" +:+ q) with (String "?" q);
        rewrite IndexByte_cons; cbn [Ascii.eqb Bool.eqb]; now rewrite Hqsharp).
  rewrite (Parse_no_fragment _ Hsharp').
  unfold Url.parse in Hp |- *.
  destruct (Url.stringContainsCTLByte p) eqn:Hpc; [discriminate|].
  rewrite stringContainsCTLByte_app, Hpc.
  change (Url.stringContainsCTLByte ("?" +:+ q)) with (Url.stringContainsCTLByte q).
  rewrite Hctl. cbn [orb].
  assert (Hne : String.eqb (p +:+ "?" +:+ q) "*" = false).
  { apply String.eqb_neq. intros E. apply (f_equal len) in E.
    rewrite !len_app in E. destruct q; [congruence | simpl in E; lia]. }
  rewrite Hne.
  destruct (String.eqb p "*") eqn:Hstar.
  - apply String.eqb_eq in Hstar. subst p. injection Hp as <-.
    destruct (Url.parse_main "*") as [e|u0] eqn:Hm; [discriminate|].
    destruct (parse_main_query "*" q u0 Hm Hmark Hq) as [H1 H2].
    exists (Url.set_query false q u0). split; [exact H1|].
    rewrite H2. vm_compute in Hm. injection Hm as <-. reflexivity.
  - destruct (parse_main_query p q u Hp Hmark Hq) as [H1 H2].
    exists (Url.set_query false q u). split; [exact H1|].
    now rewrite H2, Hs.
Qed.

End StringOfUrl.

Section StringTheorems.
Import Strings.

Lemma eqb_empty_false (s : string) : s <> "" -> String.eqb s "" = false.
Proof. intros H. now apply String.eqb_neq. Qed.

(** [BaseUrlOr] does not panic. *)
Lemma BaseUrlOr_ok (env : gmap string string) (d : string) :
  Env.BaseUrlOr env d = Go.Ok (default d (env !! "DRUPAL_BASE_URL")).
Proof.
  unfold Env.BaseUrlOr, Env.GetEnvOr, Env.getEnv, Env.drupalBaseUrl.
  now destruct (env !! "DRUPAL_BASE_URL").
Qed.

(** Unfolds one call of [String_at] down to its conditionals. *)
Ltac String_step :=
  cbn [Jsonapi.String_at];
  unfold Run.assert_NotEmpty_with, Run.assert_Nil_with, Run.getenv, Run.lift,
    Run.formatted, Run.stack_overflow;
  unfold mbind, M_bind, mret, M_ret.

(** Runs what is left of a call of [String_at] once a test is decided. *)
Ltac String_run :=
  cbn [negb orb Jsonapi.err_of Jsonapi.URL_String Run.panic environ];
  unfold mbind, M_bind, mret, M_ret, Run.panic;
  cbn [negb orb Jsonapi.err_of Jsonapi.URL_String environ]; cbv beta.

(** When an assertion of [String] fails, the formatting of its message
    calls [String] again, in the same state, where the same assertion
    fails: whatever room the stack has, the call ends with the stack. *)
Lemma String_at_fails (moo : Jsonapi.JsonApiUrl) (w : World) :
  Jsonapi.url_text (environ w) moo = None ->
  forall frames, Jsonapi.String_at frames moo w = Exits 2 w.
Proof.
  intros Hn frames. induction frames as [|n IH]; [reflexivity|].
  revert Hn. unfold Jsonapi.url_text. String_step.
  destruct (String.eqb (Jsonapi.BaseUrl moo) ""); String_run;
    [now rewrite IH|].
  destruct (String.eqb (Jsonapi.DrupalEntity moo) ""); String_run;
    [now rewrite IH|].
  destruct (String.eqb (Jsonapi.DrupalBundle moo) ""); String_run;
    [now rewrite IH|].
  rewrite !BaseUrlOr_ok. String_run.
  destruct (Url.Parse (Jsonapi.path_text _ moo)) as [e|u]; String_run;
    [now rewrite IH|].
  destruct (negb (String.eqb (Jsonapi.RawFilter moo) ""));
    [|destruct (negb (String.eqb (Jsonapi.Filter moo) ""))]; String_run;
    try discriminate.
  all: match goal with
       | |- context [Url.Parse ?t] => destruct (Url.Parse t)
       end; String_run; try discriminate; now rewrite IH.
Qed.

(** When no assertion fails, [String] returns at once and leaves the state
    alone. *)
Lemma String_at_returns (moo : Jsonapi.JsonApiUrl) (w : World) (s : string) :
  Jsonapi.url_text (environ w) moo = Some s ->
  forall frames, Jsonapi.String_at (S frames) moo w = Returns s w.
Proof.
  intros Hs n. revert Hs. unfold Jsonapi.url_text. String_step.
  destruct (String.eqb (Jsonapi.BaseUrl moo) ""); String_run; [discriminate|].
  destruct (String.eqb (Jsonapi.DrupalEntity moo) ""); String_run; [discriminate|].
  destruct (String.eqb (Jsonapi.DrupalBundle moo) ""); String_run; [discriminate|].
  rewrite !BaseUrlOr_ok. String_run.
  destruct (Url.Parse (Jsonapi.path_text _ moo)) as [e|u]; String_run;
    [discriminate|].
  destruct (negb (String.eqb (Jsonapi.RawFilter moo) ""));
    [|destruct (negb (String.eqb (Jsonapi.Filter moo) ""))]; String_run;
    try (now intros [= <-]).
  all: match goal with
       | |- context [Url.Parse ?t] => destruct (Url.Parse t)
       end; String_run; try discriminate; now intros [= <-].
Qed.

(** All that [String] does: it returns the URL and leaves the state alone,
    or it ends the process. *)
Lemma String_outcome (moo : Jsonapi.JsonApiUrl) (w : World) :
  Jsonapi.String moo w
  = match Jsonapi.url_text (environ w) moo with
    | Some s => Returns s w
    | None => Exits 2 w
    end.
Proof.
  unfold Jsonapi.String.
  destruct (Jsonapi.url_text (environ w) moo) as [s|] eqn:Hu.
  - exact (String_at_returns moo w s Hu 999).
  - now apply String_at_fails.
Qed.

(** What [String] returns for a descriptor with its required fields, in
    terms of the two calls of [url.Parse]. *)
Lemma String_value (moo : Jsonapi.JsonApiUrl) (w : World) (base : string) :
  Jsonapi.BaseUrl moo <> "" -> Jsonapi.DrupalEntity moo <> "" ->
  Jsonapi.DrupalBundle moo <> "" ->
  Env.BaseUrlOr (environ w) (Jsonapi.BaseUrl moo) = Go.Ok base ->
  Run.value_of (Jsonapi.String moo w)
  = match Url.Parse (Jsonapi.path_text base moo) with
    | inl _ => None
    | inr u =>
      if negb (String.eqb (Jsonapi.RawFilter moo) "") then
        match Url.Parse (Url.String u +:+ "?" +:+ Jsonapi.RawFilter moo) with
        | inr u' => Some (Url.String u')
        | inl _ => None
        end
      else if negb (String.eqb (Jsonapi.Filter moo) "") then
        match Url.Parse (Url.String u +:+ "?filter[" +:+ Jsonapi.Filter moo
                         +:+ "]=" +:+ Jsonapi.Value moo) with
        | inr u' => Some (Url.String u')
        | inl _ => None
        end
      else Some (Url.String u)
    end.
Proof.
  intros H1 H2 H3 Hb. rewrite String_outcome. unfold Jsonapi.url_text.
  rewrite (eqb_empty_false _ H1), (eqb_empty_false _ H2), (eqb_empty_false _ H3), Hb.
  cbn [orb].
  destruct (Url.Parse (Jsonapi.path_text base moo)) as [e|u]; [reflexivity|].
  destruct (negb (String.eqb (Jsonapi.RawFilter moo) ""));
    [|destruct (negb (String.eqb (Jsonapi.Filter moo) ""))];
    try reflexivity.
  all: match goal with
       | |- context [Url.Parse ?t] => destruct (Url.Parse t)
       end; reflexivity.
Qed.

Lemma plain_spec (s : string) :
  Jsonapi.plain s = true ->
  IndexByte s "#" = None /\ Url.stringContainsCTLByte s = false.
Proof.
  unfold Jsonapi.plain, ContainsByte. intros H.
  apply andb_prop in H as [H1 H2].
  destruct (IndexByte s "#"); [discriminate|].
  split; [reflexivity|]. now destruct (Url.stringContainsCTLByte s).
Qed.

Lemma plain_app (a b : string) :
  Jsonapi.plain a = true -> Jsonapi.plain b = true -> Jsonapi.plain (a +:+ b) = true.
Proof.
  intros Ha Hb. apply plain_spec in Ha as [Ha1 Ha2], Hb as [Hb1 Hb2].
  unfold Jsonapi.plain, ContainsByte.
  rewrite (IndexByte_app_None a b "#" Ha1 Hb1).
  now rewrite stringContainsCTLByte_app, Ha2, Hb2.
Qed.

(** C6, as stated, fails: the environment variable DRUPAL_BASE_URL, when
    set, takes the place of the BaseUrl field. *)
Lemma C6_counterexample :
  Run.value_of
    (Jsonapi.String (Examples.media_document "id" "abc" "" "" "")
       (Examples.world {[ "DRUPAL_BASE_URL" := "https://islandora-idc.traefik.me/" ]}
          (fun _ => inr "unused")))
  = Some "https://islandora-idc.traefik.me/jsonapi/media/document?filter[id]=abc"
  /\ "https://islandora-idc.traefik.me/jsonapi/media/document?filter[id]=abc"
     <> "http://h:1/jsonapi/media/document?filter[id]=abc".
Proof. split; [vm_compute; reflexivity | discriminate]. Qed.

(** C6 (amended): when the environment variable DRUPAL_BASE_URL is not
    set, [String()] on the JsonApiUrl with BaseUrl [http://h:1], entity
    [media], bundle [document], Filter [id], Value [abc] and an empty
    RawFilter returns exactly
    [http://h:1/jsonapi/media/document?filter[id]=abc], and the test state
    is left as it was. *)
Theorem C6_string_of_media_document (user pass : string) (w : World) :
  environ w !! "DRUPAL_BASE_URL" = None ->
  Jsonapi.String (Examples.media_document "id" "abc" "" user pass) w
  = Returns "http://h:1/jsonapi/media/document?filter[id]=abc" w.
Proof.
  intros H. rewrite String_outcome. unfold Jsonapi.url_text.
  rewrite BaseUrlOr_ok, H. vm_compute. reflexivity.
Qed.

Lemma C6_string_of_media_document_witness :
  Jsonapi.String (Examples.media_document "id" "abc" "" "admin" "moo") Examples.offline
  = Returns "http://h:1/jsonapi/media/document?filter[id]=abc" Examples.offline.
Proof.
  apply (C6_string_of_media_document "admin" "moo" Examples.offline).
  reflexivity.
Defined.

(** C7, as stated, fails: [String()] returns what [url.Parse] and
    [URL.String] make of the text, and a raw filter that is a number sign
    is read as an empty fragment and dropped. *)
Lemma C7_counterexample :
  Run.value_of
    (Jsonapi.String (Examples.media_document "" "" "#" "" "") Examples.offline)
  = Some "http://h:1/jsonapi/media/document?"
  /\ "http://h:1/jsonapi/media/document?"
     <> "http://h:1/jsonapi/media/document" +:+ "?" +:+ "#".
Proof. split; [vm_compute; reflexivity | discriminate]. Qed.

(** C7 (amended): for a descriptor whose BaseUrl, DrupalEntity and
    DrupalBundle are not empty, let [path] be the text
    base/jsonapi/entity/bundle, base being the base URL in force without
    its trailing slash, and let it be a URL in normal form ([url.Parse]
    accepts it and [URL.String] prints it back unchanged) without question
    mark or number sign.  Then, for filters without number sign or control
    character: with a non-empty
    RawFilter, [String()] ignores Filter and Value and returns [path], a
    question mark and the RawFilter verbatim; with an empty RawFilter and
    a non-empty Filter it returns [path?filter[Filter]=Value]; with both
    empty it returns [path], which has no query string. *)
Theorem C7_filter_selection (moo : Jsonapi.JsonApiUrl) (w : World)
    (base : string) (u : Url.URL) :
  Jsonapi.BaseUrl moo <> "" -> Jsonapi.DrupalEntity moo <> "" ->
  Jsonapi.DrupalBundle moo <> "" ->
  Env.BaseUrlOr (environ w) (Jsonapi.BaseUrl moo) = Go.Ok base ->
  Url.Parse (Jsonapi.path_text base moo) = inr u ->
  Url.String u = Jsonapi.path_text base moo ->
  ContainsByte (Jsonapi.path_text base moo) "?" = false ->
  ContainsByte (Jsonapi.path_text base moo) "#" = false ->
  (Jsonapi.RawFilter moo <> "" -> Jsonapi.plain (Jsonapi.RawFilter moo) = true ->
   Run.value_of (Jsonapi.String moo w)
   = Some (Jsonapi.path_text base moo +:+ "?" +:+ Jsonapi.RawFilter moo))
  /\ (Jsonapi.RawFilter moo = "" -> Jsonapi.Filter moo <> "" ->
      Jsonapi.plain (Jsonapi.Filter moo) = true ->
      Jsonapi.plain (Jsonapi.Value moo) = true ->
      Run.value_of (Jsonapi.String moo w)
      = Some (Jsonapi.path_text base moo +:+ "?filter[" +:+ Jsonapi.Filter moo
              +:+ "]=" +:+ Jsonapi.Value moo))
  /\ (Jsonapi.RawFilter moo = "" -> Jsonapi.Filter moo = "" ->
      Run.value_of (Jsonapi.String moo w) = Some (Jsonapi.path_text base moo)).
Proof.
  intros H1 H2 H3 Hb Hp Hs Hmark Hsharp.
  unfold ContainsByte in Hmark, Hsharp.
  destruct (IndexByte (Jsonapi.path_text base moo) "?") eqn:Hm; [discriminate|].
  destruct (IndexByte (Jsonapi.path_text base moo) "#") eqn:Hn; [discriminate|].
  rewrite (String_value moo w base H1 H2 H3 Hb), Hp, Hs.
  repeat split.
  - intros Hraw Hplain. apply plain_spec in Hplain as [Hq1 Hq2].
    destruct (String.eqb (Jsonapi.RawFilter moo) "") eqn:E;
      [apply String.eqb_eq in E; contradiction|]. cbn [negb].
    destruct (Parse_query _ _ u Hp Hs Hm Hn Hraw Hq1 Hq2) as (u' & -> & ->).
    reflexivity.
  - intros -> Hf HpF HpV. cbn [String.eqb negb].
    destruct (String.eqb (Jsonapi.Filter moo) "") eqn:E;
      [apply String.eqb_eq in E; contradiction|]. cbn [negb].
    assert (Hplain : Jsonapi.plain ("filter[" +:+ Jsonapi.Filter moo +:+ "]="
                                    +:+ Jsonapi.Value moo) = true)
      by (repeat apply plain_app; auto).
    apply plain_spec in Hplain as [Hq1 Hq2].
    assert (Hne : "filter[" +:+ Jsonapi.Filter moo +:+ "]=" +:+ Jsonapi.Value moo <> "")
      by discriminate.
    destruct (Parse_query _ _ u Hp Hs Hm Hn Hne Hq1 Hq2) as (u' & Hu' & Hs').
    change ("?filter[" +:+ Jsonapi.Filter moo +:+ "]=" +:+ Jsonapi.Value moo)
      with ("?" +:+ "filter[" +:+ Jsonapi.Filter moo +:+ "]=" +:+ Jsonapi.Value moo).
    now rewrite Hu', Hs'.
  - now intros -> ->.
Qed.

Lemma C7_filter_selection_witness :
  Run.value_of
    (Jsonapi.String
       (Examples.media_document "id" "abc"
          "filter[name-group][condition][path]=name&filter[of][value]=Image 04"
          "" "")
       Examples.offline)
  = Some ("http://h:1/jsonapi/media/document?"
          +:+ "filter[name-group][condition][path]=name&filter[of][value]=Image 04")
  /\ Run.value_of
       (Jsonapi.String (Examples.media_document "title" "Moby Dick" "" "" "")
          Examples.offline)
     = Some "http://h:1/jsonapi/media/document?filter[title]=Moby Dick"
  /\ Run.value_of
       (Jsonapi.String (Examples.media_document "" "ignored" "" "" "")
          Examples.offline)
     = Some "http://h:1/jsonapi/media/document".
Proof.
  pose (u := {| Url.Scheme := "http"; Url.Opaque := ""; Url.User := None;
                Url.Host := "h:1"; Url.Path := "/jsonapi/media/document";
                Url.RawPath := ""; Url.ForceQuery := false; Url.RawQuery := "";
                Url.Fragment := ""; Url.RawFragment := "" |}).
  split; [|split].
  - apply (proj1 (C7_filter_selection
                    (Examples.media_document "id" "abc"
                       "filter[name-group][condition][path]=name&filter[of][value]=Image 04"
                       "" "")
                    Examples.offline "http://h:1" u
                    ltac:(discriminate) ltac:(discriminate) ltac:(discriminate)
                    eq_refl eq_refl eq_refl eq_refl eq_refl));
      [discriminate | reflexivity].
  - apply (proj1 (proj2 (C7_filter_selection
                    (Examples.media_document "title" "Moby Dick" "" "" "")
                    Examples.offline "http://h:1" u
                    ltac:(discriminate) ltac:(discriminate) ltac:(discriminate)
                    eq_refl eq_refl eq_refl eq_refl eq_refl)));
      [reflexivity | discriminate | reflexivity | reflexivity].
  - apply (proj2 (proj2 (C7_filter_selection
                    (Examples.media_document "" "ignored" "" "" "")
                    Examples.offline "http://h:1" u
                    ltac:(discriminate) ltac:(discriminate) ltac:(discriminate)
                    eq_refl eq_refl eq_refl eq_refl eq_refl)));
      reflexivity.
Defined.

End StringTheorems.

(** ** Effects of the calls on the world *)

Section Effects.
Import Strings Observe.



Lemma bind_returns {A B} (m : M A) (k : A -> M B) (w w' : World) (a : A) :
  m w = Returns a w' -> (m ≫= k) w = k a w'.
Proof. intros H. unfold mbind, M_bind. now rewrite H. Qed.


End Effects.



Section EffectsOfCalls.
Import Strings Observe.


Lemma String_keeps_server (moo : Jsonapi.JsonApiUrl) :
  keeps server (Jsonapi.String moo).
Proof.
  intros w. rewrite String_outcome. now destruct (Jsonapi.url_text _ _).
Qed.










End EffectsOfCalls.

Section ClientTheorems.
Import Strings Observe.


(** What [GetResourceWithBasicAuth] does with a response that is no 200:
    the failure is reported and the response and its body are returned. *)
Lemma GetResourceWithBasicAuth_non_200 (url user pass : string) (w : World)
    (r : Http.Request) (res : Http.Response) :
  Http.NewRequest "GET" url = inr r ->
  server w (if (0 <? len (TrimSpace user))%nat
            then Http.SetBasicAuth r user pass else r) = inl res ->
  Http.StatusCode res <> 200%Z ->
  exists w',
    Jsonapi.GetResourceWithBasicAuth url user pass w = Returns (res, Http.Body res) w'
    /\ failed w' = true
    /\ In (UnexpectedStatus (Http.StatusCode res) url) (failures w')
    /\ server w' = server w.
Proof.
  intros Hr Hs Hne. unfold Jsonapi.GetResourceWithBasicAuth. rewrite Hr.
  apply Z.eqb_neq in Hne.
  destruct (0 <? len (TrimSpace user))%nat;
    unfold mbind, M_bind, mret, M_ret, Run.printf, Run.do;
    cbn [environ server failed failures logged requests];
    rewrite Hs; cbn [Run.assert_Nil]; unfold mret, M_ret;
    unfold Run.assert_that; rewrite Hne;
    unfold mbind, M_bind, mret, M_ret, Run.fail;
    destruct (negb (Http.BodyError res));
    eexists; (split; [reflexivity|]);
    cbn [environ server failed failures logged requests];
    repeat split; rewrite ?in_app_iff; cbn [In]; auto.
Qed.

(** C1, as stated, fails: testify's [assert.Equal] reports the status and
    lets the call go on.  With a server that answers 404, [Get] returns
    normally, the test is marked as failed, and the target holds what the
    body of the 404 response decodes to. *)
Lemma C1_counterexample :
  exists w',
    Jsonapi.Get (Examples.media_document "id" "abc" "" "" "")
      (Jsonapi.Ptr Examples.id_list (Json.zero Examples.id_list))
      (Examples.world ∅ (Examples.always 404 (Examples.json "{'data':[{'id':'x'}]}")))
    = Returns
        (Jsonapi.Ptr Examples.id_list
           (Json.Struct [("data", Json.Slice [Json.Struct [("id", Json.Str "x")]])]))
        w'
    /\ failed w' = true
    /\ failures w'
       = [UnexpectedStatus 404 "http://h:1/jsonapi/media/document?filter[id]=abc"].
Proof. eexists. vm_compute. repeat split. Qed.

(** C1 (amended): for every URL whose GET returns a status other than 200,
    [GetResourceWithBasicAuth] marks the test as failed, reporting the
    status, and still returns the response and its body; [Get] and
    [GetSingle] then go on as after a 200: they hand this body to
    [UnmarshalResponse] (to [UnmarshalSingleResponse]) and project what it
    decodes into the target. *)
Theorem C1_non_200_marks_failed_and_goes_on :
  (forall url user pass w r res,
      Http.NewRequest "GET" url = inr r ->
      server w (if (0 <? len (TrimSpace user))%nat
                then Http.SetBasicAuth r user pass else r) = inl res ->
      Http.StatusCode res <> 200%Z ->
      exists w',
        Jsonapi.GetResourceWithBasicAuth url user pass w
        = Returns (res, Http.Body res) w'
        /\ failed w' = true
        /\ In (UnexpectedStatus (Http.StatusCode res) url) (failures w'))
  /\ (forall jar v w url w1 r res,
         Jsonapi.String jar w = Returns url w1 ->
         Http.NewRequest "GET" url = inr r ->
         server w (if (len (TrimSpace (Jsonapi.Username jar)) =? 0)%nat then r
                   else Http.SetBasicAuth r (Jsonapi.Username jar)
                          (Jsonapi.Password jar)) = inl res ->
         Http.StatusCode res <> 200%Z ->
         exists w',
           failed w' = true
           /\ Jsonapi.Get jar v w
              = (Jsonapi.UnmarshalResponse (Http.Body res) res
                   {| Jsonapi.Data := None |} None
                 ≫= fun r => Jsonapi.To r v) w'
           /\ Jsonapi.GetSingle jar v w
              = (Jsonapi.UnmarshalSingleResponse (Http.Body res) res
                   {| Jsonapi.Data := None |}
                 ≫= fun r => Jsonapi.To r v) w').
Proof.
  split.
  - intros url user pass w r res Hr Hs Hne.
    destruct (GetResourceWithBasicAuth_non_200 url user pass w r res Hr Hs Hne)
      as (w' & H1 & H2 & H3 & _).
    now exists w'.
  - intros jar v w url w1 r res Hu Hr Hs Hne.
    assert (Hsrv : server w1 = server w).
    { pose proof (String_keeps_server jar w) as H. now rewrite Hu in H. }
    assert (Hf : exists w',
               (if (len (TrimSpace (Jsonapi.Username jar)) =? 0)%nat
                then u ← Jsonapi.String jar; Jsonapi.GetResource u
                else u ← Jsonapi.String jar;
                     Jsonapi.GetResourceWithBasicAuth u (Jsonapi.Username jar)
                       (Jsonapi.Password jar)) w
               = Returns (res, Http.Body res) w' /\ failed w' = true).
    { destruct (len (TrimSpace (Jsonapi.Username jar)) =? 0)%nat eqn:Hb;
        rewrite (bind_returns _ _ _ _ _ Hu).
      - destruct (GetResourceWithBasicAuth_non_200 url "" "" w1 r res Hr)
          as (w' & H1 & H2 & _); [now rewrite Hsrv | exact Hne |].
        now exists w'.
      - destruct (GetResourceWithBasicAuth_non_200 url (Jsonapi.Username jar)
                    (Jsonapi.Password jar) w1 r res Hr)
          as (w' & H1 & H2 & _); [|exact Hne | now exists w'].
        rewrite Hsrv.
        destruct (len (TrimSpace (Jsonapi.Username jar))); [discriminate|exact Hs]. }
    destruct Hf as (w' & Hf & Hfail). exists w'. split; [exact Hfail|].
    unfold Jsonapi.Get, Jsonapi.GetSingle.
    now rewrite !(bind_returns _ _ _ _ _ Hf).
Qed.

Lemma C1_non_200_marks_failed_and_goes_on_witness :
  exists w',
    Jsonapi.GetResourceWithBasicAuth "http://h:1/jsonapi/media/document" "" ""
      (Examples.world ∅ (Examples.always 404 "not found"))
    = Returns ({| Http.StatusCode := 404; Http.Body := "not found";
                  Http.BodyError := false |}, "not found") w'
    /\ failed w' = true
    /\ In (UnexpectedStatus 404 "http://h:1/jsonapi/media/document") (failures w').
Proof.
  refine (proj1 C1_non_200_marks_failed_and_goes_on
            "http://h:1/jsonapi/media/document" "" ""
            (Examples.world ∅ (Examples.always 404 "not found")) _ _
            eq_refl eq_refl _).
  discriminate.
Defined.

(** C3: for every response body decoded without error,
    [UnmarshalSingleResponse] returns the decoded [JsonApiResponse]; it
    leaves the test state alone when [Data] has exactly one element, which
    the response returned holds, and it marks the test as failed, reporting
    the number of elements found, when [Data] has none or at least two. *)
Theorem C3_single_response (body : string) (res : Http.Response)
    (value jar : Jsonapi.JsonApiResponse) (w : World) :
  Jsonapi.Unmarshal_response body value = Go.Ok (jar, None) ->
  (Jsonapi.len_Data jar = 1 ->
   Jsonapi.UnmarshalSingleResponse body res value w = Returns jar w
   /\ exists m, Jsonapi.Data jar = Some [m])
  /\ (Jsonapi.len_Data jar = 0 \/ 2 <= Jsonapi.len_Data jar ->
      Jsonapi.UnmarshalSingleResponse body res value w
      = Returns jar (failed_with (DataCount (Jsonapi.len_Data jar)) w)
      /\ failed (failed_with (DataCount (Jsonapi.len_Data jar)) w) = true).
Proof.
  intros Hd. unfold Jsonapi.UnmarshalSingleResponse, Jsonapi.UnmarshalResponse.
  rewrite Hd. unfold Run.lift, mbind, M_bind, mret, M_ret.
  cbn [fst snd Run.assert_Nil]. unfold Run.assert_that, mret, M_ret.
  split.
  - intros H1. rewrite H1. cbn [Nat.eqb]. split; [reflexivity|].
    unfold Jsonapi.len_Data in H1. destruct (Jsonapi.Data jar) as [[|m [|m' l]]|];
      try discriminate. now exists m.
  - intros H. assert (Hne : (Jsonapi.len_Data jar =? 1)%nat = false)
      by (apply Nat.eqb_neq; lia).
    rewrite Hne. split; reflexivity.
Qed.

Lemma C3_single_response_witness :
  (Jsonapi.UnmarshalSingleResponse (Examples.json "{'data':{'id':'x'}}")
     {| Http.StatusCode := 200; Http.Body := ""; Http.BodyError := false |}
     {| Jsonapi.Data := None |} Examples.offline
   = Returns {| Jsonapi.Data := Some [{[ "id" := Json.Str "x" ]}] |} Examples.offline)
  /\ (Jsonapi.UnmarshalSingleResponse (Examples.json "{'data':[]}")
        {| Http.StatusCode := 200; Http.Body := ""; Http.BodyError := false |}
        {| Jsonapi.Data := None |} Examples.offline
      = Returns {| Jsonapi.Data := Some [] |}
          (failed_with (DataCount 0) Examples.offline)).
Proof.
  split.
  - refine (proj1 (proj1 (C3_single_response (Examples.json "{'data':{'id':'x'}}")
                     {| Http.StatusCode := 200; Http.Body := ""; Http.BodyError := false |}
                     {| Jsonapi.Data := None |}
                     {| Jsonapi.Data := Some [{[ "id" := Json.Str "x" ]}] |}
                     Examples.offline _) _)); vm_compute; reflexivity.
  - refine (proj1 (proj2 (C3_single_response (Examples.json "{'data':[]}")
                     {| Http.StatusCode := 200; Http.Body := ""; Http.BodyError := false |}
                     {| Jsonapi.Data := None |}
                     {| Jsonapi.Data := Some [] |}
                     Examples.offline _) _)); [vm_compute; reflexivity | left; reflexivity].
Defined.

End ClientTheorems.

(** ** encoding/json: decoding into interface{} and writing it back *)

Section JsonFacts.
Import Strings Json.

(** Induction on documents, through arrays and objects. *)
Lemma doc_induction (P : doc -> Prop) :
  P JNull -> (forall b, P (JBool b)) -> (forall n, P (JNumber n)) ->
  (forall s, P (JString s)) ->
  (forall l, Forall P l -> P (JArray l)) ->
  (forall ms, Forall (fun kv => P kv.2) ms -> P (JObject ms)) ->
  forall j, P j.
Proof.
  intros HN HB HNum HS HA HO. fix IH 1. intros [|b|n|s|l|ms].
  - exact HN.
  - apply HB.
  - apply HNum.
  - apply HS.
  - apply HA. induction l as [|x l IHl]; constructor; [apply IH | exact IHl].
  - apply HO. induction ms as [|kv ms IHms]; constructor; [apply IH | exact IHms].
Qed.

Lemma decode_interface_nil (j : doc) : decode TInterface j Nil = to_any j.
Proof. destruct j; reflexivity. Qed.

Lemma decode_errors_interface (j : doc) : decode_errors TInterface j = any_errors j.
Proof. destruct j; reflexivity. Qed.

(** A map filled member by member holds, under each name, what the last
    member of that name decodes to. *)
Lemma fold_map_step_lookup (dec : doc -> value) (ms : list (string * doc))
    (m : gmap string value) (k : string) :
  fold_left (map_step dec) ms m !! k
  = match member k ms with
    | Some v => Some (dec v)
    | None => m !! k
    end.
Proof.
  revert m. induction ms as [|kv ms IH]; intros m; [reflexivity|].
  cbn [fold_left member]. rewrite IH. destruct (member k ms); [reflexivity|].
  unfold map_step. destruct (String.eqb kv.1 k) eqn:E.
  - apply String.eqb_eq in E. subst k. apply lookup_insert_eq.
  - apply String.eqb_neq in E. now apply lookup_insert_ne.
Qed.

Lemma assert_maps_objects (objs : list (list (string * doc))) :
  Jsonapi.assert_maps (map to_any (map JObject objs))
  = Go.Ok (map fields_of objs).
Proof.
  induction objs as [|o objs IH]; [reflexivity|].
  cbn [map to_any Jsonapi.assert_maps]. now rewrite IH.
Qed.

(** What [UnmarshalJSON] finds under [data], for a body that
    [json.Unmarshal] decodes into the generic map without error. *)
Lemma UnmarshalJSON_doc_data (jar : Jsonapi.JsonApiResponse)
    (members : list (string * doc)) (e : doc) :
  decode_errors (TMap TInterface) (JObject members) = [] ->
  member "data" members = Some e ->
  Jsonapi.UnmarshalJSON_doc jar (JObject members)
  = match to_any e with
    | Slice l =>
      match Jsonapi.assert_maps l with
      | Go.Ok ms => Go.Ok ({| Jsonapi.Data := Some ms |}, None)
      | Go.Panic p => Go.Panic p
      end
    | Map m => Go.Ok ({| Jsonapi.Data := Some [m] |}, None)
    | _ => Go.Ok (jar, Some UnknownDataType)
    end.
Proof.
  intros Herr He. unfold Jsonapi.UnmarshalJSON_doc. rewrite Herr.
  cbn [head decode map_of]. rewrite fold_map_step_lookup, He.
  cbn [zero]. now rewrite decode_interface_nil.
Qed.

End JsonFacts.

Section DecoderTheorems.
Import Strings Json.

(** C4, as stated, fails: an array under [data] with an element that is no
    object makes [UnmarshalJSON] panic on the type assertion, so no [Data]
    sequence is produced. *)
Lemma C4_counterexample :
  Json.parse (Examples.json "{'data':[1]}")
  = Some (JObject [("data", JArray [JNumber (Lit "1")])])
  /\ Jsonapi.UnmarshalJSON {| Jsonapi.Data := None |} (Examples.json "{'data':[1]}")
     = Go.Panic Go.InterfaceConversion.
Proof. split; vm_compute; reflexivity. Qed.

(** C4 (amended): for every JSON body that [json.Unmarshal] decodes into the
    generic map without error (an object whose numbers all fit a float64):
    when its top-level [data] value is a single JSON object,
    [UnmarshalJSON] produces a [Data] sequence of exactly one element, that
    object's field map; when it is a JSON array of N objects, it produces a
    [Data] sequence of exactly N elements, their field maps in the same
    order. *)
Theorem C4_data_normalised (jar : Jsonapi.JsonApiResponse) (b : string)
    (members : list (string * doc)) :
  Json.parse b = Some (JObject members) ->
  decode_errors (TMap TInterface) (JObject members) = [] ->
  (forall o, member "data" members = Some (JObject o) ->
             Jsonapi.UnmarshalJSON jar b
             = Go.Ok ({| Jsonapi.Data := Some [fields_of o] |}, None))
  /\ (forall objs, member "data" members = Some (JArray (map JObject objs)) ->
                   Jsonapi.UnmarshalJSON jar b
                   = Go.Ok ({| Jsonapi.Data := Some (map fields_of objs) |}, None)
                   /\ length (map fields_of objs) = length objs).
Proof.
  intros Hp Herr. unfold Jsonapi.UnmarshalJSON. rewrite Hp. split.
  - intros o Ho. now rewrite (UnmarshalJSON_doc_data jar members _ Herr Ho).
  - intros objs Ho. rewrite (UnmarshalJSON_doc_data jar members _ Herr Ho).
    cbn [to_any]. rewrite assert_maps_objects. split; [reflexivity|].
    apply length_map.
Qed.

Lemma C4_data_normalised_witness :
  Jsonapi.UnmarshalJSON {| Jsonapi.Data := None |}
    (Examples.json "{'jsonapi':{'version':'1.0'},'data':{'id':'x'}}")
  = Go.Ok ({| Jsonapi.Data := Some [fields_of [("id", JString "x")]] |}, None)
  /\ Jsonapi.UnmarshalJSON {| Jsonapi.Data := None |}
       (Examples.json "{'data':[{'id':'x'},{'id':'y','n':2}]}")
     = Go.Ok ({| Jsonapi.Data :=
                   Some [fields_of [("id", JString "x")];
                         fields_of [("id", JString "y"); ("n", JNumber (Lit "2"))]] |},
              None).
Proof.
  split.
  - apply (proj1 (C4_data_normalised {| Jsonapi.Data := None |}
                    (Examples.json "{'jsonapi':{'version':'1.0'},'data':{'id':'x'}}")
                    [("jsonapi", JObject [("version", JString "1.0")]);
                     ("data", JObject [("id", JString "x")])]
                    eq_refl eq_refl)).
    reflexivity.
  - apply (proj2 (C4_data_normalised {| Jsonapi.Data := None |}
                    (Examples.json "{'data':[{'id':'x'},{'id':'y','n':2}]}")
                    [("data", JArray [JObject [("id", JString "x")];
                                      JObject [("id", JString "y");
                                               ("n", JNumber (Lit "2"))]])]
                    eq_refl eq_refl)
              [[("id", JString "x")]; [("id", JString "y"); ("n", JNumber (Lit "2"))]]).
    reflexivity.
Defined.

End DecoderTheorems.

(** ** encoding/json: what decoding into interface{} and writing back keeps *)

Section MarshalFacts.
Import Strings Json.

Lemma float_of_finite (n : number) (f : spec_float) :
  float_of n = Some f -> is_finite f = true.
Proof.
  unfold float_of. destruct n as [text|g].
  - destruct (scan_number text) as [[p [|c r]]|]; try discriminate.
    destruct (is_finite (float_of_parts p)) eqn:E; [|discriminate].
    now intros [= <-].
  - destruct (is_finite g) eqn:E; [|discriminate]. now intros [= <-].
Qed.

Lemma insert_sorted_perm (x : string * doc) (l : list (string * doc)) :
  insert_sorted x l ≡ₚ x :: l.
Proof.
  induction l as [|y l IH]; [reflexivity|]. cbn [insert_sorted].
  destruct (String.leb x.1 y.1); [reflexivity|].
  rewrite IH. apply perm_swap.
Qed.

(** The members [Marshal] writes for a map, given what it writes for the
    values: the same members, in the order of their names. *)
Lemma marshal_members (g : value -> doc) (l : list (string * value)) :
  Forall (fun kv => marshal kv.2 = Some (g kv.2)) l ->
  exists l',
    foldr (uncurry (fun k x acc =>
                      match acc, marshal x with
                      | Some l, Some d => Some (insert_sorted (valid_utf8 k, d) l)
                      | _, _ => None
                      end)) (Some []) l = Some l'
    /\ l' ≡ₚ map (fun kv => (valid_utf8 kv.1, g kv.2)) l.
Proof.
  induction 1 as [|[k v] l Hv _ IH]; [now exists []|].
  destruct IH as (l' & Hl & Hp). cbn [foldr map]. rewrite Hl.
  cbn [uncurry fst snd] in Hv |- *. rewrite Hv. eexists. split; [reflexivity|].
  now rewrite insert_sorted_perm, Hp.
Qed.

Lemma marshal_Map (g : value -> doc) (m : gmap string value) :
  (forall k v, m !! k = Some v -> marshal v = Some (g v)) ->
  exists l', marshal (Map m) = Some (JObject l')
             /\ l' ≡ₚ map (fun kv => (valid_utf8 kv.1, g kv.2)) (map_to_list m).
Proof.
  intros Hm. cbn [marshal]. rewrite map_fold_foldr.
  destruct (marshal_members g (map_to_list m)) as (l' & -> & Hp).
  - apply Forall_forall. intros [k v] Hin. apply elem_of_map_to_list in Hin.
    now apply (Hm k).
  - now exists l'.
Qed.

Lemma mapM_map_Some {A B C} (f : B -> option C) (g : A -> B) (h : A -> C)
    (l : list A) :
  Forall (fun x => f (g x) = Some (h x)) l -> mapM f (map g l) = Some (map h l).
Proof.
  induction 1 as [|x l Hx _ IH]; [reflexivity|].
  cbn [map]. cbn. rewrite Hx. cbn. now rewrite IH.
Qed.

Lemma collect_lookup (dec : doc -> value) (ms : list (string * doc))
    (k : string) (v : value) :
  collect dec ms !! k = Some v -> exists kv, kv ∈ ms /\ kv.1 = k /\ v = dec kv.2.
Proof.
  unfold collect. intros H. apply elem_of_list_to_map_2 in H.
  rewrite elem_of_reverse in H. apply list_elem_of_fmap in H as (kv & [= -> ->] & Hin).
  now exists kv.
Qed.

(** [Marshal] accepts whatever the decoder put in an interface{}. *)
Lemma marshal_to_any (j : doc) : marshal (to_any j) = Some (normal j).
Proof.
  unfold normal. induction j as [|b|n|s|l IH|ms IH] using doc_induction;
    try reflexivity.
  - cbn [to_any]. destruct (float_of n) as [f|] eqn:E; [|reflexivity].
    cbn [marshal]. now rewrite (float_of_finite n f E).
  - cbn [to_any marshal].
    rewrite (mapM_map_Some marshal to_any
               (fun x => match marshal (to_any x) with Some d => d | None => JNull end) l);
      [reflexivity|].
    eapply Forall_impl; [exact IH|]. intros x Hx. exact Hx.
  - cbn [to_any].
    destruct (marshal_Map
                (fun v => match marshal v with Some d => d | None => JNull end)
                (collect to_any ms)) as (l' & -> & _); [|reflexivity].
    intros k v Hk. apply collect_lookup in Hk as (kv & Hin & _ & ->).
    rewrite Forall_forall in IH. now rewrite (IH kv Hin).
Qed.

Lemma normal_array (l : list doc) : normal (JArray l) = JArray (map normal l).
Proof.
  unfold normal at 1. cbn [to_any marshal].
  rewrite (mapM_map_Some marshal to_any normal l); [reflexivity|].
  apply Forall_forall. intros x _. apply marshal_to_any.
Qed.

Lemma NoDup_lower_keys (ms : list (string * doc)) :
  NoDup (map (fun kv => ToLower_ascii kv.1) ms) -> NoDup ms.*1.
Proof.
  intros H. apply (NoDup_fmap_1 ToLower_ascii).
  now rewrite <- list_fmap_compose.
Qed.

(** An object with distinct member names is written back with the same
    members, each value written back in turn, in the order of the names. *)
Lemma normal_object (ms : list (string * doc)) :
  NoDup ms.*1 ->
  exists l', normal (JObject ms) = JObject l'
             /\ l' ≡ₚ map (fun kv => (valid_utf8 kv.1, normal kv.2)) ms.
Proof.
  intros Hnd. unfold normal at 1. cbn [to_any].
  destruct (marshal_Map
              (fun v => match marshal v with Some d => d | None => JNull end)
              (collect to_any ms)) as (l' & -> & Hp).
  { intros k v Hk. apply collect_lookup in Hk as (kv & _ & _ & ->).
    now rewrite marshal_to_any. }
  exists l'. split; [reflexivity|]. rewrite Hp. unfold collect.
  assert (Hnd' : NoDup (reverse (map (fun kv => (kv.1, to_any kv.2)) ms)).*1).
  { rewrite fmap_reverse, reverse_Permutation.
    change (map (fun kv => (kv.1, to_any kv.2)) ms)
      with ((fun kv : string * doc => (kv.1, to_any kv.2)) <$> ms).
    now rewrite <- list_fmap_compose. }
  rewrite (map_to_list_to_map _ Hnd'), reverse_Permutation.
  rewrite map_map. cbn [fst snd]. unfold normal. reflexivity.
Qed.

End MarshalFacts.

(** ** encoding/json: decoding a document and its written-back form *)

Section DecodeFacts.
Import Strings Json.

(** A fold whose steps commute when their keys differ does not depend on
    the order of a list with distinct keys. *)
Lemma fold_left_permutation {A B K} (f : A -> B -> A) (key : B -> K)
    (l l' : list B) :
  (forall a x y, key x <> key y -> f (f a x) y = f (f a y) x) ->
  l ≡ₚ l' -> NoDup (map key l) -> forall a, fold_left f l a = fold_left f l' a.
Proof.
  intros Hc Hp. induction Hp as [|x l l' Hp IH|x y l|l1 l2 l3 H12 IH1 H23 IH2];
    intros Hnd a.
  - reflexivity.
  - cbn [fold_left]. apply IH. cbn [map] in Hnd. now apply NoDup_cons in Hnd as [_ ?].
  - cbn [fold_left]. f_equal. apply Hc. cbn [map] in Hnd.
    apply NoDup_cons in Hnd as [Hy _]. intros E. apply Hy. rewrite E. left.
  - rewrite (IH1 Hnd). apply IH2.
    change (map key l2) with (key <$> l2). rewrite <- H12. exact Hnd.
Qed.

Lemma index_where_Some {A} (p : A -> bool) (l : list A) (i : nat) :
  index_where p l = Some i -> exists x, l !! i = Some x /\ p x = true.
Proof.
  revert i. induction l as [|x l IH]; intros i; [discriminate|].
  cbn [index_where]. destruct (p x) eqn:Hp.
  - intros [= <-]. now exists x.
  - destruct (index_where p l) as [k|]; [|discriminate].
    intros [= <-]. destruct (IH k eq_refl) as (y & Hy & Hpy). now exists y.
Qed.

(** The field a name selects has that name, up to the case of letters. *)
Lemma find_field_fold {A} (fs : list (string * A)) (k : string) (i : nat) :
  find_field fs k = Some i ->
  exists f, fs !! i = Some f /\ ToLower_ascii f.1 = ToLower_ascii k.
Proof.
  unfold find_field.
  destruct (index_where (fun f => String.eqb f.1 k) fs) as [i'|] eqn:E.
  - intros [= <-]. apply index_where_Some in E as (f & Hf & Hk).
    apply String.eqb_eq in Hk. exists f. now rewrite Hk.
  - intros H. apply index_where_Some in H as (f & Hf & Hk).
    apply String.eqb_eq in Hk. now exists f.
Qed.

Lemma map_step_comm (dec : doc -> value) (m : gmap string value)
    (a b : string * doc) :
  a.1 <> b.1 -> map_step dec (map_step dec m a) b = map_step dec (map_step dec m b) a.
Proof. intros H. unfold map_step. now apply insert_insert_ne. Qed.

Lemma struct_step_comm (fs : list (string * gotype))
    (dec : gotype -> doc -> value -> value) (vs : list (string * value))
    (a b : string * doc) :
  ToLower_ascii a.1 <> ToLower_ascii b.1 ->
  struct_step fs dec (struct_step fs dec vs a) b
  = struct_step fs dec (struct_step fs dec vs b) a.
Proof.
  intros Hab. unfold struct_step.
  destruct (find_field fs a.1) as [i|] eqn:Ha;
    destruct (find_field fs b.1) as [j|] eqn:Hb; try reflexivity.
  assert (Hij : i <> j).
  { intros <-. apply find_field_fold in Ha as (f & Hf & Hfa).
    apply find_field_fold in Hb as (f' & Hf' & Hfb).
    rewrite Hf in Hf'. injection Hf' as <-. congruence. }
  destruct (fs !! i) as [fi|]; destruct (fs !! j) as [fj|]; try reflexivity.
  destruct (vs !! i) as [oi|] eqn:Hi; destruct (vs !! j) as [oj|] eqn:Hj;
    rewrite ?list_lookup_insert_ne, ?Hi, ?Hj by auto; try reflexivity.
  symmetry. now apply list_insert_insert_ne.
Qed.

Lemma decode_elems_ext (dec1 dec2 : doc -> value -> value) (g : doc -> doc)
    (z : value) (l : list doc) (olds : list value) :
  Forall (fun x => forall old, dec1 (g x) old = dec2 x old) l ->
  decode_elems dec1 z (map g l) olds = decode_elems dec2 z l olds.
Proof.
  intros H. revert olds. induction H as [|x l Hx _ IH]; intros olds; [reflexivity|].
  cbn [map decode_elems]. now rewrite Hx, IH.
Qed.

Lemma fold_map_step_ext (dec1 dec2 : doc -> value) (g : doc -> doc)
    (ms : list (string * doc)) (m : gmap string value) :
  Forall (fun kv => dec1 (g kv.2) = dec2 kv.2) ms ->
  fold_left (map_step dec1) (map (fun kv => (kv.1, g kv.2)) ms) m
  = fold_left (map_step dec2) ms m.
Proof.
  intros H. revert m. induction H as [|kv ms Hkv _ IH]; intros m; [reflexivity|].
  cbn [map fold_left]. rewrite <- IH. f_equal. unfold map_step. cbn [fst snd].
  now rewrite Hkv.
Qed.

Lemma fold_struct_step_ext (fs : list (string * gotype))
    (dec : gotype -> doc -> value -> value) (g : doc -> doc)
    (ms : list (string * doc)) (vs : list (string * value)) :
  Forall (fun kv => forall t old, dec t (g kv.2) old = dec t kv.2 old) ms ->
  fold_left (struct_step fs dec) (map (fun kv => (kv.1, g kv.2)) ms) vs
  = fold_left (struct_step fs dec) ms vs.
Proof.
  intros H. revert vs. induction H as [|kv ms Hkv _ IH]; intros vs; [reflexivity|].
  cbn [map fold_left]. rewrite <- IH. f_equal. unfold struct_step. cbn [fst snd].
  destruct (find_field fs kv.1) as [i|]; [|reflexivity].
  destruct (fs !! i) as [f|]; [|reflexivity].
  destruct (vs !! i) as [old|]; [|reflexivity]. now rewrite Hkv.
Qed.

Lemma forallb_Forall {A} (f : A -> bool) (l : list A) :
  forallb f l = true -> Forall (fun x => f x = true) l.
Proof.
  induction l as [|x l IH]; cbn [forallb]; intros H; constructor;
    apply andb_prop in H as [H1 H2]; auto.
Qed.

Lemma canonical_object (ms : list (string * doc)) :
  canonical (JObject ms) = true ->
  NoDup (map (fun kv => ToLower_ascii kv.1) ms)
  /\ Forall (fun kv => valid_utf8 kv.1 = kv.1 /\ canonical kv.2 = true) ms.
Proof.
  cbn [canonical]. intros H. apply andb_prop in H as [H1 H2].
  apply bool_decide_eq_true in H1. split; [exact H1|].
  apply forallb_Forall in H2. eapply Forall_impl; [exact H2|].
  intros kv Hkv. apply andb_prop in Hkv as [Hk Hc].
  now apply bool_decide_eq_true in Hk.
Qed.

Lemma canonical_array (l : list doc) :
  canonical (JArray l) = true -> Forall (fun x => canonical x = true) l.
Proof.
  cbn [canonical]. apply forallb_Forall.
Qed.

Lemma concat_nil_Forall {A} (ls : list (list A)) :
  concat ls = [] -> Forall (fun l => l = []) ls.
Proof.
  induction ls as [|l ls IH]; [constructor|]. cbn [concat]. intros H.
  apply app_eq_nil in H as [-> H]. constructor; auto.
Qed.

(** The heart of C2: a canonical document whose numbers fit a float64 and
    the document written back for it decode alike, into every type and on
    top of every value. *)
Lemma decode_normal (j : doc) :
  canonical j = true -> any_errors j = [] ->
  forall ty cur, decode ty (normal j) cur = decode ty j cur.
Proof.
  induction j as [|b|n|s|l IH|ms IH] using doc_induction; intros Hc He ty cur.
  - reflexivity.
  - reflexivity.
  - cbn [any_errors] in He. destruct (float_of n) as [f|] eqn:E; [|discriminate].
    unfold normal. cbn [to_any]. rewrite E. cbn [marshal].
    rewrite (float_of_finite n f E). cbn [decode float_of].
    rewrite (float_of_finite n f E), E. reflexivity.
  - cbn [canonical] in Hc. apply bool_decide_eq_true in Hc.
    unfold normal. cbn [to_any marshal]. now rewrite Hc.
  - apply canonical_array in Hc. cbn [any_errors] in He.
    apply concat_nil_Forall in He. rewrite Forall_fmap in He.
    rewrite normal_array.
    assert (Hall : Forall (fun x => forall ty cur,
                              decode ty (normal x) cur = decode ty x cur) l).
    { apply Forall_forall. intros x Hx. rewrite Forall_forall in IH, Hc, He.
      apply IH; [exact Hx | apply Hc, Hx | apply (He x Hx)]. }
    destruct ty; try reflexivity.
    + cbn [decode]. f_equal. rewrite map_map. apply map_ext_Forall.
      eapply Forall_impl; [exact Hall|]. intros x Hx.
      rewrite <- !decode_interface_nil. apply Hx.
    + cbn [decode]. f_equal. apply decode_elems_ext.
      eapply Forall_impl; [exact Hall|]. intros x Hx old. apply Hx.
  - apply canonical_object in Hc as [Hnd Hc]. cbn [any_errors] in He.
    apply concat_nil_Forall in He. rewrite Forall_fmap in He.
    destruct (normal_object ms (NoDup_lower_keys ms Hnd)) as (l' & -> & Hp).
    assert (Hkeys : map (fun kv => (valid_utf8 kv.1, normal kv.2)) ms
                    = map (fun kv => (kv.1, normal kv.2)) ms).
    { apply map_ext_Forall. eapply Forall_impl; [exact Hc|].
      intros kv [Hk _]. now rewrite Hk. }
    rewrite Hkeys in Hp. clear Hkeys.
    assert (Hall : Forall (fun kv => forall ty cur,
                              decode ty (normal kv.2) cur = decode ty kv.2 cur) ms).
    { apply Forall_forall. intros kv Hkv. rewrite Forall_forall in IH, Hc, He.
      apply IH; [exact Hkv | apply Hc, Hkv | apply (He kv Hkv)]. }
    assert (Hfold : map (fun kv => ToLower_ascii kv.1)
                      (map (fun kv => (kv.1, normal kv.2)) ms)
                    = map (fun kv => ToLower_ascii kv.1) ms)
      by (now rewrite map_map).
    assert (Hnd1 : NoDup (map (fun kv : string * doc => ToLower_ascii kv.1) l')).
    { change (NoDup ((fun kv : string * doc => ToLower_ascii kv.1) <$> l')).
      rewrite Hp. change (NoDup (map (fun kv => ToLower_ascii kv.1)
                                   (map (fun kv => (kv.1, normal kv.2)) ms))).
      now rewrite Hfold. }
    destruct ty; try reflexivity.
    + cbn [decode]. f_equal. unfold fields_of, collect.
      rewrite (list_to_map_proper
                 (reverse (map (fun kv => (kv.1, to_any kv.2)) l'))
                 (reverse (map (fun kv => (kv.1, to_any kv.2))
                             (map (fun kv => (kv.1, normal kv.2)) ms)))).
      * f_equal. f_equal. rewrite map_map. apply map_ext_Forall.
        eapply Forall_impl; [exact Hall|]. intros kv Hkv. cbn [fst snd].
        f_equal. rewrite <- !decode_interface_nil. apply Hkv.
      * rewrite fmap_reverse, reverse_Permutation.
        change (NoDup (((fun kv : string * value => kv.1)
                        <$> ((fun kv : string * doc => (kv.1, to_any kv.2)) <$> l')))).
        rewrite <- list_fmap_compose.
        apply (NoDup_fmap_1 ToLower_ascii). rewrite <- list_fmap_compose.
        exact Hnd1.
      * rewrite !reverse_Permutation.
        change (((fun kv : string * doc => (kv.1, to_any kv.2)) <$> l')
                ≡ₚ ((fun kv : string * doc => (kv.1, to_any kv.2))
                    <$> map (fun kv => (kv.1, normal kv.2)) ms)).
        now rewrite Hp.
    + cbn [decode]. f_equal.
      rewrite (fold_left_permutation _ (fun kv : string * doc => kv.1) l'
                 (map (fun kv => (kv.1, normal kv.2)) ms)).
      * apply fold_map_step_ext. eapply Forall_impl; [exact Hall|].
        intros kv Hkv. apply Hkv.
      * intros m a b. apply map_step_comm.
      * exact Hp.
      * apply (NoDup_fmap_1 ToLower_ascii).
        change (NoDup (ToLower_ascii <$> ((fun kv : string * doc => kv.1) <$> l'))).
        rewrite <- list_fmap_compose. exact Hnd1.
    + cbn [decode]. f_equal.
      rewrite (fold_left_permutation _ (fun kv : string * doc => ToLower_ascii kv.1)
                 l' (map (fun kv => (kv.1, normal kv.2)) ms)).
      * apply fold_struct_step_ext. eapply Forall_impl; [exact Hall|].
        intros kv Hkv t old. apply Hkv.
      * intros vs a b. apply struct_step_comm.
      * exact Hp.
      * exact Hnd1.
Qed.

End DecodeFacts.

(** ** JsonApiResponse.To *)

Section ProjectionTheorems.
Import Strings Json.

Lemma head_None_nil {A} (l : list A) : head l = None -> l = [].
Proof. now destruct l. Qed.

(** A body that [UnmarshalJSON] decodes without error is an object that
    [json.Unmarshal] decodes into the generic map without error. *)
Lemma UnmarshalJSON_ok_errors (jar0 jar : Jsonapi.JsonApiResponse) (b : string)
    (j : doc) :
  Json.parse b = Some j ->
  Jsonapi.UnmarshalJSON jar0 b = Go.Ok (jar, None) ->
  decode_errors (TMap TInterface) j = [].
Proof.
  intros Hp. unfold Jsonapi.UnmarshalJSON, Jsonapi.UnmarshalJSON_doc. rewrite Hp.
  destruct (head (decode_errors (TMap TInterface) j)) eqn:E; [discriminate|].
  intros _. now apply head_None_nil.
Qed.

Lemma UnmarshalJSON_objects (jar : Jsonapi.JsonApiResponse) (b : string)
    (members : list (string * doc)) (objs : list (list (string * doc))) :
  Json.parse b = Some (JObject members) ->
  decode_errors (TMap TInterface) (JObject members) = [] ->
  member "data" members = Some (JArray (map JObject objs)) ->
  Jsonapi.UnmarshalJSON jar b
  = Go.Ok ({| Jsonapi.Data := Some (map fields_of objs) |}, None).
Proof.
  intros Hp Herr Ho. unfold Jsonapi.UnmarshalJSON. rewrite Hp.
  rewrite (UnmarshalJSON_doc_data jar members _ Herr Ho).
  cbn [to_any]. now rewrite assert_maps_objects.
Qed.

Lemma member_app_data (pre post : list (string * doc)) (d : doc) :
  member "data" post = None ->
  member "data" (pre ++ ("data", d) :: post) = Some d.
Proof.
  intros Hpost. induction pre as [|kv pre IH].
  - cbn [app member]. now rewrite Hpost.
  - cbn [app member]. now rewrite IH.
Qed.

Lemma member_None_unselected {A} (fs : list (string * A)) (ms : list (string * doc))
    (k : string) :
  is_Some (find_field fs k) ->
  Forall (fun kv => find_field fs kv.1 = None) ms -> member k ms = None.
Proof.
  intros [i Hi]. induction 1 as [|kv ms Hkv _ IH]; [reflexivity|].
  cbn [member]. rewrite IH. destruct (String.eqb kv.1 k) eqn:E; [|reflexivity].
  apply String.eqb_eq in E. subst k. congruence.
Qed.

(** Members that select no field leave a struct as it is. *)
Lemma fold_struct_step_skip (fs : list (string * gotype))
    (dec : gotype -> doc -> value -> value) (ms : list (string * doc))
    (vs : list (string * value)) :
  Forall (fun kv => find_field fs kv.1 = None) ms ->
  fold_left (struct_step fs dec) ms vs = vs.
Proof.
  induction 1 as [|kv ms Hkv _ IH]; [reflexivity|].
  cbn [fold_left]. unfold struct_step at 2. now rewrite Hkv.
Qed.

Lemma any_errors_member (ms : list (string * doc)) (kv : string * doc) :
  decode_errors (TMap TInterface) (JObject ms) = [] -> kv ∈ ms ->
  any_errors kv.2 = [].
Proof.
  cbn [decode_errors]. intros H Hin. apply concat_nil_Forall in H.
  rewrite Forall_fmap, Forall_forall in H. specialize (H kv Hin).
  cbn in H. now rewrite decode_errors_interface in H.
Qed.

Lemma to_any_objects (objs : list (list (string * doc))) :
  Slice (map Map (map fields_of objs)) = to_any (JArray (map JObject objs)).
Proof. cbn [to_any]. now rewrite !map_map. Qed.

(** What [Marshal] writes for a decoded response: one member, [Data], with
    the array of the objects written back. *)
Lemma Marshal_decoded (objs : list (list (string * doc))) :
  Jsonapi.Marshal {| Jsonapi.Data := Some (map fields_of objs) |}
  = Some (JObject [("Data", normal (JArray (map JObject objs)))]).
Proof.
  unfold Jsonapi.Marshal. cbn [Jsonapi.Data].
  now rewrite to_any_objects, marshal_to_any.
Qed.

Lemma assert_maps_inv (l : list value) (ms : list (gmap string value)) :
  Jsonapi.assert_maps l = Go.Ok ms -> l = map Map ms.
Proof.
  revert ms. induction l as [|v l IH]; intros ms.
  - now intros [= <-].
  - cbn [Jsonapi.assert_maps]. destruct v; try discriminate.
    destruct (Jsonapi.assert_maps l) as [ms'|]; [|discriminate].
    intros [= <-]. cbn [map]. now rewrite (IH ms' eq_refl).
Qed.

(** A response that [UnmarshalJSON] has filled without error is one that
    [json.Marshal] writes: an object with the one member [Data]. *)
Lemma Marshal_after_UnmarshalJSON (jar0 jar : Jsonapi.JsonApiResponse) (b : string) :
  Jsonapi.UnmarshalJSON jar0 b = Go.Ok (jar, None) ->
  exists d, Jsonapi.Marshal jar = Some (JObject [("Data", d)]).
Proof.
  unfold Jsonapi.UnmarshalJSON. destruct (Json.parse b) as [j|]; [|discriminate].
  unfold Jsonapi.UnmarshalJSON_doc.
  destruct (head (decode_errors (TMap TInterface) j)); [discriminate|].
  assert (He : forall e, map_of (decode (TMap TInterface) j (Map ∅)) !! "data" = Some e ->
                         exists x, e = to_any x).
  { intros e. destruct j as [|c|n|s|l|ms]; cbn [decode map_of];
      try (rewrite lookup_empty; discriminate).
    rewrite fold_map_step_lookup. destruct (member "data" ms) as [x|].
    - intros [= <-]. exists x. cbn [zero]. apply decode_interface_nil.
    - rewrite lookup_empty. discriminate. }
  destruct (map_of (decode (TMap TInterface) j (Map ∅)) !! "data") as [e|];
    [|discriminate].
  destruct (He e eq_refl) as [x ->]. clear He.
  destruct (to_any x) as [| | | |l|m|] eqn:Ex; try discriminate.
  - destruct (Jsonapi.assert_maps l) as [ms|] eqn:Em; [|discriminate].
    intros [= <-]. unfold Jsonapi.Marshal. cbn [Jsonapi.Data].
    rewrite <- (assert_maps_inv l ms Em), <- Ex, marshal_to_any. eauto.
  - intros [= <-]. unfold Jsonapi.Marshal. cbn [Jsonapi.Data map].
    rewrite <- Ex. change (marshal (Slice [to_any x]))
      with (marshal (to_any (JArray [x]))).
    rewrite marshal_to_any. eauto.
Qed.

(** Read back into a [JsonApiResponse], what [Marshal] wrote never fills
    it: the member is [Data], and [UnmarshalJSON] looks [data] up. *)
Lemma UnmarshalJSON_doc_of_Marshal (r : Jsonapi.JsonApiResponse) (d : doc) :
  exists err, Jsonapi.UnmarshalJSON_doc r (JObject [("Data", d)])
              = Go.Ok (r, Some err).
Proof.
  unfold Jsonapi.UnmarshalJSON_doc.
  destruct (head (decode_errors (TMap TInterface) (JObject [("Data", d)])))
    as [err|]; [now exists err|].
  cbn [decode map_of]. rewrite fold_map_step_lookup. cbn [member].
  change (String.eqb "Data" "data") with false. cbv iota.
  rewrite lookup_empty. now exists MissingDataKey.
Qed.

(** C2, as stated, fails.  First, [To] reads back what [Marshal] wrote, an
    object with the one member [Data] holding an array: a body whose [data]
    is a single object projects to one element, where decoding the raw
    bytes directly into the same typed structure stores none (an object
    does not fit a slice).  Second, for a target that is itself a
    [JsonApiResponse] the projection finds no [data] member and leaves the
    target empty, where the raw bytes decode to one element. *)
Lemma C2_counterexample :
  let b := Examples.json "{'data':{'id':'x'}}" in
  let jar := {| Jsonapi.Data := Some [{[ "id" := Str "x" ]}] |} in
  Jsonapi.UnmarshalJSON {| Jsonapi.Data := None |} b = Go.Ok (jar, None)
  /\ Jsonapi.To jar (Jsonapi.Ptr Examples.id_list (zero Examples.id_list))
       Examples.offline
     = Returns (Jsonapi.Ptr Examples.id_list
                  (Struct [("data", Slice [Struct [("id", Str "x")]])]))
         Examples.offline
  /\ Jsonapi.Unmarshal b (Jsonapi.Ptr Examples.id_list (zero Examples.id_list))
     = Go.Ok (Jsonapi.Ptr Examples.id_list (Struct [("data", Nil)]),
              Some (UnmarshalTypeError KObject
                      (TSlice (TStruct [("id", TString)]))))
  /\ Jsonapi.To jar (Jsonapi.ResponsePtr {| Jsonapi.Data := None |}) Examples.offline
     = Returns (Jsonapi.ResponsePtr {| Jsonapi.Data := None |}) Examples.offline
  /\ Jsonapi.Unmarshal b (Jsonapi.ResponsePtr {| Jsonapi.Data := None |})
     = Go.Ok (Jsonapi.ResponsePtr jar, None).
Proof. repeat split; vm_compute; reflexivity. Qed.

(** C2 (amended): take a raw response body that [UnmarshalJSON] decodes
    without error and whose [data] member is an array (of objects in which
    the member names of one object differ by more than letter case and the
    strings are valid UTF-8), and a target that is a pointer to a struct
    (with fields of the types bool, string, float64, interface{}, slice, map
    and struct) in which the names [Data] and [data] select the same field
    and no other top-level member of the body selects a field.  Then
    projecting the decoded envelope into the target via [To] yields the
    value that deserializing the same raw bytes directly into the target
    yields. *)
Theorem C2_projection_equals_direct_decoding (b : string)
    (jar0 jar : Jsonapi.JsonApiResponse)
    (pre post : list (string * doc)) (objs : list (list (string * doc)))
    (fs : list (string * gotype)) (cur : value) (w : World) :
  Json.parse b = Some (JObject (pre ++ ("data", JArray (map JObject objs)) :: post)) ->
  Jsonapi.UnmarshalJSON jar0 b = Go.Ok (jar, None) ->
  Forall (fun kv => find_field fs kv.1 = None) pre ->
  Forall (fun kv => find_field fs kv.1 = None) post ->
  find_field fs "Data" = find_field fs "data" ->
  Forall (fun o => canonical (JObject o) = true) objs ->
  Jsonapi.To jar (Jsonapi.Ptr (TStruct fs) cur) w
  = Returns (Jsonapi.Ptr (TStruct fs) (Json.Unmarshal b (TStruct fs) cur).1) w.
Proof.
  intros Hp Hjar Hpre Hpost Hsame Hcan.
  pose proof (UnmarshalJSON_ok_errors jar0 jar b _ Hp Hjar) as Herr.
  unfold Json.Unmarshal. rewrite Hp. cbn [fst].
  set (X := JArray (map JObject objs)) in *.
  assert (HX : forall ty old, decode ty (normal X) old = decode ty X old).
  { apply decode_normal.
    - subst X. cbn [canonical]. rewrite forallb_forall. intros x Hx.
      apply in_map_iff in Hx as (o & <- & Ho).
      rewrite Forall_forall in Hcan. apply Hcan. now apply list_elem_of_In.
    - apply (any_errors_member _ ("data", X) Herr).
      apply list_elem_of_In, in_or_app. right. now left. }
  (* what the direct decoding does *)
  assert (Hdirect :
            decode (TStruct fs) (JObject (pre ++ ("data", X) :: post)) cur
            = Struct (struct_step fs (fun t x old => decode t x old)
                        (struct_fields fs cur) ("data", X))).
  { cbn [decode]. rewrite fold_left_app. cbn [fold_left].
    now rewrite (fold_struct_step_skip _ _ pre _ Hpre),
      (fold_struct_step_skip _ _ post _ Hpost). }
  rewrite Hdirect. clear Hdirect.
  (* what the projection does *)
  assert (Hto : forall d, Jsonapi.Marshal jar = Some (JObject [("Data", d)]) ->
                          Jsonapi.To jar (Jsonapi.Ptr (TStruct fs) cur) w
                          = Returns
                              (Jsonapi.Ptr (TStruct fs)
                                 (Struct (struct_step fs (fun t x old => decode t x old)
                                            (struct_fields fs cur) ("Data", d)))) w).
  { intros d Hd. unfold Jsonapi.To. now rewrite Hd. }
  destruct (find_field fs "data") as [i|] eqn:Hdata.
  - (* the struct has a field for the data: the response holds them *)
    assert (Hm : member "data" (pre ++ ("data", X) :: post) = Some X).
    { apply member_app_data.
      apply (member_None_unselected fs); [now exists i | exact Hpost]. }
    pose proof (UnmarshalJSON_objects jar0 b _ objs Hp Herr Hm) as Hjar'.
    rewrite Hjar in Hjar'. injection Hjar' as ->.
    rewrite (Hto _ (Marshal_decoded objs)).
    do 2 f_equal. unfold struct_step. cbn [fst snd]. rewrite Hsame, Hdata.
    destruct (fs !! i) as [f|]; [|reflexivity].
    destruct (struct_fields fs cur !! i) as [old|]; [|reflexivity].
    fold X. now rewrite HX.
  - (* no field for the data: neither way touches the target *)
    pose proof (Marshal_after_UnmarshalJSON jar0 jar b Hjar) as Hsome.
    destruct Hsome as (d & Hd). rewrite (Hto d Hd).
    do 2 f_equal. unfold struct_step. cbn [fst]. now rewrite Hsame, Hdata.
Qed.

Lemma C2_projection_equals_direct_decoding_witness :
  let b := Examples.json
             "{'jsonapi':{'version':'1.0'},'data':[{'id':'x','type':'t'},{'id':'y'}]}" in
  let jar := {| Jsonapi.Data :=
                  Some (map fields_of [[("id", JString "x"); ("type", JString "t")];
                                       [("id", JString "y")]]) |} in
  Jsonapi.To jar (Jsonapi.Ptr Examples.id_list (zero Examples.id_list))
    Examples.offline
  = Returns
      (Jsonapi.Ptr Examples.id_list
         (Json.Unmarshal b Examples.id_list (zero Examples.id_list)).1)
      Examples.offline
  /\ (Json.Unmarshal b Examples.id_list (zero Examples.id_list)).1
     = Struct [("data", Slice [Struct [("id", Str "x")]; Struct [("id", Str "y")]])].
Proof.
  split; [|vm_compute; reflexivity].
  refine (C2_projection_equals_direct_decoding
            (Examples.json
               "{'jsonapi':{'version':'1.0'},'data':[{'id':'x','type':'t'},{'id':'y'}]}")
            {| Jsonapi.Data := None |}
            {| Jsonapi.Data :=
                 Some (map fields_of [[("id", JString "x"); ("type", JString "t")];
                                      [("id", JString "y")]]) |}
            [("jsonapi", JObject [("version", JString "1.0")])] []
            [[("id", JString "x"); ("type", JString "t")]; [("id", JString "y")]]
            [("data", TSlice (TStruct [("id", TString)]))]
            (zero Examples.id_list) Examples.offline _ _ _ _ _ _).
  - vm_compute; reflexivity.
  - vm_compute; reflexivity.
  - repeat constructor.
  - constructor.
  - reflexivity.
  - repeat constructor.
Defined.

(** C10: for every response that [UnmarshalJSON] has decoded without error
    and every target (a pointer to a typed structure with its current
    value, a pointer to a [JsonApiResponse], or a value [json.Unmarshal]
    refuses), [Marshal] succeeds and [To] returns normally, leaving the test
    state as it was (not marked failed, nothing reported or logged), with
    the target as the final [json.Unmarshal] left it, whatever error that
    call returned.  For a target that is a [JsonApiResponse] the final call
    always returns an error and the target stays as it was. *)
Theorem C10_To_discards_unmarshal_error (jar0 jar : Jsonapi.JsonApiResponse)
    (b : string) (v : Jsonapi.target) (w : World) :
  Jsonapi.UnmarshalJSON jar0 b = Go.Ok (jar, None) ->
  exists d v' err,
    Jsonapi.Marshal jar = Some d
    /\ Jsonapi.Unmarshal_doc d v = Go.Ok (v', err)
    /\ Jsonapi.To jar v w = Returns v' w
    /\ (forall r, v = Jsonapi.ResponsePtr r -> v' = v /\ err <> None).
Proof.
  intros Hjar.
  destruct (Marshal_after_UnmarshalJSON jar0 jar b Hjar) as [x Hd].
  exists (JObject [("Data", x)]). unfold Jsonapi.To. rewrite Hd.
  destruct v as [|r|ty cur].
  - exists Jsonapi.NotPointer, (Some InvalidUnmarshalError).
    repeat split; discriminate.
  - destruct (UnmarshalJSON_doc_of_Marshal r x) as [err Herr].
    exists (Jsonapi.ResponsePtr r), (Some err).
    unfold Run.lift, mbind, M_bind, mret, M_ret.
    cbn [Jsonapi.Unmarshal_doc]. rewrite Herr.
    repeat split; discriminate.
  - exists (Jsonapi.Ptr ty (decode ty (JObject [("Data", x)]) cur)),
      (head (decode_errors ty (JObject [("Data", x)]))).
    repeat split; discriminate.
Qed.

Lemma C10_To_discards_unmarshal_error_witness :
  let b := Examples.json "{'data':[{'id':5,'type':'x'}]}" in
  let jar := {| Jsonapi.Data :=
                  Some (map fields_of [[("id", JNumber (Lit "5"));
                                        ("type", JString "x")]]) |} in
  let v := Jsonapi.Ptr Examples.id_type_list (zero Examples.id_type_list) in
  (exists d v' err,
      Jsonapi.Marshal jar = Some d
      /\ Jsonapi.Unmarshal_doc d v = Go.Ok (v', err)
      /\ Jsonapi.To jar v Examples.offline = Returns v' Examples.offline
      /\ (forall r, v = Jsonapi.ResponsePtr r -> v' = v /\ err <> None))
  /\ (let five := OfFloat (S754_finite false 5629499534213120 (-50)) in
      let d := JObject [("Data", JArray [JObject [("id", JNumber five);
                                                  ("type", JString "x")]])] in
      Jsonapi.Marshal jar = Some d
      /\ Jsonapi.Unmarshal_doc d v
         = Go.Ok (Jsonapi.Ptr Examples.id_type_list
                    (Struct [("data", Slice [Struct [("id", Str "");
                                                     ("type", Str "x")]])]),
                  Some (UnmarshalTypeError (KNumber five) TString)))
  /\ Jsonapi.To jar v Examples.offline
     = Returns (Jsonapi.Ptr Examples.id_type_list
                  (Struct [("data", Slice [Struct [("id", Str "");
                                                   ("type", Str "x")]])]))
         Examples.offline.
Proof.
  split; [|split].
  - refine (C10_To_discards_unmarshal_error {| Jsonapi.Data := None |} _
              (Examples.json "{'data':[{'id':5,'type':'x'}]}") _ Examples.offline _).
    vm_compute; reflexivity.
  - split; vm_compute; reflexivity.
  - vm_compute; reflexivity.
Defined.

End ProjectionTheorems.

(** ** strings.Split with a non-empty separator *)

Section SplitFacts.
Import Strings.

Lemma HasPrefix_take (n : nat) (s p : string) :
  HasPrefix (take n s) p = true -> HasPrefix s p = true.
Proof.
  unfold HasPrefix. revert n s. induction p as [|c p IH]; intros n s H.
  - now destruct s.
  - destruct n as [|n], s as [|d s]; try discriminate.
    cbn [take] in H. rewrite prefix_cons in H |- *.
    destruct (ascii_dec c d); [|discriminate]. now apply (IH n).
Qed.

Lemma HasPrefix_nil (p : string) : p <> "" -> HasPrefix "" p = false.
Proof. now destruct p. Qed.

(** Nothing occurs before the first occurrence. *)
Lemma Index_take_None (s sep : string) (m : nat) :
  sep <> "" -> Index s sep = Some m -> Index (take m s) sep = None.
Proof.
  intros Hsep. revert m. induction s as [|c s IH]; intros m.
  - rewrite Index_nil, (HasPrefix_nil sep Hsep). discriminate.
  - rewrite Index_cons. destruct (HasPrefix (String c s) sep) eqn:Hp.
    + intros [= <-]. cbn [take]. now rewrite Index_nil, (HasPrefix_nil sep Hsep).
    + destruct (Index s sep) as [k|] eqn:Hk; [|discriminate].
      intros [= <-]. cbn [take]. rewrite Index_cons, (IH k eq_refl).
      destruct (HasPrefix (String c (take k s)) sep) eqn:Hp'; [|reflexivity].
      apply (HasPrefix_take (S k) (String c s)) in Hp'. congruence.
Qed.

Lemma len_take_le (n : nat) (s : string) : n <= len s -> len (take n s) = n.
Proof.
  revert s. induction n as [|n IH]; intros [|c s]; simpl; try lia.
  intros H. rewrite IH; lia.
Qed.

Lemma len_drop_minus (n : nat) (s : string) : len (drop n s) = len s - n.
Proof. revert s. induction n as [|n IH]; intros [|c s]; simpl; auto. Qed.

Lemma Index_Some_le (s sep : string) (m : nat) :
  Index s sep = Some m -> m + len sep <= len s.
Proof.
  intros H. destruct (Index_Some_split s sep m H) as [Hs Hl].
  apply (f_equal len) in Hs. rewrite !len_app, Hl in Hs. lia.
Qed.

(** [len s] rounds are enough for the loop of [genSplit]. *)
Lemma genSplit_enough (fuel : nat) (s sep : string) :
  sep <> "" -> len s <= fuel -> genSplit fuel s sep = genSplit (len s) s sep.
Proof.
  intros Hsep. assert (Hpos : 0 < len sep) by (destruct sep; simpl; [easy | lia]).
  revert s. induction fuel as [fuel IH] using lt_wf_ind. intros s Hle.
  destruct (Index s sep) as [m|] eqn:Hi;
    [|now rewrite !genSplit_no_sep].
  pose proof (Index_Some_le s sep m Hi) as Hm.
  destruct fuel as [|fuel]; [lia|].
  destruct (len s) as [|n] eqn:Hn; [lia|].
  rewrite !(genSplit_step _ s sep m Hi). f_equal.
  assert (Hd : len (drop (m + len sep) s) <= n)
    by (rewrite len_drop_minus; lia).
  rewrite (IH fuel) by lia. symmetry. apply IH; lia.
Qed.

Lemma Split_cut (s sep : string) (m : nat) :
  sep <> "" -> Index s sep = Some m ->
  Split s sep = take m s :: Split (drop (m + len sep) s) sep.
Proof.
  intros Hsep Hi. pose proof (Index_Some_le s sep m Hi) as Hm.
  assert (Hpos : 0 < len sep) by (destruct sep; simpl; [easy | lia]).
  unfold Split. destruct sep as [|c sep]; [easy|].
  destruct (len s) as [|n] eqn:Hn; [lia|].
  rewrite (genSplit_step _ s _ m Hi). f_equal.
  apply genSplit_enough; [easy|]. rewrite len_drop_minus. lia.
Qed.

Lemma Split_whole (s sep : string) :
  sep <> "" -> Index s sep = None -> Split s sep = [s].
Proof.
  intros Hsep Hi. unfold Split. destruct sep; [easy|].
  now apply genSplit_no_sep.
Qed.

(** Induction on a string along the cuts of [Split]. *)
Lemma Split_ind (sep : string) (Hsep : sep <> "") (P : string -> Prop) :
  (forall s, Index s sep = None -> P s) ->
  (forall s m, Index s sep = Some m -> P (drop (m + len sep) s) -> P s) ->
  forall s, P s.
Proof.
  intros Hnone Hcut s.
  assert (Hpos : 0 < len sep) by (destruct sep; simpl; [easy | lia]).
  remember (len s) as n eqn:Hn. revert s Hn.
  induction n as [n IH] using lt_wf_ind. intros s ->.
  destruct (Index s sep) as [m|] eqn:Hi; [|now apply Hnone].
  apply (Hcut s m Hi). pose proof (Index_Some_le s sep m Hi).
  apply (IH (len (drop (m + len sep) s))); [|reflexivity].
  rewrite len_drop_minus. lia.
Qed.

(** No piece holds the separator. *)
Lemma Split_pieces (s sep : string) :
  sep <> "" -> Forall (fun e => Contains e sep = false) (Split s sep).
Proof.
  intros Hsep. induction s as [s Hi|s m Hi IH] using (Split_ind sep Hsep).
  - rewrite (Split_whole s sep Hsep Hi). constructor; [|constructor].
    unfold Contains. now rewrite Hi.
  - rewrite (Split_cut s sep m Hsep Hi). constructor; [|exact IH].
    unfold Contains. now rewrite (Index_take_None s sep m Hsep Hi).
Qed.

(** The pieces joined with the separator give the string back. *)
Lemma Join_cons (x : string) (l : list string) (sep : string) :
  l <> [] -> Join (x :: l) sep = x +:+ sep +:+ Join l sep.
Proof. now destruct l. Qed.

Lemma Split_not_nil (s sep : string) : sep <> "" -> Split s sep <> [].
Proof.
  intros Hsep. destruct (Index s sep) as [m|] eqn:Hi.
  - now rewrite (Split_cut s sep m Hsep Hi).
  - now rewrite (Split_whole s sep Hsep Hi).
Qed.

Lemma Join_Split (s sep : string) : sep <> "" -> Join (Split s sep) sep = s.
Proof.
  intros Hsep. induction s as [s Hi|s m Hi IH] using (Split_ind sep Hsep).
  - now rewrite (Split_whole s sep Hsep Hi).
  - rewrite (Split_cut s sep m Hsep Hi), Join_cons by now apply Split_not_nil.
    rewrite IH. symmetry. apply (Index_Some_split s sep m Hi).
Qed.

End SplitFacts.

(** ** DrupalType: labels of any shape *)

Section DrupalTypeShapes.
Import Strings.

(** X1: [Entity()] never panics.  It returns the text before the first
    separator [--], a text that holds no separator itself; for a label
    without separator that is the whole label. *)
Theorem Entity_text_before_first_separator (t : Jsonapi.DrupalType) :
  exists x,
    Jsonapi.Entity t = Go.Ok x
    /\ Contains x "--" = false
    /\ (Contains t "--" = false -> x = t)
    /\ (Contains t "--" = true -> exists rest, t = x +:+ "--" +:+ rest).
Proof.
  unfold Jsonapi.Entity, Contains.
  destruct (Index t "--") as [m|] eqn:Hi.
  - rewrite (Split_cut t "--" m) by easy. exists (take m t).
    rewrite (Index_take_None t "--" m) by easy.
    repeat split; [discriminate|]. intros _.
    exists (drop (m + len "--") t). apply (Index_Some_split t "--" m Hi).
  - rewrite (Split_whole t "--") by easy. exists t. rewrite Hi.
    repeat split. discriminate.
Qed.

Lemma Entity_text_before_first_separator_witness :
  Jsonapi.Entity "user" = Go.Ok "user".
Proof.
  destruct (Entity_text_before_first_separator "user") as (x & -> & _ & Hw & _).
  f_equal. apply Hw. reflexivity.
Defined.

(** X2: [Bundle()] returns exactly when the label holds a separator, and
    what it returns is the text between the first separator and the next
    one (or the end of the label): the label is the entity, the separator,
    the bundle and a rest that is empty or starts with a separator, and the
    bundle holds no separator. *)
Theorem Bundle_text_between_separators (t : Jsonapi.DrupalType) :
  (Contains t "--" = true -> exists y, Jsonapi.Bundle t = Go.Ok y)
  /\ (forall y, Jsonapi.Bundle t = Go.Ok y ->
        exists x rest,
          Jsonapi.Entity t = Go.Ok x
          /\ t = x +:+ "--" +:+ y +:+ rest
          /\ Contains y "--" = false
          /\ (rest = "" \/ HasPrefix rest "--" = true)).
Proof.
  unfold Jsonapi.Bundle, Jsonapi.Entity, Contains.
  destruct (Index t "--") as [m|] eqn:Hi.
  - rewrite (Split_cut t "--" m) by easy.
    destruct (Index_Some_split t "--" m Hi) as [Ht _].
    set (r := drop (m + len "--") t) in *.
    destruct (Index r "--") as [k|] eqn:Hr.
    + rewrite (Split_cut r "--" k) by easy. split; [intros _; now eexists|].
      intros y [= <-]. exists (take m t), ("--" +:+ drop (k + len "--") r).
      rewrite (Index_take_None r "--" k) by easy.
      repeat split; [|right; apply HasPrefix_app].
      rewrite Ht at 1. do 2 f_equal.
      apply (Index_Some_split r "--" k Hr).
    + rewrite (Split_whole r "--") by easy. split; [intros _; now eexists|].
      intros y [= <-]. exists (take m t), "". rewrite Hr.
      repeat split; [|now left]. now rewrite app_empty_r.
  - rewrite (Split_whole t "--") by easy. split; [discriminate|].
    intros y. discriminate.
Qed.

Lemma Bundle_text_between_separators_witness :
  exists x rest,
    Jsonapi.Entity "node--islandora_object--extra" = Go.Ok x
    /\ "node--islandora_object--extra" = x +:+ "--" +:+ "islandora_object" +:+ rest
    /\ Contains "islandora_object" "--" = false
    /\ (rest = "" \/ HasPrefix rest "--" = true).
Proof.
  apply (proj2 (Bundle_text_between_separators "node--islandora_object--extra")).
  reflexivity.
Defined.

End DrupalTypeShapes.

(** ** JsonApiUrl.String: the base URL, and the assertions that fail *)

Section StringEdges.
Import Strings Observe.

Lemma path_text_trailing_slash (base : string) (moo : Jsonapi.JsonApiUrl) :
  HasSuffix base "/" = false ->
  Jsonapi.path_text (base +:+ "/") moo = Jsonapi.path_text base moo.
Proof.
  intros H. unfold Jsonapi.path_text. rewrite H.
  rewrite (HasSuffix_app_nonempty base "/" "/") by (simpl; lia).
  change (HasSuffix "/" "/") with true. cbv iota.
  rewrite len_app. change (len "/") with 1.
  replace (len base + 1 - 1) with (len base) by lia.
  now rewrite take_app_len.
Qed.

(** X3: one trailing slash of the base URL makes no difference: for a base
    URL that is not empty and does not end in a slash, [String()] does the
    same with and without a slash added to it, in every environment. *)
Theorem String_trailing_slash (base entity bundle filter value raw user pass : string)
    (w : World) :
  base <> "" -> HasSuffix base "/" = false ->
  Jsonapi.String
    (Jsonapi.Build_JsonApiUrl (base +:+ "/") entity bundle filter value raw user pass) w
  = Jsonapi.String
      (Jsonapi.Build_JsonApiUrl base entity bundle filter value raw user pass) w.
Proof.
  intros Hne Hsuf. rewrite !String_outcome.
  replace (Jsonapi.url_text (environ w)
             (Jsonapi.Build_JsonApiUrl (base +:+ "/") entity bundle filter value raw
                user pass))
    with (Jsonapi.url_text (environ w)
            (Jsonapi.Build_JsonApiUrl base entity bundle filter value raw user pass));
    [reflexivity|].
  unfold Jsonapi.url_text. rewrite !BaseUrlOr_ok.
  cbn [Jsonapi.BaseUrl Jsonapi.DrupalEntity Jsonapi.DrupalBundle
       Jsonapi.RawFilter Jsonapi.Filter Jsonapi.Value].
  rewrite (eqb_empty_false base Hne).
  rewrite (eqb_empty_false (base +:+ "/")) by (destruct base; discriminate).
  destruct (environ w !! "DRUPAL_BASE_URL") as [e|]; [reflexivity|].
  cbn [default]. now rewrite path_text_trailing_slash.
Qed.

Lemma String_trailing_slash_witness :
  Jsonapi.String
    (Jsonapi.Build_JsonApiUrl ("http://h:1" +:+ "/") "media" "document" "id" "abc"
       "" "" "") Examples.offline
  = Jsonapi.String
      (Jsonapi.Build_JsonApiUrl "http://h:1" "media" "document" "id" "abc" "" "" "")
      Examples.offline.
Proof.
  apply (String_trailing_slash "http://h:1" "media" "document" "id" "abc" "" "" ""
           Examples.offline); [discriminate | reflexivity].
Defined.

(** X4: when the environment variable DRUPAL_BASE_URL is set, [String()]
    does not read the BaseUrl field beyond checking that it is not empty:
    two descriptors that differ in a non-empty BaseUrl only give the same
    outcome. *)
Theorem String_base_url_overridden (base1 base2 entity bundle filter value raw user
    pass override : string) (w : World) :
  environ w !! "DRUPAL_BASE_URL" = Some override ->
  base1 <> "" -> base2 <> "" ->
  Jsonapi.String
    (Jsonapi.Build_JsonApiUrl base1 entity bundle filter value raw user pass) w
  = Jsonapi.String
      (Jsonapi.Build_JsonApiUrl base2 entity bundle filter value raw user pass) w.
Proof.
  intros He H1 H2. rewrite !String_outcome.
  replace (Jsonapi.url_text (environ w)
             (Jsonapi.Build_JsonApiUrl base1 entity bundle filter value raw user pass))
    with (Jsonapi.url_text (environ w)
            (Jsonapi.Build_JsonApiUrl base2 entity bundle filter value raw user pass));
    [reflexivity|].
  unfold Jsonapi.url_text. rewrite !BaseUrlOr_ok, He.
  cbn [Jsonapi.BaseUrl Jsonapi.DrupalEntity Jsonapi.DrupalBundle
       Jsonapi.RawFilter Jsonapi.Filter Jsonapi.Value default].
  now rewrite (eqb_empty_false base1 H1), (eqb_empty_false base2 H2).
Qed.

Lemma String_base_url_overridden_witness :
  Jsonapi.String
    (Jsonapi.Build_JsonApiUrl "http://h:1" "media" "document" "id" "abc" "" "" "")
    (Examples.world {[ "DRUPAL_BASE_URL" := "https://islandora-idc.traefik.me/" ]}
       (fun _ => inr "unused"))
  = Jsonapi.String
      (Jsonapi.Build_JsonApiUrl "http://other:2/" "media" "document" "id" "abc" "" "" "")
      (Examples.world {[ "DRUPAL_BASE_URL" := "https://islandora-idc.traefik.me/" ]}
         (fun _ => inr "unused")).
Proof.
  apply (String_base_url_overridden "http://h:1" "http://other:2/" "media" "document"
           "id" "abc" "" "" "" "https://islandora-idc.traefik.me/");
    [reflexivity | discriminate | discriminate].
Defined.

End StringEdges.

Section StringFailures.
Import Strings Observe.

(** X5: an empty required field makes [String()] never return.  When
    BaseUrl, DrupalEntity or DrupalBundle is empty (BaseUrl even when
    DRUPAL_BASE_URL replaces it), the assertion on it fails, and the
    formatting of its message, which has the descriptor as a [%v]
    argument, calls [String()] on the descriptor again, where the same
    assertion fails: whatever room the stack has, the calls nest until it
    is used up, and the process ends (stack overflow, exit status 2) with
    no failure of the test reported, nothing logged and nothing sent. *)
Theorem String_overflows_on_empty_field (moo : Jsonapi.JsonApiUrl) (w : World) :
  Jsonapi.BaseUrl moo = "" \/ Jsonapi.DrupalEntity moo = ""
  \/ Jsonapi.DrupalBundle moo = "" ->
  (forall frames, Jsonapi.String_at frames moo w = Exits 2 w)
  /\ Jsonapi.String moo w = Exits 2 w.
Proof.
  intros H.
  assert (Hn : Jsonapi.url_text (environ w) moo = None).
  { unfold Jsonapi.url_text. destruct H as [-> | [-> | ->]]; cbn [String.eqb orb];
      rewrite ?orb_true_r; reflexivity. }
  split; [now apply String_at_fails|].
  now rewrite String_outcome, Hn.
Qed.

Lemma String_overflows_on_empty_field_witness :
  Jsonapi.String
    (Jsonapi.Build_JsonApiUrl "http://h:1" "" "document" "id" "abc" "" "" "")
    Examples.offline
  = Exits 2 Examples.offline.
Proof.
  apply (String_overflows_on_empty_field
           (Jsonapi.Build_JsonApiUrl "http://h:1" "" "document" "id" "abc" "" "" "")
           Examples.offline).
  right; left; reflexivity.
Defined.

(** X6: a URL that [url.Parse] refuses makes [String()] never return.
    When the first call refuses base/jsonapi/entity/bundle, or the second
    one refuses that URL with the filter appended, the assertion on the
    error fails and the formatting of its message calls [String()] on the
    descriptor again, where the same call of [url.Parse] fails: whatever
    room the stack has, the process ends with a stack overflow (exit
    status 2); no failure of the test is reported and the [u.String()] on
    the nil URL is not reached. *)
Theorem String_overflows_on_unparsable_url (moo : Jsonapi.JsonApiUrl) (w : World)
    (base : string) :
  Env.BaseUrlOr (environ w) (Jsonapi.BaseUrl moo) = Go.Ok base ->
  (forall e, Url.Parse (Jsonapi.path_text base moo) = inl e ->
             (forall frames, Jsonapi.String_at frames moo w = Exits 2 w)
             /\ Jsonapi.String moo w = Exits 2 w)
  /\ (forall u e,
         Url.Parse (Jsonapi.path_text base moo) = inr u ->
         Jsonapi.RawFilter moo <> "" \/ Jsonapi.Filter moo <> "" ->
         Url.Parse
           (Url.String u
            +:+ (if negb (String.eqb (Jsonapi.RawFilter moo) "")
                 then "?" +:+ Jsonapi.RawFilter moo
                 else "?filter[" +:+ Jsonapi.Filter moo +:+ "]="
                      +:+ Jsonapi.Value moo)) = inl e ->
         (forall frames, Jsonapi.String_at frames moo w = Exits 2 w)
         /\ Jsonapi.String moo w = Exits 2 w).
Proof.
  intros Hb.
  assert (Hfin : Jsonapi.url_text (environ w) moo = None ->
                 (forall frames, Jsonapi.String_at frames moo w = Exits 2 w)
                 /\ Jsonapi.String moo w = Exits 2 w).
  { intros Hn. split; [now apply String_at_fails|].
    now rewrite String_outcome, Hn. }
  split.
  - intros e He. apply Hfin. unfold Jsonapi.url_text. rewrite Hb, He.
    now destruct (_ || _).
  - intros u e Hu Hfilter He. apply Hfin. unfold Jsonapi.url_text.
    rewrite Hb, Hu. destruct (_ || _); [reflexivity|].
    destruct (negb (String.eqb (Jsonapi.RawFilter moo) "")) eqn:Hraw.
    + rewrite ?app_assoc_s in He |- *. now rewrite He.
    + apply negb_false_iff, String.eqb_eq in Hraw.
      destruct Hfilter as [H|H]; [contradiction|].
      rewrite (eqb_empty_false _ H). cbn [negb].
      rewrite ?app_assoc_s in He |- *. now rewrite He.
Qed.

Lemma String_overflows_on_unparsable_url_witness :
  Jsonapi.String
    (Jsonapi.Build_JsonApiUrl "http://localhost:80a" "media" "document"
       "" "" "" "" "") Examples.offline
  = Exits 2 Examples.offline
  /\ Jsonapi.String
       (Jsonapi.Build_JsonApiUrl "http://h:1" "media" "document"
          "name" (String "009" "x") "" "" "") Examples.offline
     = Exits 2 Examples.offline.
Proof.
  split.
  - refine (proj2 (proj1 (String_overflows_on_unparsable_url
                            (Jsonapi.Build_JsonApiUrl "http://localhost:80a" "media"
                               "document" "" "" "" "" "")
                            Examples.offline "http://localhost:80a" _)
                     Url.InvalidPort _));
      vm_compute; reflexivity.
  - refine (proj2 (proj2 (String_overflows_on_unparsable_url
                            (Jsonapi.Build_JsonApiUrl "http://h:1" "media" "document"
                               "name" (String "009" "x") "" "" "")
                            Examples.offline "http://h:1" _)
                     {| Url.Scheme := "http"; Url.Opaque := ""; Url.User := None;
                        Url.Host := "h:1"; Url.Path := "/jsonapi/media/document";
                        Url.RawPath := ""; Url.ForceQuery := false;
                        Url.RawQuery := ""; Url.Fragment := "";
                        Url.RawFragment := "" |}
                     Url.ControlCharacter _ _ _)).
    + vm_compute; reflexivity.
    + vm_compute; reflexivity.
    + right; discriminate.
    + vm_compute; reflexivity.
Defined.

End StringFailures.

(** ** JsonApiResponse.UnmarshalJSON: refusals, field maps, panics *)

Section DecoderEdges.
Import Strings Json Observe.

(** Under each name, a field map holds what the last member of that name
    decodes to. *)
Lemma collect_member (dec : doc -> value) (ms : list (string * doc)) (k : string) :
  collect dec ms !! k = dec <$> member k ms.
Proof.
  unfold collect. induction ms as [|kv ms IH]; [apply lookup_empty|].
  cbn [map member]. rewrite reverse_cons, list_to_map_app, lookup_union, IH.
  destruct (member k ms) as [v|]; cbn.
  - match goal with |- context [?m !! k] => now destruct (m !! k) end.
  - cbn [list_to_map foldr]. rewrite (left_id_L None _).
    destruct (String.eqb kv.1 k) eqn:E.
    + apply String.eqb_eq in E. subst k. now rewrite lookup_insert_eq.
    + apply String.eqb_neq in E. now rewrite lookup_insert_ne, lookup_empty.
Qed.

(** An error leaves the receiver as it was. *)
Lemma UnmarshalJSON_doc_error (jar r : Jsonapi.JsonApiResponse) (j : doc) (e : error) :
  Jsonapi.UnmarshalJSON_doc jar j = Go.Ok (r, Some e) -> r = jar.
Proof.
  unfold Jsonapi.UnmarshalJSON_doc.
  destruct (head (decode_errors (TMap TInterface) j)); [now intros [= <- _]|].
  destruct (map_of (decode (TMap TInterface) j (Map ∅)) !! "data") as [x|];
    [|now intros [= <- _]].
  destruct x; try (now intros [= <- _]).
  destruct (Jsonapi.assert_maps _); discriminate.
Qed.

Lemma UnmarshalJSON_error (jar r : Jsonapi.JsonApiResponse) (b : string) (e : error) :
  Jsonapi.UnmarshalJSON jar b = Go.Ok (r, Some e) -> r = jar.
Proof.
  unfold Jsonapi.UnmarshalJSON. destruct (Json.parse b) as [j|].
  - apply UnmarshalJSON_doc_error.
  - now intros [= <- _].
Qed.

Lemma assert_maps_non_object (xs : list doc) (x : doc) :
  x ∈ xs -> (forall o, x <> JObject o) ->
  Jsonapi.assert_maps (map to_any xs) = Go.Panic Go.InterfaceConversion.
Proof.
  intros Hin Hx. induction xs as [|y xs IH]; [now apply elem_of_nil in Hin|].
  cbn [map Jsonapi.assert_maps].
  destruct y as [|c|n|s|l|o]; cbn [to_any]; try reflexivity.
  - now destruct (float_of n).
  - apply elem_of_cons in Hin as [->|Hin]; [now destruct (Hx o)|].
    now rewrite (IH Hin).
Qed.

(** X7: what [UnmarshalJSON] refuses, and how.  Bytes that are no JSON give
    a syntax error; an object without a [data] member gives the error
    about the missing key; a [data] member that is null, a boolean, a
    number or a string gives the error about the type of [data].  In each
    case, and whenever an error is returned, the receiver is left as it
    was. *)
Theorem UnmarshalJSON_refusals (jar : Jsonapi.JsonApiResponse) (b : string) :
  (Json.parse b = None ->
   Jsonapi.UnmarshalJSON jar b = Go.Ok (jar, Some SyntaxError))
  /\ (forall ms,
         Json.parse b = Some (JObject ms) ->
         decode_errors (TMap TInterface) (JObject ms) = [] ->
         (member "data" ms = None ->
          Jsonapi.UnmarshalJSON jar b = Go.Ok (jar, Some MissingDataKey))
         /\ (forall e,
                member "data" ms = Some e ->
                match e with JArray _ | JObject _ => False | _ => True end ->
                Jsonapi.UnmarshalJSON jar b = Go.Ok (jar, Some UnknownDataType)))
  /\ (forall r e, Jsonapi.UnmarshalJSON jar b = Go.Ok (r, Some e) -> r = jar).
Proof.
  split; [|split].
  - intros Hp. unfold Jsonapi.UnmarshalJSON. now rewrite Hp.
  - intros ms Hp Herr. unfold Jsonapi.UnmarshalJSON. rewrite Hp.
    unfold Jsonapi.UnmarshalJSON_doc. rewrite Herr.
    cbn [head decode map_of]. rewrite fold_map_step_lookup. split.
    + intros ->. now rewrite lookup_empty.
    + intros e -> He. cbn [zero]. rewrite decode_interface_nil.
      destruct e as [|c|n|s|l|o]; cbn [to_any]; try reflexivity;
        try contradiction.
      now destruct (float_of n).
  - intros r e. apply UnmarshalJSON_error.
Qed.

Lemma UnmarshalJSON_refusals_witness :
  Jsonapi.UnmarshalJSON {| Jsonapi.Data := None |} "{"
  = Go.Ok ({| Jsonapi.Data := None |}, Some SyntaxError)
  /\ Jsonapi.UnmarshalJSON {| Jsonapi.Data := None |}
       (Examples.json "{'jsonapi':{'version':'1.0'}}")
     = Go.Ok ({| Jsonapi.Data := None |}, Some MissingDataKey)
  /\ Jsonapi.UnmarshalJSON {| Jsonapi.Data := None |} (Examples.json "{'data':'x'}")
     = Go.Ok ({| Jsonapi.Data := None |}, Some UnknownDataType).
Proof.
  split; [|split].
  - apply (proj1 (UnmarshalJSON_refusals {| Jsonapi.Data := None |} "{")).
    reflexivity.
  - apply (proj1 (proj1 (proj2 (UnmarshalJSON_refusals {| Jsonapi.Data := None |}
                                  (Examples.json "{'jsonapi':{'version':'1.0'}}")))
                    [("jsonapi", JObject [("version", JString "1.0")])]
                    eq_refl eq_refl)).
    reflexivity.
  - apply (proj2 (proj1 (proj2 (UnmarshalJSON_refusals {| Jsonapi.Data := None |}
                                  (Examples.json "{'data':'x'}")))
                    [("data", JString "x")] eq_refl eq_refl)
             (JString "x")); [reflexivity | exact I].
Defined.

(** X8: the field maps of a decoded response.  For a body whose [data] is
    an array of objects, element [i] of [Data] is the map that holds, under
    each name, the generic value of the last member of that name in object
    [i] (a string as a string, a number as a float64, and so on), and
    nothing under a name the object does not have. *)
Theorem UnmarshalJSON_field_maps (jar : Jsonapi.JsonApiResponse) (b : string)
    (ms : list (string * doc)) (objs : list (list (string * doc))) :
  Json.parse b = Some (JObject ms) ->
  decode_errors (TMap TInterface) (JObject ms) = [] ->
  member "data" ms = Some (JArray (map JObject objs)) ->
  exists l,
    Jsonapi.UnmarshalJSON jar b = Go.Ok ({| Jsonapi.Data := Some l |}, None)
    /\ length l = length objs
    /\ (forall i o, objs !! i = Some o ->
                    exists m, l !! i = Some m
                              /\ forall k, m !! k = to_any <$> member k o).
Proof.
  intros Hp Herr Hm. exists (map fields_of objs).
  split; [now apply (UnmarshalJSON_objects jar b ms objs)|].
  split; [apply length_map|].
  intros i o Ho. exists (fields_of o). split.
  - change (map fields_of objs) with (fields_of <$> objs).
    now rewrite list_lookup_fmap, Ho.
  - intros k. apply collect_member.
Qed.

Lemma UnmarshalJSON_field_maps_witness :
  exists l,
    Jsonapi.UnmarshalJSON {| Jsonapi.Data := None |}
      (Examples.json "{'data':[{'id':'x','id':'y','type':'media--document'}]}")
    = Go.Ok ({| Jsonapi.Data := Some l |}, None)
    /\ length l = 1
    /\ (forall i o,
           [[("id", JString "x"); ("id", JString "y");
             ("type", JString "media--document")]] !! i = Some o ->
           exists m, l !! i = Some m
                     /\ forall k, m !! k = to_any <$> member k o).
Proof.
  apply (UnmarshalJSON_field_maps {| Jsonapi.Data := None |}
           (Examples.json "{'data':[{'id':'x','id':'y','type':'media--document'}]}")
           [("data", JArray [JObject [("id", JString "x"); ("id", JString "y");
                                      ("type", JString "media--document")]])]
           [[("id", JString "x"); ("id", JString "y");
             ("type", JString "media--document")]]);
    reflexivity.
Defined.

(** X9: an element of the [data] array that is no object makes
    [UnmarshalJSON] panic on the type assertion, wherever it stands in the
    array: no error is returned for the caller to report. *)
Theorem UnmarshalJSON_panics_on_non_object (jar : Jsonapi.JsonApiResponse)
    (b : string) (ms : list (string * doc)) (xs : list doc) (x : doc) :
  Json.parse b = Some (JObject ms) ->
  decode_errors (TMap TInterface) (JObject ms) = [] ->
  member "data" ms = Some (JArray xs) ->
  x ∈ xs -> (forall o, x <> JObject o) ->
  Jsonapi.UnmarshalJSON jar b = Go.Panic Go.InterfaceConversion.
Proof.
  intros Hp Herr Hm Hin Hx. unfold Jsonapi.UnmarshalJSON. rewrite Hp.
  rewrite (UnmarshalJSON_doc_data jar ms _ Herr Hm). cbn [to_any].
  now rewrite (assert_maps_non_object xs x Hin Hx).
Qed.

Lemma UnmarshalJSON_panics_on_non_object_witness :
  Jsonapi.UnmarshalJSON {| Jsonapi.Data := None |}
    (Examples.json "{'data':[{'id':'x'},null]}")
  = Go.Panic Go.InterfaceConversion.
Proof.
  apply (UnmarshalJSON_panics_on_non_object {| Jsonapi.Data := None |}
           (Examples.json "{'data':[{'id':'x'},null]}")
           [("data", JArray [JObject [("id", JString "x")]; JNull])]
           [JObject [("id", JString "x")]; JNull] JNull);
    [reflexivity | reflexivity | reflexivity | | discriminate].
  repeat constructor.
Defined.

End DecoderEdges.

(** ** GetResourceWithBasicAuth: every way the call can end *)

Section ClientEdges.
Import Strings Observe.

(** A 200 with a readable body: the response and the body are returned,
    and only the log and the list of requests grow. *)
Lemma GetResourceWithBasicAuth_ok (url user pass : string) (w : World)
    (r : Http.Request) (res : Http.Response) :
  Http.NewRequest "GET" url = inr r ->
  server w (if (0 <? len (TrimSpace user))%nat
            then Http.SetBasicAuth r user pass else r) = inl res ->
  Http.StatusCode res = 200%Z -> Http.BodyError res = false ->
  Jsonapi.GetResourceWithBasicAuth url user pass w
  = Returns (res, Http.Body res)
      {| environ := environ w; server := server w; failed := failed w;
         failures := failures w;
         logged :=
           (logged w ++ [if (0 <? len (TrimSpace user))%nat
                         then RetrievingWithAuth url else Retrieving url])%list;
         requests :=
           (requests w ++ [if (0 <? len (TrimSpace user))%nat
                           then Http.SetBasicAuth r user pass else r])%list |}.
Proof.
  intros Hr Hs H200 Hbody. unfold Jsonapi.GetResourceWithBasicAuth. rewrite Hr.
  destruct (0 <? len (TrimSpace user))%nat;
    unfold mbind, M_bind, mret, M_ret, Run.printf, Run.do;
    cbn [environ server failed failures logged requests];
    rewrite Hs; cbn [Run.assert_Nil]; unfold mret, M_ret;
    unfold Run.assert_that; rewrite H200, Hbody; reflexivity.
Qed.

(** X10: what [GetResourceWithBasicAuth] does when the server answers.
    It returns the response and its body whatever the status; it logs one
    line that tells whether credentials were sent; it reports a failure
    for a status other than 200 and one for an error in reading the body,
    and nothing else: after a 200 with a readable body the test state is
    as before. *)
Theorem GetResourceWithBasicAuth_on_response (url user pass : string) (w : World)
    (r : Http.Request) (res : Http.Response) :
  Http.NewRequest "GET" url = inr r ->
  server w (if (0 <? len (TrimSpace user))%nat
            then Http.SetBasicAuth r user pass else r) = inl res ->
  Jsonapi.GetResourceWithBasicAuth url user pass w
  = Returns (res, Http.Body res)
      {| environ := environ w; server := server w;
         failed := failed w || negb (Http.StatusCode res =? 200)%Z
                   || Http.BodyError res;
         failures :=
           (failures w
            ++ (if (Http.StatusCode res =? 200)%Z then []
                else [UnexpectedStatus (Http.StatusCode res) url])
            ++ (if Http.BodyError res then [BodyReadError url] else []))%list;
         logged :=
           (logged w ++ [if (0 <? len (TrimSpace user))%nat
                         then RetrievingWithAuth url else Retrieving url])%list;
         requests :=
           (requests w ++ [if (0 <? len (TrimSpace user))%nat
                           then Http.SetBasicAuth r user pass else r])%list |}.
Proof.
  intros Hr Hs. unfold Jsonapi.GetResourceWithBasicAuth. rewrite Hr.
  destruct (0 <? len (TrimSpace user))%nat;
    unfold mbind, M_bind, mret, M_ret, Run.printf, Run.do;
    cbn [environ server failed failures logged requests];
    rewrite Hs; cbn [Run.assert_Nil]; unfold mret, M_ret;
    unfold Run.assert_that;
    destruct (Http.StatusCode res =? 200)%Z; destruct (Http.BodyError res);
    unfold mbind, M_bind, mret, M_ret, Run.fail;
    cbn [negb environ server failed failures logged requests app];
    rewrite <- ?app_assoc, ?app_nil_r, ?orb_true_r, ?orb_false_r;
    reflexivity.
Qed.

Lemma GetResourceWithBasicAuth_on_response_witness :
  exists w',
    Jsonapi.GetResourceWithBasicAuth "http://h:1/jsonapi/media/document" " " "foo"
      (Examples.world ∅ (Examples.always 200 "{}"))
    = Returns ({| Http.StatusCode := 200; Http.Body := "{}";
                  Http.BodyError := false |}, "{}") w'
    /\ failed w' = false /\ failures w' = []
    /\ logged w' = [Retrieving "http://h:1/jsonapi/media/document"].
Proof.
  eexists. split.
  - refine (GetResourceWithBasicAuth_on_response
              "http://h:1/jsonapi/media/document" " " "foo"
              (Examples.world ∅ (Examples.always 200 "{}")) _
              {| Http.StatusCode := 200; Http.Body := "{}";
                 Http.BodyError := false |} _ _);
      vm_compute; reflexivity.
  - repeat split.
Defined.

(** X11: when the request cannot be carried out (the client returns an
    error and no response), [GetResourceWithBasicAuth] reports the error
    as a failure of the test and then panics on [res.StatusCode] of the nil
    response: the call does not return. *)
Theorem GetResourceWithBasicAuth_transport_error (url user pass : string)
    (w : World) (r : Http.Request) (msg : string) :
  Http.NewRequest "GET" url = inr r ->
  server w (if (0 <? len (TrimSpace user))%nat
            then Http.SetBasicAuth r user pass else r) = inr msg ->
  Jsonapi.GetResourceWithBasicAuth url user pass w
  = Panics Go.NilDereference
      {| environ := environ w; server := server w; failed := true;
         failures := (failures w ++ [RequestError url msg])%list;
         logged :=
           (logged w ++ [if (0 <? len (TrimSpace user))%nat
                         then RetrievingWithAuth url else Retrieving url])%list;
         requests :=
           (requests w ++ [if (0 <? len (TrimSpace user))%nat
                           then Http.SetBasicAuth r user pass else r])%list |}.
Proof.
  intros Hr Hs. unfold Jsonapi.GetResourceWithBasicAuth. rewrite Hr.
  destruct (0 <? len (TrimSpace user))%nat;
    unfold mbind, M_bind, mret, M_ret, Run.printf, Run.do;
    cbn [environ server failed failures logged requests];
    rewrite Hs; reflexivity.
Qed.

Lemma GetResourceWithBasicAuth_transport_error_witness :
  exists w',
    Jsonapi.GetResourceWithBasicAuth "http://h:1/jsonapi/media/document" "admin" "moo"
      Examples.offline
    = Panics Go.NilDereference w'
    /\ failures w'
       = [RequestError "http://h:1/jsonapi/media/document" "connection refused"].
Proof.
  eexists. split.
  - refine (GetResourceWithBasicAuth_transport_error
              "http://h:1/jsonapi/media/document" "admin" "moo"
              Examples.offline _ "connection refused" _ _);
      vm_compute; reflexivity.
  - reflexivity.
Defined.

(** X12: a URL that [http.NewRequest] refuses makes
    [GetResourceWithBasicAuth] panic on the nil request, in
    [SetBasicAuth] when there is a user name and in the client otherwise:
    no request is sent and no failure of the test is reported. *)
Theorem GetResourceWithBasicAuth_invalid_url (url user pass : string) (w : World)
    (e : Url.error) :
  Http.NewRequest "GET" url = inl e ->
  Jsonapi.GetResourceWithBasicAuth url user pass w
  = Panics Go.NilDereference
      {| environ := environ w; server := server w; failed := failed w;
         failures := failures w;
         logged := if (0 <? len (TrimSpace user))%nat then logged w
                   else (logged w ++ [Retrieving url])%list;
         requests := requests w |}.
Proof.
  intros Hr. unfold Jsonapi.GetResourceWithBasicAuth. rewrite Hr.
  destruct (0 <? len (TrimSpace user))%nat;
    unfold mbind, M_bind, mret, M_ret, Run.printf, Run.panic;
    [now destruct w | reflexivity].
Qed.

Lemma GetResourceWithBasicAuth_invalid_url_witness :
  Jsonapi.GetResourceWithBasicAuth "http://localhost:80a/x" "" "" Examples.offline
  = Panics Go.NilDereference
      {| environ := environ Examples.offline; server := server Examples.offline;
         failed := false; failures := [];
         logged := [Retrieving "http://localhost:80a/x"]; requests := [] |}.
Proof.
  apply (GetResourceWithBasicAuth_invalid_url "http://localhost:80a/x" "" ""
           Examples.offline Url.InvalidPort).
  vm_compute; reflexivity.
Defined.

End ClientEdges.

(** ** UnmarshalResponse, Get and GetSingle *)

Section ResponseEdges.
Import Strings Json Observe.

Lemma Unmarshal_response_error (body : string) (value r : Jsonapi.JsonApiResponse)
    (e : error) :
  Jsonapi.Unmarshal_response body value = Go.Ok (r, Some e) -> r = value.
Proof.
  unfold Jsonapi.Unmarshal_response. destruct (Json.parse body).
  - apply UnmarshalJSON_error.
  - now intros [= <- _].
Qed.

(** X13: a body that cannot be decoded does not stop the callers.
    [UnmarshalResponse] reports the error as a failure of the test and
    returns the response it was given, untouched; [UnmarshalSingleResponse]
    then still counts the elements of that response and reports a second
    failure unless it holds exactly one: for the fresh response that [Get]
    and [GetSingle] pass in, the count reported is 0. *)
Theorem UnmarshalResponse_decode_failure (body : string) (res : Http.Response)
    (value r : Jsonapi.JsonApiResponse) (e : error) (w : World) :
  Jsonapi.Unmarshal_response body value = Go.Ok (r, Some e) ->
  r = value
  /\ Jsonapi.UnmarshalResponse body res value None w
     = Returns value (failed_with (UnmarshalFailure e) w)
  /\ Jsonapi.UnmarshalSingleResponse body res value w
     = Returns value
         (if (Jsonapi.len_Data value =? 1)%nat
          then failed_with (UnmarshalFailure e) w
          else failed_with (DataCount (Jsonapi.len_Data value))
                 (failed_with (UnmarshalFailure e) w)).
Proof.
  intros H. pose proof (Unmarshal_response_error body value r e H) as ->.
  split; [reflexivity|].
  unfold Jsonapi.UnmarshalSingleResponse, Jsonapi.UnmarshalResponse.
  rewrite H. unfold Run.lift, mbind, M_bind, mret, M_ret.
  cbn [fst snd Run.assert_Nil]. unfold mbind, M_bind, mret, M_ret, Run.fail.
  split; [reflexivity|].
  unfold Run.assert_that. destruct (Jsonapi.len_Data value =? 1)%nat; reflexivity.
Qed.

Lemma UnmarshalResponse_decode_failure_witness :
  Jsonapi.UnmarshalSingleResponse "<html>Bad Gateway</html>"
    {| Http.StatusCode := 502; Http.Body := "<html>Bad Gateway</html>";
       Http.BodyError := false |}
    {| Jsonapi.Data := None |} Examples.offline
  = Returns {| Jsonapi.Data := None |}
      (failed_with (DataCount 0)
         (failed_with (UnmarshalFailure SyntaxError) Examples.offline)).
Proof.
  refine (proj2 (proj2 (UnmarshalResponse_decode_failure "<html>Bad Gateway</html>"
                          {| Http.StatusCode := 502;
                             Http.Body := "<html>Bad Gateway</html>";
                             Http.BodyError := false |}
                          {| Jsonapi.Data := None |} {| Jsonapi.Data := None |}
                          SyntaxError Examples.offline _))).
  vm_compute; reflexivity.
Defined.

(** [To] does not read the test state: where it returns, it returns the
    same target in every state and leaves the state alone. *)
Lemma To_returns (jar : Jsonapi.JsonApiResponse) (v x : Jsonapi.target)
    (w w1 : World) :
  Jsonapi.To jar v w = Returns x w1 -> w1 = w /\ forall w2, Jsonapi.To jar v w2 = Returns x w2.
Proof.
  unfold Jsonapi.To. destruct (Jsonapi.Marshal jar) as [d|]; [|discriminate].
  unfold Run.lift, mbind, M_bind, mret, M_ret.
  destruct (Jsonapi.Unmarshal_doc d v) as [[v' err]|p]; [|discriminate].
  intros [= <- <-]. split; reflexivity.
Qed.

(** X14: [GetSingle] fills the target as [Get] does.  Whenever [Get]
    returns, the response was fetched and its body was handed to
    [json.Unmarshal] with a fresh response, and [GetSingle] on the same
    input returns the same target; the test state it leaves is the one
    [Get] leaves when the response decoded holds exactly one element of
    [data], and that state with one more failure, which gives the number
    of elements, when it holds none or several.  Whenever [GetSingle]
    returns, [Get] returns the same target. *)
Theorem GetSingle_fills_as_Get (jar : Jsonapi.JsonApiUrl) (v : Jsonapi.target)
    (w : World) :
  let fetch : M (Http.Response * string) :=
    if (len (TrimSpace (Jsonapi.Username jar)) =? 0)%nat
    then u ← Jsonapi.String jar; Jsonapi.GetResource u
    else u ← Jsonapi.String jar;
         Jsonapi.GetResourceWithBasicAuth u (Jsonapi.Username jar)
           (Jsonapi.Password jar) in
  (forall x w1,
      Jsonapi.Get jar v w = Returns x w1 ->
      exists rb w0 r err,
        fetch w = Returns rb w0
        /\ Jsonapi.Unmarshal_response rb.2 {| Jsonapi.Data := None |}
           = Go.Ok (r, err)
        /\ Jsonapi.GetSingle jar v w
           = Returns x
               (if (Jsonapi.len_Data r =? 1)%nat then w1
                else failed_with (DataCount (Jsonapi.len_Data r)) w1))
  /\ (forall x w2,
         Jsonapi.GetSingle jar v w = Returns x w2 ->
         exists w1, Jsonapi.Get jar v w = Returns x w1).
Proof.
  intros fetch. unfold Jsonapi.Get, Jsonapi.GetSingle. fold fetch.
  unfold mbind, M_bind.
  destruct (fetch w) as [rb w0|p w0|s w0];
    [|split; intros; discriminate..].
  unfold Jsonapi.UnmarshalSingleResponse, Jsonapi.UnmarshalResponse.
  unfold Run.lift, mbind, M_bind, mret, M_ret.
  destruct (Jsonapi.Unmarshal_response rb.2 {| Jsonapi.Data := None |})
    as [[r err]|p] eqn:Hd; [|split; intros; discriminate].
  cbn [fst snd]. unfold Run.assert_that.
  destruct err as [e|]; cbn [Run.assert_Nil];
    unfold mbind, M_bind, mret, M_ret, Run.fail;
    destruct (Jsonapi.len_Data r =? 1)%nat eqn:Hn;
    unfold mbind, M_bind, mret, M_ret, Run.fail.
  all: split;
    [intros x w1 H; apply To_returns in H as [-> H];
     eexists rb, w0, r, _; split; [reflexivity|]; split; [exact Hd|];
     rewrite Hn; apply H
    |intros x w2 H; apply To_returns in H as [-> H]; eexists; apply H].
Qed.

Lemma GetSingle_fills_as_Get_witness :
  let jar := Examples.media_document "id" "abc" "" "" "" in
  let v := Jsonapi.Ptr Examples.id_list (Json.zero Examples.id_list) in
  let w := Examples.world ∅
             (Examples.always 200 (Examples.json "{'data':[{'id':'x'},{'id':'y'}]}")) in
  exists x w1,
    Jsonapi.Get jar v w = Returns x w1
    /\ Jsonapi.GetSingle jar v w = Returns x (failed_with (DataCount 2) w1).
Proof.
  intros jar v w.
  destruct (Jsonapi.Get jar v w) as [x w1|p w1|s w1] eqn:HG;
    [|vm_compute in HG; discriminate..].
  exists x, w1. split; [reflexivity|].
  destruct (proj1 (GetSingle_fills_as_Get jar v w) x w1 HG)
    as (rb & w0 & r & err & Hf & Hd & HS).
  vm_compute in Hf. injection Hf as <- _.
  vm_compute in Hd. injection Hd as <- _.
  exact HS.
Defined.

End ResponseEdges.

(** ** JsonApiResponse.To into an untyped target *)

Section UntypedProjection.
Import Strings Json.

Lemma fields_of_single (k : string) (x : doc) :
  fields_of [(k, x)] = {[ k := to_any x ]}.
Proof. reflexivity. Qed.

(** X15: projected into an untyped target (a pointer to an [interface{}]),
    a decoded response comes back whole: [To] stores a map with the one
    key [Data] that holds the field maps of the response, in order.  This
    holds for a response decoded from objects whose strings are valid
    UTF-8, whose numbers fit a float64 and in which the member names of one
    object differ by more than letter case. *)
Theorem To_untyped_round_trip (objs : list (list (string * doc))) (cur : value)
    (w : World) :
  Forall (fun o => canonical (JObject o) = true) objs ->
  Forall (fun o => any_errors (JObject o) = []) objs ->
  Jsonapi.To {| Jsonapi.Data := Some (map fields_of objs) |}
    (Jsonapi.Ptr TInterface cur) w
  = Returns
      (Jsonapi.Ptr TInterface
         (Map {[ "Data" := Slice (map Map (map fields_of objs)) ]}))
      w.
Proof.
  intros Hcan Herr. unfold Jsonapi.To. rewrite Marshal_decoded.
  unfold Run.lift, mbind, M_bind, mret, M_ret.
  cbn [Jsonapi.Unmarshal_doc fst decode]. do 3 f_equal.
  rewrite fields_of_single. f_equal.
  rewrite to_any_objects, <- !decode_interface_nil.
  apply decode_normal.
  - cbn [canonical]. rewrite forallb_forall. intros x Hx.
    apply in_map_iff in Hx as (o & <- & Ho).
    rewrite Forall_forall in Hcan. apply Hcan. now apply list_elem_of_In.
  - cbn [any_errors]. clear Hcan.
    induction Herr as [|o objs' Ho _ IH]; [reflexivity|].
    cbn [map concat]. now rewrite Ho, IH.
Qed.

Lemma To_untyped_round_trip_witness :
  let objs := [[("id", JString "x"); ("count", JNumber (Lit "2"))];
               [("id", JString "y"); ("tags", JArray [JString "a"; JNull])]] in
  Jsonapi.To {| Jsonapi.Data := Some (map fields_of objs) |}
    (Jsonapi.Ptr TInterface Nil) Examples.offline
  = Returns
      (Jsonapi.Ptr TInterface
         (Map {[ "Data" := Slice (map Map (map fields_of objs)) ]}))
      Examples.offline.
Proof.
  intros objs.
  apply (To_untyped_round_trip objs Nil Examples.offline);
    repeat constructor.
Defined.

End UntypedProjection.

(** ** strconv.Atoi on decimal numerals *)

Section StrconvFacts.
Import Strings Strconv.
Local Open Scope Z_scope.

Lemma code_bound (c : ascii) : 0 <= Z.of_N (Byte.code c) < 256.
Proof.
  unfold Byte.code. pose proof (N_ascii_bounded c). lia.
Qed.

Lemma is_digit_code (c : ascii) :
  Byte.is_digit c = true <-> 48 <= Z.of_N (Byte.code c) <= 57.
Proof.
  unfold Byte.is_digit, Byte.between.
  rewrite andb_true_iff, !N.leb_le. lia.
Qed.

Lemma digit_of_digit (c : ascii) :
  Byte.is_digit c = true -> digit_of c = Some (Z.of_N (Byte.code c) - 48).
Proof.
  intros H. apply is_digit_code in H. unfold digit_of.
  replace (48 <=? Z.of_N (Byte.code c)) with true by (symmetry; apply Z.leb_le; lia).
  replace (Z.of_N (Byte.code c) <=? 57) with true by (symmetry; apply Z.leb_le; lia).
  reflexivity.
Qed.

Lemma digit_of_other (c : ascii) :
  Byte.is_digit c = false ->
  match digit_of c with Some d => (10 <=? d) = true | None => True end.
Proof.
  intros H. unfold digit_of.
  destruct ((48 <=? Z.of_N (Byte.code c)) && (Z.of_N (Byte.code c) <=? 57)) eqn:E.
  - apply andb_prop in E as [E1 E2]. apply Z.leb_le in E1, E2.
    assert (Byte.is_digit c = true) by (apply is_digit_code; lia). congruence.
  - destruct ((97 <=? lower (Z.of_N (Byte.code c)))
              && (lower (Z.of_N (Byte.code c)) <=? 122)) eqn:E'; [|exact I].
    apply andb_prop in E' as [E1 _]. apply Z.leb_le in E1. apply Z.leb_le. lia.
Qed.

Lemma fast_digit (c : ascii) :
  Byte.is_digit c = true ->
  (Z.of_N (Byte.code c) - 48) mod 256 = Z.of_N (Byte.code c) - 48
  /\ 0 <= Z.of_N (Byte.code c) - 48 <= 9.
Proof.
  intros H. apply is_digit_code in H. split; [|lia].
  apply Z.mod_small. lia.
Qed.

Lemma fast_other (c : ascii) :
  Byte.is_digit c = false -> (9 <? (Z.of_N (Byte.code c) - 48) mod 256) = true.
Proof.
  intros H. apply Z.ltb_lt. pose proof (code_bound c) as Hb.
  assert (Hn : ~ 48 <= Z.of_N (Byte.code c) <= 57)
    by (intros Hd; apply is_digit_code in Hd; congruence).
  destruct (Z_lt_le_dec (Z.of_N (Byte.code c)) 48).
  - replace (Z.of_N (Byte.code c) - 48)
      with ((Z.of_N (Byte.code c) + 208) + (-1) * 256) by lia.
    rewrite Z.mod_add by lia. rewrite Z.mod_small; lia.
  - rewrite Z.mod_small; lia.
Qed.

(** [10 ^ l], for a length [l]. *)
Lemma pow10_succ (l : nat) : 10 ^ Z.of_nat (S l) = 10 * 10 ^ Z.of_nat l.
Proof. rewrite Nat2Z.inj_succ. apply Z.pow_succ_r. lia. Qed.

Lemma pow10_pos (l : nat) : 1 <= 10 ^ Z.of_nat l.
Proof.
  induction l as [|l IH]; [simpl; lia|]. rewrite pow10_succ. lia.
Qed.

Lemma pow10_18 (l : nat) : (l <= 18)%nat -> 10 ^ Z.of_nat l <= 10 ^ 18.
Proof. intros H. apply Z.pow_le_mono_r; lia. Qed.

Lemma decimal_from_bounds (s : string) (n : Z) :
  all_digits s = true -> 0 <= n ->
  n <= decimal_from n s < (n + 1) * 10 ^ Z.of_nat (len s).
Proof.
  revert n. induction s as [|c s IH]; intros n Hd Hn.
  - cbn [decimal_from len String.length Z.of_nat]. lia.
  - cbn [all_digits] in Hd. apply andb_prop in Hd as [Hc Hs].
    destruct (fast_digit c Hc) as [_ Hr].
    cbn [decimal_from]. change (len (String c s)) with (S (len s)).
    rewrite pow10_succ. pose proof (pow10_pos (len s)).
    specialize (IH (n * 10 + (Z.of_N (Byte.code c) - 48)) Hs ltac:(lia)).
    nia.
Qed.

Lemma int64_small (z : Z) : - 2 ^ 63 <= z < 2 ^ 63 -> int64 z = z.
Proof.
  intros H. unfold int64.
  change (2 ^ 63) with 9223372036854775808 in *.
  change (2 ^ 64) with 18446744073709551616.
  rewrite Z.mod_small; lia.
Qed.

Lemma uint64_small (z : Z) : 0 <= z < 2 ^ 64 -> uint64 z = z.
Proof. intros H. unfold uint64. now apply Z.mod_small. Qed.

(** The fast path reads a text of at most 18 digits exactly. *)
Lemma Atoi_loop_digits (s : string) (n : Z) :
  all_digits s = true -> 0 <= n -> (n + 1) * 10 ^ Z.of_nat (len s) <= 10 ^ 18 ->
  Atoi_loop s n = Some (decimal_from n s).
Proof.
  revert n. induction s as [|c s IH]; intros n Hd Hn Hb; [reflexivity|].
  cbn [all_digits] in Hd. apply andb_prop in Hd as [Hc Hs].
  destruct (fast_digit c Hc) as [Hm Hr].
  cbn [Atoi_loop decimal_from]. rewrite Hm.
  replace (9 <? Z.of_N (Byte.code c) - 48) with false
    by (symmetry; apply Z.ltb_ge; lia).
  change (len (String c s)) with (S (len s)) in Hb. rewrite pow10_succ in Hb.
  pose proof (pow10_pos (len s)).
  change (10 ^ 18) with 1000000000000000000 in Hb.
  rewrite int64_small
    by (change (2 ^ 63) with 9223372036854775808; nia).
  apply IH; [exact Hs | lia |].
  change (10 ^ 18) with 1000000000000000000. nia.
Qed.

Lemma Atoi_loop_other (s : string) (n : Z) :
  all_digits s = false -> Atoi_loop s n = None.
Proof.
  revert n. induction s as [|c s IH]; intros n Hd; [discriminate|].
  cbn [all_digits] in Hd. cbn [Atoi_loop].
  destruct (Byte.is_digit c) eqn:Hc.
  - destruct (fast_digit c Hc) as [Hm Hr]. rewrite Hm.
    replace (9 <? Z.of_N (Byte.code c) - 48) with false
      by (symmetry; apply Z.ltb_ge; lia).
    now apply IH.
  - now rewrite (fast_other c Hc).
Qed.

(** The loop of [ParseUint] reads a text of digits exactly, up to the
    largest uint64, and reports the overflow beyond. *)
Lemma ParseUint_loop_digits (s : string) (n : Z) :
  all_digits s = true -> 0 <= n <= maxUint64 ->
  ParseUint_loop s n
  = if decimal_from n s <=? maxUint64 then (decimal_from n s, None)
    else (maxUint64, Some ErrRange).
Proof.
  unfold maxUint64. change (2 ^ 64 - 1) with 18446744073709551615.
  revert n. induction s as [|c s IH]; intros n Hd Hn.
  - cbn [ParseUint_loop decimal_from].
    now replace (n <=? 18446744073709551615) with true
      by (symmetry; apply Z.leb_le; lia).
  - cbn [all_digits] in Hd. apply andb_prop in Hd as [Hc Hs].
    destruct (fast_digit c Hc) as [_ Hr].
    cbn [ParseUint_loop decimal_from]. rewrite (digit_of_digit c Hc).
    set (d := Z.of_N (Byte.code c) - 48) in *.
    replace (10 <=? d) with false by (symmetry; apply Z.leb_gt; lia).
    unfold maxUint64. change (2 ^ 64 - 1) with 18446744073709551615.
    change (18446744073709551615 / 10 + 1) with 1844674407370955162.
    pose proof (decimal_from_bounds s (n * 10 + d) Hs ltac:(lia)) as [Hlo _].
    destruct (1844674407370955162 <=? n) eqn:Hcut.
    + apply Z.leb_le in Hcut.
      now replace (decimal_from (n * 10 + d) s <=? 18446744073709551615) with false
        by (symmetry; apply Z.leb_gt; lia).
    + apply Z.leb_gt in Hcut.
      rewrite (uint64_small (n * 10))
        by (change (2 ^ 64) with 18446744073709551616; lia).
      destruct (Z_le_gt_dec (n * 10 + d) 18446744073709551615) as [Hfit|Hover].
      * rewrite (uint64_small (n * 10 + d))
          by (change (2 ^ 64) with 18446744073709551616; lia).
        replace (n * 10 + d <? n * 10) with false by (symmetry; apply Z.ltb_ge; lia).
        replace (18446744073709551615 <? n * 10 + d) with false
          by (symmetry; apply Z.ltb_ge; lia).
        cbn [orb]. apply IH; [exact Hs | lia].
      * assert (Hw : uint64 (n * 10 + d) = n * 10 + d - 18446744073709551616).
        { unfold uint64. change (2 ^ 64) with 18446744073709551616.
          replace (n * 10 + d)
            with ((n * 10 + d - 18446744073709551616) + 1 * 18446744073709551616)
            at 1 by lia.
          rewrite Z.mod_add by lia. apply Z.mod_small. lia. }
        rewrite Hw.
        replace (n * 10 + d - 18446744073709551616 <? n * 10) with true
          by (symmetry; apply Z.ltb_lt; lia).
        cbn [orb].
        now replace (decimal_from (n * 10 + d) s <=? 18446744073709551615) with false
          by (symmetry; apply Z.leb_gt; lia).
Qed.

Lemma ParseUint_loop_other (s : string) (n : Z) :
  all_digits s = false ->
  exists v e, ParseUint_loop s n = (v, Some e) /\ (e = ErrRange -> v = maxUint64).
Proof.
  revert n. induction s as [|c s IH]; intros n Hd; [discriminate|].
  cbn [all_digits] in Hd. cbn [ParseUint_loop].
  destruct (Byte.is_digit c) eqn:Hc.
  - rewrite (digit_of_digit c Hc).
    destruct (10 <=? _); [eexists _, _; split; [reflexivity | discriminate]|].
    destruct (_ <=? n); [eexists _, _; split; reflexivity|].
    destruct (_ || _); [eexists _, _; split; reflexivity|]. now apply IH.
  - pose proof (digit_of_other c Hc) as Ho.
    destruct (digit_of c) as [d|]; [rewrite Ho|];
      eexists _, _; (split; [reflexivity | discriminate]).
Qed.

End StrconvFacts.

Section AtoiFacts.
Import Strings Strconv.
Local Open Scope Z_scope.

Lemma digit_not_sign (c : ascii) :
  Byte.is_digit c = true -> Ascii.eqb c "-" = false /\ Ascii.eqb c "+" = false.
Proof.
  intros H. split.
  - destruct (Ascii.eqb c "-") eqn:E; [|reflexivity].
    apply Ascii.eqb_eq in E. subst c. discriminate.
  - destruct (Ascii.eqb c "+") eqn:E; [|reflexivity].
    apply Ascii.eqb_eq in E. subst c. discriminate.
Qed.

Lemma ParseUint_digits (s : string) :
  all_digits s = true -> s <> "" ->
  ParseUint s
  = if decimal s <=? maxUint64 then (decimal s, None)
    else (maxUint64, Some (rangeError "ParseUint" s)).
Proof.
  intros Hd Hne. unfold ParseUint. destruct s as [|c s]; [contradiction|].
  rewrite (ParseUint_loop_digits _ 0 Hd)
    by (unfold maxUint64; change (2 ^ 64 - 1) with 18446744073709551615; lia).
  fold (decimal (String c s)).
  now destruct (decimal (String c s) <=? maxUint64).
Qed.

Lemma decimal_nonneg (s : string) : all_digits s = true -> 0 <= decimal s.
Proof. intros H. apply (decimal_from_bounds s 0 H). lia. Qed.

(** What the fast path makes of a text of at most 18 digits. *)
Lemma Atoi_loop_short (s : string) :
  all_digits s = true -> (len s <= 18)%nat ->
  Atoi_loop s 0 = Some (decimal s) /\ 0 <= decimal s < 10 ^ 18.
Proof.
  intros Hd Hl. pose proof (pow10_18 (len s) Hl) as Hp.
  pose proof (decimal_from_bounds s 0 Hd ltac:(lia)) as Hb.
  split; [apply Atoi_loop_digits; [exact Hd | lia | lia]|].
  unfold decimal. lia.
Qed.

(** What [ParseInt] makes of the magnitude that [ParseUint] read. *)
Lemma ParseInt_digits (c0 : ascii) (rest body : string) :
  body = (if Ascii.eqb c0 "+" || Ascii.eqb c0 "-" then rest else String c0 rest) ->
  all_digits body = true -> body <> "" ->
  ParseInt (String c0 rest)
  = if Ascii.eqb c0 "-"
    then (if decimal body <=? 2 ^ 63 then (- decimal body, None)
          else (- 2 ^ 63, Some (rangeError "ParseInt" (String c0 rest))))
    else (if decimal body <=? 2 ^ 63 - 1 then (decimal body, None)
          else (2 ^ 63 - 1, Some (rangeError "ParseInt" (String c0 rest)))).
Proof.
  intros Hbody Hd Hne. unfold ParseInt. rewrite <- Hbody.
  rewrite (ParseUint_digits body Hd Hne).
  pose proof (decimal_nonneg body Hd) as H0.
  unfold maxUint64. change (2 ^ 64 - 1) with 18446744073709551615.
  change (2 ^ 63) with 9223372036854775808.
  change (9223372036854775808 - 1) with 9223372036854775807.
  set (v := decimal body) in *.
  destruct (v <=? 18446744073709551615) eqn:Hfit.
  - apply Z.leb_le in Hfit. destruct (Ascii.eqb c0 "-"); cbn [negb andb].
    + destruct (Z_le_gt_dec v 9223372036854775808) as [Hle|Hgt].
      * replace (9223372036854775808 <? v) with false
          by (symmetry; apply Z.ltb_ge; lia).
        replace (v <=? 9223372036854775808) with true
          by (symmetry; apply Z.leb_le; lia).
        f_equal. destruct (Z.eq_dec v 9223372036854775808) as [->|Hne'];
          [reflexivity|].
        rewrite (int64_small v)
          by (change (2 ^ 63) with 9223372036854775808; lia).
        apply int64_small. change (2 ^ 63) with 9223372036854775808. lia.
      * replace (9223372036854775808 <? v) with true
          by (symmetry; apply Z.ltb_lt; lia).
        now replace (v <=? 9223372036854775808) with false
          by (symmetry; apply Z.leb_gt; lia).
    + destruct (Z_le_gt_dec 9223372036854775808 v) as [Hge|Hlt].
      * replace (9223372036854775808 <=? v) with true
          by (symmetry; apply Z.leb_le; lia).
        now replace (v <=? 9223372036854775807) with false
          by (symmetry; apply Z.leb_gt; lia).
      * replace (9223372036854775808 <=? v) with false
          by (symmetry; apply Z.leb_gt; lia).
        replace (v <=? 9223372036854775807) with true
          by (symmetry; apply Z.leb_le; lia).
        f_equal. apply int64_small. change (2 ^ 63) with 9223372036854775808. lia.
  - apply Z.leb_gt in Hfit. cbn [rangeError Cause].
    destruct (Ascii.eqb c0 "-"); cbn [negb andb].
    + now replace (v <=? 9223372036854775808) with false
        by (symmetry; apply Z.leb_gt; lia).
    + now replace (v <=? 9223372036854775807) with false
        by (symmetry; apply Z.leb_gt; lia).
Qed.

(** [Atoi] on a text of digits with an optional sign in front: the fast
    path and [ParseInt] agree on what it denotes. *)
Lemma Atoi_numeral (c0 : ascii) (rest body : string) :
  body = (if Ascii.eqb c0 "-" || Ascii.eqb c0 "+" then rest else String c0 rest) ->
  all_digits body = true -> body <> "" ->
  Atoi (String c0 rest)
  = if Ascii.eqb c0 "-"
    then (if decimal body <=? 2 ^ 63 then (- decimal body, None)
          else (- 2 ^ 63, Some (rangeError "Atoi" (String c0 rest))))
    else (if decimal body <=? 2 ^ 63 - 1 then (decimal body, None)
          else (2 ^ 63 - 1, Some (rangeError "Atoi" (String c0 rest)))).
Proof.
  intros Hbody Hd Hne. unfold Atoi.
  destruct ((0 <? len (String c0 rest)) && (len (String c0 rest) <? 19))%nat eqn:Hfast.
  - apply andb_prop in Hfast as [_ Hlt]. apply Nat.ltb_lt in Hlt.
    rewrite <- Hbody.
    assert (Hlen : (len body <= 18)%nat).
    { rewrite Hbody. unfold len in *. cbn [String.length] in Hlt.
      destruct (_ || _); cbn [String.length]; lia. }
    destruct (Atoi_loop_short body Hd Hlen) as [-> Hr].
    replace (len body <? 1)%nat with false
      by (symmetry; apply Nat.ltb_ge; destruct body; [contradiction | simpl; lia]).
    rewrite andb_false_r.
    change (10 ^ 18) with 1000000000000000000 in Hr.
    change (2 ^ 63) with 9223372036854775808.
    change (9223372036854775808 - 1) with 9223372036854775807.
    destruct (Ascii.eqb c0 "-").
    + replace (decimal body <=? 9223372036854775808) with true
        by (symmetry; apply Z.leb_le; lia).
      f_equal. apply int64_small. change (2 ^ 63) with 9223372036854775808. lia.
    + now replace (decimal body <=? 9223372036854775807) with true
        by (symmetry; apply Z.leb_le; lia).
  - rewrite (ParseInt_digits c0 rest body); [|now rewrite orb_comm|exact Hd|exact Hne].
    destruct (Ascii.eqb c0 "-").
    + now destruct (decimal body <=? 2 ^ 63).
    + now destruct (decimal body <=? 2 ^ 63 - 1).
Qed.

(** Anything else is refused. *)
Lemma Atoi_refuses (s body : string) :
  body = match s with
         | EmptyString => EmptyString
         | String c0 rest =>
           if Ascii.eqb c0 "-" || Ascii.eqb c0 "+" then rest else s
         end ->
  body = "" \/ all_digits body = false ->
  exists v err, Atoi s = (v, Some err).
Proof.
  intros Hbody Hbad. unfold Atoi.
  destruct ((0 <? len s) && (len s <? 19))%nat eqn:Hfast.
  - destruct s as [|c0 rest]; [eauto|]. rewrite <- Hbody.
    destruct Hbad as [->|Hbad].
    + destruct (Ascii.eqb c0 "-" || Ascii.eqb c0 "+") eqn:Hs; [cbn; eauto|].
      discriminate.
    + rewrite (Atoi_loop_other body 0 Hbad).
      destruct ((Ascii.eqb c0 "-" || Ascii.eqb c0 "+") && (len body <? 1)%nat);
        eauto.
  - unfold ParseInt. destruct s as [|c0 rest]; [eauto|].
    rewrite (orb_comm (Ascii.eqb c0 "+")), <- Hbody.
    assert (Hu : exists v e, ParseUint body = (v, Some e)
                             /\ (Cause e = ErrRange -> v = maxUint64)).
    { unfold ParseUint. destruct Hbad as [->|Hbad];
        [eexists _, _; split; [reflexivity | discriminate]|].
      destruct body as [|c b]; [discriminate|].
      destruct (ParseUint_loop_other _ 0 Hbad) as (v & e & -> & Hv).
      destruct e; eexists _, _; (split; [reflexivity|]);
        [discriminate | intros _; now apply Hv]. }
    destruct Hu as (v & [f n e] & -> & Hv). destruct e; [eauto|].
    rewrite (Hv eq_refl). unfold maxUint64.
    change (2 ^ 63 <=? 2 ^ 64 - 1) with true.
    change (2 ^ 63 <? 2 ^ 64 - 1) with true.
    destruct (Ascii.eqb c0 "-"); cbn; eauto.
Qed.

End AtoiFacts.

(** ** Package env: required variables, defaults and conversions *)

Section EnvTheorems.
Import Strings Strconv.
Local Open Scope Z_scope.

(** X16: the accessors of the three variables.  When a variable is set,
    even to the empty string, the accessor that requires it and the one
    with a default both return its value; when it is not set, the first
    panics naming the variable and the second returns the default.  The
    variables are DRUPAL_BASE_URL, DRUPAL_TEST_BASEDIR and
    BASE_ASSETS_URL. *)
Theorem env_required_or_default (environ : gmap string string) (d : string) :
  match environ !! "DRUPAL_BASE_URL" with
  | Some v => Env.BaseUrl environ = Go.Ok v /\ Env.BaseUrlOr environ d = Go.Ok v
  | None => Env.BaseUrl environ = Go.Panic (Go.EnvMissing "DRUPAL_BASE_URL")
            /\ Env.BaseUrlOr environ d = Go.Ok d
  end
  /\ match environ !! "DRUPAL_TEST_BASEDIR" with
     | Some v => Env.TestBasedir environ = Go.Ok v
                 /\ Env.TestBasedirOr environ d = Go.Ok v
     | None => Env.TestBasedir environ = Go.Panic (Go.EnvMissing "DRUPAL_TEST_BASEDIR")
               /\ Env.TestBasedirOr environ d = Go.Ok d
     end
  /\ match environ !! "BASE_ASSETS_URL" with
     | Some v => Env.AssetsBaseUrl environ = Go.Ok v
                 /\ Env.AssetsBaseUrlOr environ d = Go.Ok v
     | None => Env.AssetsBaseUrl environ = Go.Panic (Go.EnvMissing "BASE_ASSETS_URL")
               /\ Env.AssetsBaseUrlOr environ d = Go.Ok d
     end.
Proof.
  unfold Env.BaseUrl, Env.BaseUrlOr, Env.TestBasedir, Env.TestBasedirOr,
    Env.AssetsBaseUrl, Env.AssetsBaseUrlOr, Env.requireEnv, Env.GetEnvOr, Env.getEnv,
    Env.drupalBaseUrl, Env.testBasedir, Env.assetsBaseUrl.
  destruct (environ !! "DRUPAL_BASE_URL");
    destruct (environ !! "DRUPAL_TEST_BASEDIR");
    destruct (environ !! "BASE_ASSETS_URL"); repeat split.
Qed.

Lemma all_digits_app_other (pre post : string) (c : ascii) :
  Byte.is_digit c = false -> all_digits (pre +:+ String c post) = false.
Proof.
  intros Hc. induction pre as [|p pre IH].
  - cbn [append all_digits]. now rewrite Hc.
  - rewrite append_cons. cbn [all_digits]. rewrite IH. apply andb_false_r.
Qed.

(** X17: [GetEnvOrInt] on a variable set to a decimal numeral: digits, at
    least one, with nothing, a plus or a minus sign in front.  It returns
    the number the numeral denotes when that number is an int64, whatever
    the length of the numeral and the number of leading zeros, and panics
    with a range error otherwise; the default plays no part. *)
Theorem GetEnvOrInt_numerals (environ : gmap string string) (envVar : string)
    (defValue : Z) (sign digits : string) :
  environ !! envVar = Some (sign +:+ digits) ->
  sign = "" \/ sign = "+" \/ sign = "-" ->
  digits <> "" -> all_digits digits = true ->
  Env.GetEnvOrInt environ envVar defValue
  = let n := if String.eqb sign "-" then - decimal digits else decimal digits in
    if (- 2 ^ 63 <=? n) && (n <=? 2 ^ 63 - 1) then Env.Converted n
    else Env.Malformed envVar (rangeError "Atoi" (sign +:+ digits)).
Proof.
  intros He Hsign Hne Hd. unfold Env.GetEnvOrInt, Env.getEnv. rewrite He.
  pose proof (decimal_nonneg digits Hd) as H0.
  assert (HA : exists c0 rest,
             sign +:+ digits = String c0 rest
             /\ digits = (if Ascii.eqb c0 "-" || Ascii.eqb c0 "+" then rest
                          else String c0 rest)
             /\ Ascii.eqb c0 "-" = String.eqb sign "-").
  { destruct Hsign as [-> | [-> | ->]].
    - destruct digits as [|c0 rest]; [contradiction|]. exists c0, rest.
      cbn [all_digits] in Hd. apply andb_prop in Hd as [Hc _].
      destruct (digit_not_sign c0 Hc) as [-> ->]. repeat split.
    - exists "+"%char, digits. repeat split.
    - exists "-"%char, digits. repeat split. }
  destruct HA as (c0 & rest & Hs & Hbody & Hneg).
  rewrite Hs, (Atoi_numeral c0 rest digits Hbody Hd Hne), Hneg.
  cbv zeta. change (2 ^ 63) with 9223372036854775808 in *.
  change (9223372036854775808 - 1) with 9223372036854775807.
  destruct (String.eqb sign "-");
    repeat match goal with
           | |- context [?a <=? ?b] => destruct (Z.leb_spec a b)
           end;
    cbn [andb]; try reflexivity; lia.
Qed.

Lemma GetEnvOrInt_numerals_witness :
  Env.GetEnvOrInt {[ "RETRIES" := "-0042" ]} "RETRIES" 3 = Env.Converted (-42)
  /\ Env.GetEnvOrInt {[ "RETRIES" := "9223372036854775808" ]} "RETRIES" 3
     = Env.Malformed "RETRIES" (rangeError "Atoi" "9223372036854775808").
Proof.
  split.
  - apply (GetEnvOrInt_numerals {[ "RETRIES" := "-0042" ]} "RETRIES" 3 "-" "0042");
      [reflexivity | auto | discriminate | reflexivity].
  - apply (GetEnvOrInt_numerals {[ "RETRIES" := "9223372036854775808" ]} "RETRIES" 3
             "" "9223372036854775808");
      [reflexivity | auto | discriminate | reflexivity].
Defined.

(** X18: what [GetEnvOrInt] does otherwise.  For a variable that is not set
    it returns the default.  For one that is set to the empty string, to a
    sign alone, or to a text with a byte that is no digit (other than a
    sign in first place), it panics with the error of [strconv.Atoi]: it
    does not fall back to the default. *)
Theorem GetEnvOrInt_refusals (environ : gmap string string) (envVar : string)
    (defValue : Z) :
  (environ !! envVar = None ->
   Env.GetEnvOrInt environ envVar defValue = Env.Converted defValue)
  /\ (forall s,
         environ !! envVar = Some s ->
         s = "" \/ s = "+" \/ s = "-"
         \/ (exists pre c post,
                s = pre +:+ String c post /\ Byte.is_digit c = false
                /\ (pre <> "" \/ (c <> "+"%char /\ c <> "-"%char))) ->
         exists err, Env.GetEnvOrInt environ envVar defValue
                     = Env.Malformed envVar err).
Proof.
  unfold Env.GetEnvOrInt, Env.getEnv. split; [now intros ->|].
  intros s -> Hs.
  assert (HA : exists v err, Atoi s = (v, Some err)).
  { destruct Hs as [-> | [-> | [-> | (pre & c & post & -> & Hc & Hpos)]]];
      [apply (Atoi_refuses "" ""); [reflexivity | now left]
      |apply (Atoi_refuses "+" ""); [reflexivity | now left]
      |apply (Atoi_refuses "-" ""); [reflexivity | now left]
      |].
    eapply Atoi_refuses; [reflexivity|]. right.
    destruct pre as [|p pre].
    - destruct Hpos as [Hpos|[Hp Hm]]; [contradiction|].
      cbn [append].
      replace (Ascii.eqb c "-") with false
        by (symmetry; apply Ascii.eqb_neq; exact Hm).
      replace (Ascii.eqb c "+") with false
        by (symmetry; apply Ascii.eqb_neq; exact Hp).
      cbn [orb all_digits]. now rewrite Hc.
    - rewrite append_cons. destruct (Ascii.eqb p "-" || Ascii.eqb p "+").
      + now apply all_digits_app_other.
      + rewrite <- append_cons. now apply all_digits_app_other. }
  destruct HA as (v & err & ->). now exists err.
Qed.

Lemma GetEnvOrInt_refusals_witness :
  exists err, Env.GetEnvOrInt {[ "RETRIES" := "1_000" ]} "RETRIES" 3
              = Env.Malformed "RETRIES" err.
Proof.
  apply (proj2 (GetEnvOrInt_refusals {[ "RETRIES" := "1_000" ]} "RETRIES" 3) "1_000");
    [reflexivity|].
  right; right; right. exists "1", "_"%char, "000".
  split; [reflexivity|]. split; [reflexivity|]. left; discriminate.
Defined.

(** X19: [GetEnvOrBool] on a variable that is set returns true for exactly
    the values 1, t, T, true, TRUE and True, false for exactly 0, f, F,
    false, FALSE and False, and panics for every other value, the empty
    string and mixed case included; it returns the default exactly when
    the variable is not set. *)
Theorem GetEnvOrBool_spellings (environ : gmap string string) (envVar : string)
    (defValue : bool) :
  (environ !! envVar = None ->
   Env.GetEnvOrBool environ envVar defValue = Env.Converted defValue)
  /\ (forall v,
         environ !! envVar = Some v ->
         (In v ["1"; "t"; "T"; "true"; "TRUE"; "True"] <->
          Env.GetEnvOrBool environ envVar defValue = Env.Converted true)
         /\ (In v ["0"; "f"; "F"; "false"; "FALSE"; "False"] <->
             Env.GetEnvOrBool environ envVar defValue = Env.Converted false)
         /\ (~ In v ["1"; "t"; "T"; "true"; "TRUE"; "True";
                     "0"; "f"; "F"; "false"; "FALSE"; "False"] <->
             Env.GetEnvOrBool environ envVar defValue
             = Env.Malformed envVar (syntaxError "ParseBool" v))).
Proof.
  unfold Env.GetEnvOrBool, Env.getEnv. split; [now intros ->|].
  intros v ->. unfold ParseBool.
  destruct (existsb (String.eqb v) ["1"; "t"; "T"; "true"; "TRUE"; "True"]) eqn:Et;
    [|destruct (existsb (String.eqb v)
                  ["0"; "f"; "F"; "false"; "FALSE"; "False"]) eqn:Ef].
  - apply existsb_exists in Et as (x & Hx & E). apply String.eqb_eq in E. subst x.
    repeat split; try (intros; discriminate); try (intros; assumption).
    + cbn [In] in Hx |- *. intros H.
      repeat destruct H as [<-|H]; try contradiction;
        repeat destruct Hx as [Hx|Hx]; try discriminate; try contradiction.
    + intros Hn. destruct Hn. cbn [In] in Hx |- *. tauto.
  - apply existsb_exists in Ef as (x & Hx & E). apply String.eqb_eq in E. subst x.
    repeat split; try (intros; discriminate); try (intros; assumption).
    + cbn [In] in Hx |- *. intros H.
      repeat destruct H as [<-|H]; try contradiction;
        repeat destruct Hx as [Hx|Hx]; try discriminate; try contradiction.
    + intros Hn. destruct Hn. cbn [In] in Hx |- *. tauto.
  - assert (Ht : ~ In v ["1"; "t"; "T"; "true"; "TRUE"; "True"]).
    { intros H.
      assert (existsb (String.eqb v) ["1"; "t"; "T"; "true"; "TRUE"; "True"] = true)
        by (apply existsb_exists; exists v; split; [exact H | apply String.eqb_refl]).
      congruence. }
    assert (Hf : ~ In v ["0"; "f"; "F"; "false"; "FALSE"; "False"]).
    { intros H.
      assert (existsb (String.eqb v) ["0"; "f"; "F"; "false"; "FALSE"; "False"] = true)
        by (apply existsb_exists; exists v; split; [exact H | apply String.eqb_refl]).
      congruence. }
    repeat split; try (intros; discriminate); try contradiction.
    intros _ H. change (In v (["1"; "t"; "T"; "true"; "TRUE"; "True"]
                              ++ ["0"; "f"; "F"; "false"; "FALSE"; "False"])%list) in H.
    apply in_app_or in H. tauto.
Qed.

Lemma GetEnvOrBool_spellings_witness :
  Env.GetEnvOrBool {[ "VERBOSE" := "True" ]} "VERBOSE" false = Env.Converted true
  /\ Env.GetEnvOrBool {[ "VERBOSE" := "yes" ]} "VERBOSE" true
     = Env.Malformed "VERBOSE" (syntaxError "ParseBool" "yes").
Proof.
  split.
  - refine (proj1 (proj1 (proj2 (GetEnvOrBool_spellings {[ "VERBOSE" := "True" ]}
                                   "VERBOSE" false) "True" _)) _);
      [reflexivity | cbn [In]; tauto].
  - refine (proj1 (proj2 (proj2 (proj2 (GetEnvOrBool_spellings {[ "VERBOSE" := "yes" ]}
                                          "VERBOSE" true) "yes" _))) _);
      [reflexivity|].
    cbn [In]. intros H. repeat destruct H as [H|H]; try discriminate; exact H.
Defined.

End EnvTheorems.

(** ** Package fs: pathContains *)

Section PathTheorems.
Import Strings.

Lemma Index_byte (s : string) (c : ascii) : Index s (String c "") = IndexByte s c.
Proof.
  induction s as [|d s IH]; [reflexivity|].
  rewrite Index_cons, IndexByte_cons, IH. unfold HasPrefix.
  rewrite prefix_cons. destruct (ascii_dec c d) as [->|Hne].
  - rewrite Ascii.eqb_refl. now destruct s.
  - now replace (Ascii.eqb d c) with false
      by (symmetry; apply Ascii.eqb_neq; congruence).
Qed.

Lemma IndexByte_app_Some (a b : string) (c : ascii) (m : nat) :
  IndexByte a c = Some m -> IndexByte (a +:+ b) c = Some m.
Proof.
  revert m. induction a as [|d a IH]; intros m; [discriminate|].
  rewrite append_cons, !IndexByte_cons. destruct (Ascii.eqb d c); [easy|].
  destruct (IndexByte a c) as [k|]; [|discriminate].
  intros [= <-]. now rewrite (IH k eq_refl).
Qed.

Lemma take_app_le (a b : string) (n : nat) :
  n <= len a -> take n (a +:+ b) = take n a.
Proof.
  revert n. induction a as [|d a IH]; intros [|n] Hn; simpl in *;
    try reflexivity; try lia.
  f_equal. apply IH. lia.
Qed.

Lemma drop_app_le (a b : string) (n : nat) :
  n <= len a -> drop n (a +:+ b) = drop n a +:+ b.
Proof.
  revert n. induction a as [|d a IH]; intros [|n] Hn; simpl in *;
    try reflexivity; try lia.
  apply IH. lia.
Qed.

(** Splitting at a one-byte separator goes through a join. *)
Lemma Split_join_byte (a b : string) (c : ascii) :
  Split (a +:+ String c b) (String c "")
  = (Split a (String c "") ++ Split b (String c ""))%list.
Proof.
  assert (Hsep : String c "" <> "") by discriminate.
  induction a as [a Hi|a m Hi IH] using (Split_ind (String c "") Hsep).
  - rewrite (Split_whole a _ Hsep Hi). rewrite Index_byte in Hi.
    rewrite (Split_cut (a +:+ String c b) _ (len a) Hsep)
      by (rewrite Index_byte; now apply IndexByte_app_first).
    rewrite take_app_len. change (len (String c "")) with 1.
    change (String c b) with (String c "" +:+ b).
    rewrite <- app_assoc_s.
    replace (len a + 1) with (len (a +:+ String c "")) by (rewrite len_app; reflexivity).
    now rewrite drop_app_len.
  - pose proof (Index_Some_le a _ m Hi) as Hm. change (len (String c "")) with 1 in *.
    rewrite (Split_cut a _ m Hsep Hi).
    rewrite (Split_cut (a +:+ String c b) _ m Hsep)
      by (rewrite Index_byte in *; now apply IndexByte_app_Some).
    change (len (String c "")) with 1.
    rewrite take_app_le, drop_app_le by lia. rewrite IH. reflexivity.
Qed.

(** X20: [pathContains] goes through the joining of paths: a path made of
    a directory, the separator and a further path contains a candidate
    exactly when one of the two parts does.  So whatever lies below a
    directory that matches, matches. *)
Theorem pathContains_join (dir rest : string) (candidates : list string) :
  Fs.pathContains (dir +:+ "/" +:+ rest) candidates
  = Fs.pathContains dir candidates || Fs.pathContains rest candidates.
Proof.
  unfold Fs.pathContains, Fs.PathSeparator.
  change ("/" +:+ rest) with (String "/" rest).
  now rewrite Split_join_byte, existsb_app.
Qed.

(** X21: [pathContains] compares whole path elements.  A candidate that
    holds the separator matches no path; a path without separator matches
    exactly when it is itself a candidate. *)
Theorem pathContains_whole_elements (path : string) (candidates : list string) :
  (Forall (fun c => Contains c "/" = true) candidates ->
   Fs.pathContains path candidates = false)
  /\ (Contains path "/" = false ->
      Fs.pathContains path candidates = existsb (String.eqb path) candidates).
Proof.
  unfold Fs.pathContains, Fs.PathSeparator. split.
  - intros Hc. pose proof (Split_pieces path "/" ltac:(discriminate)) as Hp.
    induction Hp as [|e l He _ IH]; [reflexivity|].
    cbn [existsb]. rewrite IH, orb_false_r.
    clear IH. induction Hc as [|c cs Hc _ IHc]; [reflexivity|].
    cbn [existsb]. rewrite IHc, orb_false_r.
    apply String.eqb_neq. intros ->. congruence.
  - unfold Contains. destruct (Index path "/") eqn:Hi; [discriminate|]. intros _.
    rewrite (Split_whole path "/") by easy. cbn [existsb]. apply orb_false_r.
Qed.

Lemma pathContains_whole_elements_witness :
  Fs.pathContains "testdata/verification/expected" ["verification/expected"] = false
  /\ Fs.pathContains "expected" ["verification"; "expected"]
     = existsb (String.eqb "expected") ["verification"; "expected"].
Proof.
  split.
  - apply (proj1 (pathContains_whole_elements "testdata/verification/expected"
                    ["verification/expected"])).
    repeat constructor.
  - apply (proj2 (pathContains_whole_elements "expected" ["verification"; "expected"])).
    reflexivity.
Defined.

End PathTheorems.

(** ** Get and GetSingle against a server that answers 200 *)

Section Success.
Import Strings Json Observe.

(** X22: the whole of [Get] and [GetSingle] when all goes well.  When
    [String()] returns a URL that [http.NewRequest] accepts and the server
    answers 200 with a readable body whose [data] is an array of objects,
    both send one request (with the credentials when the user name is not
    blank), log one line, report no failure, and hand to [To] the response
    that holds the field maps of these objects; [GetSingle] reports one
    failure, the number of objects, when that number is not 1. *)
Theorem Get_on_success (jar : Jsonapi.JsonApiUrl) (v : Jsonapi.target)
    (w w1 : World) (url : string) (r : Http.Request) (res : Http.Response)
    (ms : list (string * doc)) (objs : list (list (string * doc))) :
  Jsonapi.String jar w = Returns url w1 ->
  Http.NewRequest "GET" url = inr r ->
  server w (if (len (TrimSpace (Jsonapi.Username jar)) =? 0)%nat then r
            else Http.SetBasicAuth r (Jsonapi.Username jar) (Jsonapi.Password jar))
  = inl res ->
  Http.StatusCode res = 200%Z -> Http.BodyError res = false ->
  Json.parse (Http.Body res) = Some (JObject ms) ->
  decode_errors (TMap TInterface) (JObject ms) = [] ->
  member "data" ms = Some (JArray (map JObject objs)) ->
  let w' :=
    {| environ := environ w1; server := server w1; failed := failed w1;
       failures := failures w1;
       logged :=
         (logged w1 ++ [if (len (TrimSpace (Jsonapi.Username jar)) =? 0)%nat
                        then Retrieving url else RetrievingWithAuth url])%list;
       requests :=
         (requests w1
          ++ [if (len (TrimSpace (Jsonapi.Username jar)) =? 0)%nat then r
              else Http.SetBasicAuth r (Jsonapi.Username jar)
                     (Jsonapi.Password jar)])%list |} in
  Jsonapi.Get jar v w
  = Jsonapi.To {| Jsonapi.Data := Some (map fields_of objs) |} v w'
  /\ Jsonapi.GetSingle jar v w
     = Jsonapi.To {| Jsonapi.Data := Some (map fields_of objs) |} v
         (if (length objs =? 1)%nat then w'
          else failed_with (DataCount (length objs)) w').
Proof.
  intros Hu Hr Hs H200 Hbody Hp Herr Hm w'.
  assert (Hsrv : server w1 = server w).
  { pose proof (String_keeps_server jar w) as H. now rewrite Hu in H. }
  assert (Hf : (if (len (TrimSpace (Jsonapi.Username jar)) =? 0)%nat
                then u ← Jsonapi.String jar; Jsonapi.GetResource u
                else u ← Jsonapi.String jar;
                     Jsonapi.GetResourceWithBasicAuth u (Jsonapi.Username jar)
                       (Jsonapi.Password jar)) w
               = Returns (res, Http.Body res) w').
  { subst w'. destruct (len (TrimSpace (Jsonapi.Username jar)) =? 0)%nat eqn:Hb;
      rewrite (bind_returns _ _ _ _ _ Hu).
    - unfold Jsonapi.GetResource.
      now rewrite (GetResourceWithBasicAuth_ok url "" "" w1 r res Hr)
        by (try rewrite Hsrv; assumption).
    - assert (Hlt : (0 <? len (TrimSpace (Jsonapi.Username jar)))%nat = true)
        by (destruct (len (TrimSpace (Jsonapi.Username jar))); [discriminate | reflexivity]).
      rewrite (GetResourceWithBasicAuth_ok url (Jsonapi.Username jar)
                 (Jsonapi.Password jar) w1 r res Hr)
        by (try rewrite Hsrv, Hlt; assumption).
      now rewrite Hlt. }
  assert (Hd : Jsonapi.Unmarshal_response (Http.Body res) {| Jsonapi.Data := None |}
               = Go.Ok ({| Jsonapi.Data := Some (map fields_of objs) |}, None)).
  { unfold Jsonapi.Unmarshal_response. rewrite Hp.
    now apply (UnmarshalJSON_objects _ _ ms objs). }
  unfold Jsonapi.Get, Jsonapi.GetSingle.
  rewrite !(bind_returns _ _ _ _ _ Hf). cbn [fst snd].
  unfold Jsonapi.UnmarshalSingleResponse, Jsonapi.UnmarshalResponse.
  rewrite Hd. unfold Run.lift, mbind, M_bind, mret, M_ret.
  cbn [fst snd Run.assert_Nil]. unfold mret, M_ret.
  split; [reflexivity|].
  unfold Run.assert_that, Jsonapi.len_Data. cbn [Jsonapi.Data].
  rewrite length_map.
  destruct (length objs =? 1)%nat; reflexivity.
Qed.

Lemma Get_on_success_witness :
  let jar := Examples.media_document "id" "abc" "" "admin" "moo" in
  let body := Examples.json "{'data':[{'id':'x'},{'id':'y'}]}" in
  let w := Examples.world ∅ (Examples.always 200 body) in
  let v := Jsonapi.Ptr Examples.id_list (Json.zero Examples.id_list) in
  exists w',
    Jsonapi.Get jar v w
    = Jsonapi.To {| Jsonapi.Data := Some (map fields_of [[("id", JString "x")];
                                                          [("id", JString "y")]]) |}
        v w'
    /\ failed w' = false
    /\ logged w'
       = [RetrievingWithAuth "http://h:1/jsonapi/media/document?filter[id]=abc"].
Proof.
  intros jar body w v. eexists. split.
  - refine (proj1 (Get_on_success jar v w w
                     "http://h:1/jsonapi/media/document?filter[id]=abc" _
                     {| Http.StatusCode := 200; Http.Body := body;
                        Http.BodyError := false |}
                     [("data", JArray [JObject [("id", JString "x")];
                                       JObject [("id", JString "y")]])]
                     [[("id", JString "x")]; [("id", JString "y")]]
                     _ _ _ _ _ _ _ _));
      try (vm_compute; reflexivity).
  - split; reflexivity.
Defined.

End Success.

(** ** JsonApiResponse.To when json.Marshal fails *)

Section FatalProjection.
Import Strings Json.

Lemma mapM_None {A B} (f : A -> option B) (l : list A) (x : A) :
  x ∈ l -> f x = None -> mapM f l = None.
Proof.
  intros Hin Hx. induction l as [|y l IH]; [now apply elem_of_nil in Hin|].
  cbn [mapM]. apply elem_of_cons in Hin as [<-|Hin].
  - now rewrite Hx.
  - rewrite (IH Hin). now destruct (f y).
Qed.

Lemma marshal_Map_None (m : gmap string value) (k : string) (x : value) :
  m !! k = Some x -> marshal x = None -> marshal (Map m) = None.
Proof.
  intros Hk Hx. cbn [marshal]. rewrite map_fold_foldr.
  apply elem_of_map_to_list in Hk.
  induction (map_to_list m) as [|[k' x'] l IH]; [now apply elem_of_nil in Hk|].
  cbn [foldr uncurry]. apply elem_of_cons in Hk as [[= <- <-]|Hk].
  - rewrite Hx. cbn. now destruct (foldr _ _ l).
  - apply IH in Hk. cbn in Hk |- *.
    destruct (foldr _ _ l); [discriminate | reflexivity].
Qed.

(** X23: a response built by hand with a number that JSON cannot write (a
    NaN or an infinity) in one of its field maps ends the process: [To]
    logs that it is unable to marshal the response and exits with status
    1 through [log.Fatalf], whatever the target. *)
Theorem To_exits_on_unsupported_value (l : list (gmap string value))
    (m : gmap string value) (k : string) (f : spec_float)
    (v : Jsonapi.target) (w : World) :
  m ∈ l -> m !! k = Some (Float64 f) -> is_finite f = false ->
  Jsonapi.To {| Jsonapi.Data := Some l |} v w
  = Exits 1 {| environ := environ w; server := server w; failed := failed w;
               failures := failures w;
               logged := (logged w ++ [UnableToMarshal])%list;
               requests := requests w |}.
Proof.
  intros Hin Hk Hf. unfold Jsonapi.To, Jsonapi.Marshal. cbn [Jsonapi.Data].
  replace (marshal (Slice (map Map l))) with (@None doc); [reflexivity|].
  symmetry. cbn [marshal].
  rewrite (mapM_None marshal (map Map l) (Map m)); [reflexivity | |].
  - change (map Map l) with (Map <$> l). now apply list_elem_of_fmap_2.
  - apply (marshal_Map_None m k (Float64 f) Hk). cbn [marshal]. now rewrite Hf.
Qed.

Lemma To_exits_on_unsupported_value_witness :
  Jsonapi.To {| Jsonapi.Data := Some [{[ "ratio" := Float64 S754_nan ]}] |}
    (Jsonapi.Ptr Examples.id_list (zero Examples.id_list)) Examples.offline
  = Exits 1 {| environ := environ Examples.offline;
               server := server Examples.offline;
               failed := false; failures := [];
               logged := [UnableToMarshal]; requests := [] |}.
Proof.
  apply (To_exits_on_unsupported_value [{[ "ratio" := Float64 S754_nan ]}]
           {[ "ratio" := Float64 S754_nan ]} "ratio" S754_nan).
  - repeat constructor.
  - reflexivity.
  - reflexivity.
Defined.

End FatalProjection.
